(** * pi5-fan-controller: the control loop of [FanController], verified

    A shallow embedding of [src/fan_controller.cpp] (with the configuration
    record of [include/config_parser.hpp]).

    - A C++ [double] is a primitive binary64 [float]; comparisons and
      arithmetic are the IEEE-754 ones, and NaN is the "no temperature"
      marker exactly as in the source.
    - [FanSpeed] is the five-valued enumeration, ordered through its
      underlying [int].
    - The sysfs files, the clock and the termination signal form the
      environment ([Env]); the controller is a state transformer over its
      two atomics, the environment's state and the text it has printed.
    - A call ends with a value or with an exception ([result]): the
      exceptions of [std::filesystem] and of the streams travel up to the
      nearest [catch], and out of [run] and [main] when there is none. *)

From Stdlib Require Import ZArith Lia Bool List String Ascii.
From Stdlib Require Import DecimalString Uint63 Floats.
From stdpp Require Import base option strings gmap.

Local Open Scope Z_scope.

(* ===================================================================== *)
(** * Data model                                                          *)
(* ===================================================================== *)

(** [enum class FanSpeed : int]. *)
Inductive FanSpeed : Set := OFF | LOW | MEDIUM | HIGH | FULL.

(** [static_cast<int>(speed)]. *)
Definition speed_value (s : FanSpeed) : Z :=
  match s with OFF => 0 | LOW => 1 | MEDIUM => 2 | HIGH => 3 | FULL => 4 end.

(** [static_cast<FanSpeed>(v)], for the values [readFanSpeed] lets through. *)
Definition speed_of_value (v : Z) : option FanSpeed :=
  match v with
  | 0 => Some OFF | 1 => Some LOW | 2 => Some MEDIUM | 3 => Some HIGH | 4 => Some FULL
  | _ => None
  end.

Definition FanSpeed_eqb (a b : FanSpeed) : bool := speed_value a =? speed_value b.
Definition FanSpeed_ltb (a b : FanSpeed) : bool := speed_value a <? speed_value b.

Definition all_speeds : list FanSpeed := [OFF; LOW; MEDIUM; HIGH; FULL].

(** [struct FanControllerConfig]. *)
Record FanControllerConfig : Set := {
  fan_path : string;
  hwmon0_name : string;
  hwmon1_name : string;
  temp_hwmon0_path : string;
  temp_hwmon1_path : string;
  hysteresis : float;
  off_threshold : float;
  low_threshold : float;
  medium_threshold : float;
  high_threshold : float;
  full_threshold : float;
  interval_seconds : Z;
  debug : bool
}.

(** The defaults written in the struct's member initialisers. *)
Definition default_config : FanControllerConfig := {|
  fan_path := "/sys/class/thermal/cooling_device0/cur_state";
  hwmon0_name := "cpu_thermal";
  hwmon1_name := "rp1_adc";
  temp_hwmon0_path := "";
  temp_hwmon1_path := "";
  hysteresis := 2%float;
  off_threshold := 53%float;
  low_threshold := 54%float;
  medium_threshold := 59%float;
  high_threshold := 64%float;
  full_threshold := 70%float;
  interval_seconds := 15;
  debug := false
|}.

(* ===================================================================== *)
(** * SpeedPolicy: the pure part                                          *)
(* ===================================================================== *)

Section SpeedPolicy.
Variable config_ : FanControllerConfig.

(** [FanController::determineTargetSpeed]; [a >= b] on doubles is
    [b <= a]. *)
Definition determineTargetSpeed (temperature : float) : FanSpeed :=
  if (full_threshold config_ <=? temperature)%float then FULL
  else if (high_threshold config_ <=? temperature)%float then HIGH
  else if (medium_threshold config_ <=? temperature)%float then MEDIUM
  else if (low_threshold config_ <=? temperature)%float then LOW
  else OFF.

(** [FanController::getThresholdForSpeed]; the [default:] label cannot be
    reached with a five-valued [FanSpeed]. *)
Definition getThresholdForSpeed (speed : FanSpeed) : float :=
  match speed with
  | OFF => low_threshold config_
  | LOW => medium_threshold config_
  | MEDIUM => high_threshold config_
  | HIGH | FULL => full_threshold config_
  end.

(** [FanController::checkHysteresis], with the value loaded from
    [current_fan_speed_] as an argument. *)
Definition checkHysteresis (current_speed : FanSpeed)
    (temperature : float) (target_speed : FanSpeed) : bool :=
  if (hysteresis config_ <=? 0)%float then true
  else if FanSpeed_ltb current_speed target_speed then true
  else if FanSpeed_ltb target_speed current_speed then
    (temperature <=? getThresholdForSpeed target_speed - hysteresis config_)%float
  else true.

(** The boundary at which a speed is entered in [determineTargetSpeed]
    (for OFF, the [off_threshold] of the table). *)
Definition entryThreshold (speed : FanSpeed) : float :=
  match speed with
  | OFF => off_threshold config_
  | LOW => low_threshold config_
  | MEDIUM => medium_threshold config_
  | HIGH => high_threshold config_
  | FULL => full_threshold config_
  end.

(** The table is strictly increasing: off < low < medium < high < full,
    which excludes NaN entries (the test of [FanController::initialize]
    rejects a table with [a >= b] for two neighbours). *)
Definition thresholds_ascending : Prop :=
  (off_threshold config_ <? low_threshold config_)%float = true /\
  (low_threshold config_ <? medium_threshold config_)%float = true /\
  (medium_threshold config_ <? high_threshold config_)%float = true /\
  (high_threshold config_ <? full_threshold config_)%float = true.
End SpeedPolicy.

(* ===================================================================== *)
(** * Binary64 values as integers                                         *)
(* ===================================================================== *)

(** The vocabulary in which the rounding of the binary64 subtraction is
    stated: the value of a [spec_float] in units of [2^emin], with the
    infinities at [omega], and rounding to nearest, ties to even, to [prec]
    binary digits. *)
Module B64.
Definition emin : Z := -1074.   (* 3 - emax - prec *)
Definition omega : Z := 2 ^ (emax - emin).

(** value, in units of 2^emin *)
Definition value (x : spec_float) : Z :=
  match x with
  | S754_zero _ => 0
  | S754_infinity s => if s then - omega else omega
  | S754_nan => 0
  | S754_finite s m e => cond_Zopp s (Zpos m * 2 ^ (e - emin))
  end.

Definition digits (n : Z) : Z := Z.log2 n + 1.

(** round to nearest, ties to even, of a positive integer to [prec] digits *)
Definition round_pos (n : Z) : Z :=
  let k := digits n - prec in
  if k <=? 0 then n
  else
    let q := n / 2 ^ k in
    let r := n mod 2 ^ k in
    let half := 2 ^ (k - 1) in
    let q' := if r <? half then q
              else if half <? r then q + 1
              else if Z.even q then q else q + 1 in
    Z.min (q' * 2 ^ k) omega.

Definition round (n : Z) : Z :=
  match n with
  | 0 => 0
  | Zpos _ => round_pos n
  | Zneg _ => - round_pos (- n)
  end.

(** The rounding before the clip at omega. *)
Definition core (n : Z) : Z :=
  let k := digits n - prec in
  if k <=? 0 then n
  else
    let q := n / 2 ^ k in
    let r := n mod 2 ^ k in
    let half := 2 ^ (k - 1) in
    (if r <? half then q
     else if half <? r then q + 1
     else if Z.even q then q else q + 1) * 2 ^ k.

Definition magnitude (m : positive) (e : Z) : Z := Zpos m * 2 ^ (e - emin).

Definition is_nan_sf (x : spec_float) : bool :=
  match x with S754_nan => true | _ => false end.

Definition finite_or_zero (x : spec_float) : bool :=
  match x with S754_zero _ | S754_finite _ _ _ => true | _ => false end.

(** [n] shifted right by [k >= 1] places, with its round and sticky bits. *)
Definition shifted (n k : Z) : shr_record :=
  {| shr_m := n / 2 ^ k;
     shr_r := Z.odd (n / 2 ^ (k - 1));
     shr_s := negb (n mod 2 ^ (k - 1) =? 0) |}.
End B64.

(* ===================================================================== *)
(** * Text handling of the C++ standard library                           *)
(* ===================================================================== *)

(** [std::getline(stream, line)] on the bytes still to be read: it fails
    when nothing at all can be extracted, and otherwise yields the text
    before the first newline. *)
Fixpoint upto_newline (s : string) : string :=
  match s with
  | EmptyString => EmptyString
  | String c rest =>
      if Ascii.eqb c "010"%char then EmptyString else String c (upto_newline rest)
  end.

Definition getline (content : string) : option string :=
  match content with
  | EmptyString => None
  | _ => Some (upto_newline content)
  end.

(** [std::isspace] in the "C" locale. *)
Definition isspace (c : ascii) : bool :=
  let n := N_of_ascii c in ((n =? 32) || ((9 <=? n) && (n <=? 13)))%N.

Definition digit_of (c : ascii) : option Z :=
  let n := Z.of_N (N_of_ascii c) in
  if (48 <=? n) && (n <=? 57) then Some (n - 48) else None.

Fixpoint skip_spaces (s : string) : string :=
  match s with
  | String c rest => if isspace c then skip_spaces rest else s
  | EmptyString => s
  end.

(** The longest run of decimal digits at the head of [s], accumulated from
    [acc]; the flag tells whether a digit was seen. *)
Fixpoint read_digits (s : string) (acc : Z) (seen : bool) : Z * bool :=
  match s with
  | String c rest =>
      match digit_of c with
      | Some d => read_digits rest (10 * acc + d) true
      | None => (acc, seen)
      end
  | EmptyString => (acc, seen)
  end.

Definition INT_MIN : Z := - 2 ^ 31.
Definition INT_MAX : Z := 2 ^ 31 - 1.

(** [std::stoi(str)]: a value, or one of its two exceptions. *)
Inductive stoi_result : Set :=
  | StoiValue (v : Z)
  | StoiInvalidArgument
  | StoiOutOfRange.

Definition stoi (str : string) : stoi_result :=
  let s := skip_spaces str in
  let '(negative, body) :=
    match s with
    | String "-"%char rest => (true, rest)
    | String "+"%char rest => (false, rest)
    | _ => (false, s)
    end in
  let '(magnitude, seen) := read_digits body 0 false in
  if negb seen then StoiInvalidArgument
  else
    let v := if negative then - magnitude else magnitude in
    if (v <? INT_MIN) || (INT_MAX <? v) then StoiOutOfRange else StoiValue v.

(** The conversion of an [int] (or a small [size_t]) to [double]: exact. *)
Definition int_to_double (v : Z) : float :=
  if v <? 0 then (- PrimFloat.of_uint63 (Uint63.of_Z (- v)))%float
  else PrimFloat.of_uint63 (Uint63.of_Z v).

(* ===================================================================== *)
(** * The environment                                                     *)
(* ===================================================================== *)

(** How a call ends: it returns a value, or an exception leaves it
    ([what] is the text of [e.what()]). Every exception of the program
    derives from [std::exception]. *)
Inductive result (A : Type) : Type :=
  | Returned (a : A)
  | Raised (what : string).
Arguments Returned {A} a.
Arguments Raised {A} what.

(** The end of a stream operation that may raise a [std::exception]. *)
Inductive outcome (W : Type) : Type :=
  | Done (ok : bool) (w : W)
  | Threw (what : string) (w : W).
Arguments Done {W} ok w.
Arguments Threw {W} what w.

(** What the controller sees of the machine. Reading is a function of the
    environment's state; writing, syncing, waiting and the delivery of a
    signal move it on, in whatever way the hardware decides. *)
Record Env : Type := {
  World : Type;
  (** [std::filesystem::exists(path)]: it raises [filesystem_error] when
      the status of the path cannot be determined (any error of [stat]
      other than the path or one of its directories not existing) *)
  fs_exists : World -> string -> result bool;
  (** [std::ifstream f(path)]: [None] when [!f.is_open()], else the bytes
      the stream will deliver *)
  ifstream_open : World -> string -> option string;
  (** [std::ofstream f(path)]: [Done true] when [f.is_open()] *)
  ofstream_open : World -> string -> outcome World;
  (** [f << value; f.flush(); f.close()]: [Done ok] with the stream's final
      state, which the controller does not look at *)
  ofstream_put : World -> string -> Z -> outcome World;
  (** [open(path, O_WRONLY)]: whether [fd >= 0] *)
  posix_open : World -> string -> bool * World;
  (** [fsync(fd); close(fd)]: whether [fsync] returned 0 *)
  posix_fsync : World -> string -> bool * World;
  (** [usleep(usec)] and [sleep(seconds)] *)
  usleep : World -> Z -> World;
  sleep : World -> Z -> World;
  (** a termination signal handled since the last look, with its number *)
  take_signal : World -> option Z * World
}.

(** The text the controller prints, by call site. *)
Inductive Message : Type :=
  | MsgFanFileMissing (path : string)
  | MsgNoSensorPaths
  | MsgThresholdsNotAscending
  | MsgInitialized (speed : FanSpeed) (config : FanControllerConfig)
  | MsgTransition (temp : float) (old_speed target_speed : FanSpeed)
  | MsgSnapshot (temp : float) (speed : FanSpeed)
  | MsgSkipCycle
  | MsgSensorMissing (path : string)
  | MsgSensorOpenFailed (path : string)
  | MsgSensorEmpty (path : string)
  | MsgNegativeTemp (path : string) (millicelsius : Z)
  | MsgUnreasonableTemp (path : string) (celsius : float)
  | MsgInvalidTemp (path : string) (what : stoi_result)
  | MsgAllSensorsFailed
  | MsgSensorsUsed (used failed : nat)
  | MsgInvalidLevel (value : Z)
  | MsgFanOpenFailed (path : string)
  | MsgSetFailed (what : string) (path : string)
  | MsgFanReadFailed
  | MsgFanFileEmpty
  | MsgInvalidHardwareSpeed (value : Z)
  | MsgInvalidFanValue (what : stoi_result)
  | MsgVerifyFailed (wrote read : Z)
  | MsgSignal (number : Z).

Inductive Stream : Set := Stdout | Stderr.

(* ===================================================================== *)
(** * The controller                                                      *)
(* ===================================================================== *)

Section Controller.
Variable E : Env.
Variable config_ : FanControllerConfig.

(** The members of [FanController] that change ([current_fan_speed_],
    [running_]), the environment, and what has been printed so far. *)
Record State : Type := {
  current_fan_speed_ : FanSpeed;
  running_ : bool;
  world : World E;
  output : list (Stream * Message)
}.

(** The constructor's member initialisers. *)
Definition construct (w : World E) : State :=
  {| current_fan_speed_ := OFF; running_ := false; world := w; output := [] |}.

(** A member function: it returns or raises, and leaves a state either
    way. *)
Definition M (A : Type) : Type := State -> result A * State.

Definition ret {A : Type} (a : A) : M A := fun s => (Returned a, s).
Definition bind {A B : Type} (c : M A) (k : A -> M B) : M B :=
  fun s =>
    match c s with
    | (Returned a, s') => k a s'
    | (Raised what, s') => (Raised what, s')
    end.

(** [try { body } catch (const std::exception& e) { handler(e.what()) }]. *)
Definition try_catch {A : Type} (body : M A) (handler : string -> M A) : M A :=
  fun s =>
    match body s with
    | (Returned a, s') => (Returned a, s')
    | (Raised what, s') => handler what s'
    end.

Notation "x <- c ;; k" := (bind c (fun x => k))
  (at level 100, c at next level, right associativity).
Notation "c ;;; k" := (bind c (fun _ => k))
  (at level 100, right associativity).

Definition load_speed : M FanSpeed := fun s => (Returned (current_fan_speed_ s), s).
Definition store_speed (v : FanSpeed) : M unit := fun s =>
  (Returned tt, {| current_fan_speed_ := v; running_ := running_ s;
                   world := world s; output := output s |}).
Definition store_running (b : bool) : M unit := fun s =>
  (Returned tt, {| current_fan_speed_ := current_fan_speed_ s; running_ := b;
                   world := world s; output := output s |}).
Definition load_running : M bool := fun s => (Returned (running_ s), s).
Definition print (st : Stream) (m : Message) : M unit := fun s =>
  (Returned tt,
   {| current_fan_speed_ := current_fan_speed_ s; running_ := running_ s;
      world := world s; output := output s ++ [(st, m)] |}).
Definition observe {A : Type} (f : World E -> A) : M A :=
  fun s => (Returned (f (world s)), s).
Definition act {A : Type} (f : World E -> A * World E) : M A := fun s =>
  let '(a, w) := f (world s) in
  (Returned a,
   {| current_fan_speed_ := current_fan_speed_ s; running_ := running_ s;
      world := w; output := output s |}).
(** A call of the environment that may raise. *)
Definition call {A : Type} (f : World E -> result A) : M A :=
  fun s => (f (world s), s).
(** An operation on an output stream: the environment moves on, and the
    operation tells the state of the stream or raises. *)
Definition stream (f : World E -> outcome (World E)) : M bool := fun s =>
  match f (world s) with
  | Done ok w =>
      (Returned ok,
       {| current_fan_speed_ := current_fan_speed_ s; running_ := running_ s;
          world := w; output := output s |})
  | Threw what w =>
      (Raised what,
       {| current_fan_speed_ := current_fan_speed_ s; running_ := running_ s;
          world := w; output := output s |})
  end.

(** [FanController::logMessage] and [FanController::logDebug]; [cerr] is a
    direct [std::cerr << ... << std::endl]. *)
Definition logMessage (m : Message) : M unit := print Stdout m.
Definition logDebug (m : Message) : M unit :=
  if debug config_ then print Stderr m else ret tt.
Definition cerr (m : Message) : M unit := print Stderr m.

(** [FanController::readTemperatureSensor]. The call of [fs::exists]
    stands before the [try] block, which holds [std::stoi] alone among the
    calls that raise. *)
Definition readTemperatureSensor (temp_path : string) : M float :=
  present <- call (fun w => fs_exists E w temp_path) ;;
  if negb present then
    (if debug config_ then logDebug (MsgSensorMissing temp_path) else ret tt) ;;;
    ret nan
  else
    temp_file <- observe (fun w => ifstream_open E w temp_path) ;;
    match temp_file with
    | None =>
        (if debug config_ then logDebug (MsgSensorOpenFailed temp_path) else ret tt) ;;;
        ret nan
    | Some content =>
        match getline content with
        | None =>
            (if debug config_ then logDebug (MsgSensorEmpty temp_path) else ret tt) ;;;
            ret nan
        | Some temp_str =>
            match stoi temp_str with
            | StoiValue temp_millicelsius =>
                if temp_millicelsius <? 0 then
                  (if debug config_
                   then logDebug (MsgNegativeTemp temp_path temp_millicelsius)
                   else ret tt) ;;;
                  ret nan
                else
                  let temp_celsius := (int_to_double temp_millicelsius / 1000)%float in
                  if ((temp_celsius <? -50) || (150 <? temp_celsius))%float then
                    cerr (MsgUnreasonableTemp temp_path temp_celsius) ;;;
                    ret nan
                  else ret temp_celsius
            | e =>
                cerr (MsgInvalidTemp temp_path e) ;;;
                ret nan
            end
        end
    end.

(** The first half of [FanController::getAverageTemperature]: the two
    slots are read in turn into [temps] and [failed_sensors]. *)
Definition read_slot (path : string) (acc : list float * list string)
    : M (list float * list string) :=
  let '(temps, failed_sensors) := acc in
  if negb (String.eqb path "") then
    temp <- readTemperatureSensor path ;;
    if negb (is_nan temp) then ret (temps ++ [temp], failed_sensors)
    else ret (temps, failed_sensors ++ [path])
  else ret acc.

Definition collect_sensors : M (list float * list string) :=
  acc <- read_slot (temp_hwmon0_path config_) ([], []) ;;
  read_slot (temp_hwmon1_path config_) acc.

(** [sum / temps.size()] with [sum] accumulated from [0.0]. *)
Definition average (temps : list float) : float :=
  (fold_left PrimFloat.add temps 0 / int_to_double (Z.of_nat (length temps)))%float.

(** [FanController::getAverageTemperature]. *)
Definition getAverageTemperature : M float :=
  slots <- collect_sensors ;;
  let '(temps, failed_sensors) := slots in
  match temps with
  | [] => cerr MsgAllSensorsFailed ;;; ret nan
  | _ =>
      (match failed_sensors with
       | [] => ret tt
       | _ => logDebug (MsgSensorsUsed (length temps) (length failed_sensors))
       end) ;;;
      ret (average temps)
  end.

(** [FanController::readFanSpeed]. *)
Definition readFanSpeed : M FanSpeed :=
  present <- call (fun w => fs_exists E w (fan_path config_)) ;;
  if negb present then
    cerr (MsgFanFileMissing (fan_path config_)) ;;; ret OFF
  else
    fan_file <- observe (fun w => ifstream_open E w (fan_path config_)) ;;
    match fan_file with
    | None => cerr MsgFanReadFailed ;;; ret OFF
    | Some content =>
        match getline content with
        | None => cerr MsgFanFileEmpty ;;; ret OFF
        | Some speed_str =>
            match stoi speed_str with
            | StoiValue speed_value =>
                match speed_of_value speed_value with
                | Some speed => ret speed
                | None => cerr (MsgInvalidHardwareSpeed speed_value) ;;; ret OFF
                end
            | e => cerr (MsgInvalidFanValue e) ;;; ret OFF
            end
        end
    end.

(** [FanController::verifyFanSpeedWrite]. *)
Definition verifyFanSpeedWrite (expected_speed : FanSpeed) : M bool :=
  actual_speed <- readFanSpeed ;;
  if negb (FanSpeed_eqb actual_speed expected_speed) then
    cerr (MsgVerifyFailed (speed_value expected_speed) (speed_value actual_speed)) ;;;
    ret false
  else ret true.

(** [FanController::setFanSpeed]. The second [fs::exists] stands before
    the [try] block; the block reaches from the opening of the stream to
    the store, so that it also holds the [fs::exists] of the
    [readFanSpeed] that verifies the write. *)
Definition setFanSpeed (speed : FanSpeed) : M bool :=
  current <- load_speed ;;
  if FanSpeed_eqb speed current then ret true
  else
    let speed_value := speed_value speed in
    if (speed_value <? 0) || (4 <? speed_value) then
      cerr (MsgInvalidLevel speed_value) ;;; ret false
    else
      present <- call (fun w => fs_exists E w (fan_path config_)) ;;
      if negb present then
        cerr (MsgFanFileMissing (fan_path config_)) ;;; ret false
      else
        try_catch
          (is_open <- stream (fun w => ofstream_open E w (fan_path config_)) ;;
           if negb is_open then
             cerr (MsgFanOpenFailed (fan_path config_)) ;;; ret false
           else
             stream (fun w => ofstream_put E w (fan_path config_) speed_value) ;;;
             fd <- act (fun w => posix_open E w (fan_path config_)) ;;
             (if fd
              then act (fun w => posix_fsync E w (fan_path config_)) ;;; ret tt
              else ret tt) ;;;
             act (fun w => (tt, usleep E w 100000)) ;;;
             verified <- verifyFanSpeedWrite speed ;;
             if negb verified then ret false
             else store_speed speed ;;; ret true)
          (fun what =>
             cerr (MsgSetFailed what (fan_path config_)) ;;; ret false).

(** [FanController::stop], and [signalHandler] of [main.cpp] (the global
    pointer is set before the handlers are installed). *)
Definition stop : M unit := store_running false.

Definition signalHandler (signal : Z) : M unit :=
  cerr (MsgSignal signal) ;;; stop.

(** The handler runs when the environment delivers a signal. *)
Definition deliver_signals : M unit :=
  sig <- act (take_signal E) ;;
  match sig with
  | Some signal => signalHandler signal
  | None => ret tt
  end.

(** The body of the [while] loop of [FanController::run]. *)
Definition run_body : M unit :=
  temp_average <- getAverageTemperature ;;
  if is_nan temp_average then
    logDebug MsgSkipCycle ;;;
    act (fun w => (tt, sleep E w (interval_seconds config_)))
  else
    let target_speed := determineTargetSpeed config_ temp_average in
    current <- load_speed ;;
    (if checkHysteresis config_ current temp_average target_speed then
       current <- load_speed ;;
       if negb (FanSpeed_eqb target_speed current) then
         old_speed <- load_speed ;;
         written <- setFanSpeed target_speed ;;
         if written then logMessage (MsgTransition temp_average old_speed target_speed)
         else
           hw <- readFanSpeed ;;
           store_speed hw
       else ret tt
     else if debug config_ then
       current <- load_speed ;;
       logDebug (MsgSnapshot temp_average current)
     else ret tt) ;;;
    act (fun w => (tt, sleep E w (interval_seconds config_))).

(** The loop of [FanController::run], for at most [fuel] evaluations of
    its condition. The handler of a signal that arrived since the last
    evaluation runs before the condition is read (the body never reads
    [running_]). Neither [run] nor [main] has a [catch]: an exception
    raised in the body leaves the loop and [run]. The result counts the
    bodies entered and tells how [run] ended: [None] while it is still
    in the loop when the fuel is used up. *)
Fixpoint run_loop (fuel : nat) (s : State) : nat * option (result unit) * State :=
  match fuel with
  | O => (O, None, s)
  | S fuel' =>
      let s1 := snd (deliver_signals s) in
      if running_ s1 then
        match run_body s1 with
        | (Returned _, s2) =>
            let '(n, ended, s') := run_loop fuel' s2 in (S n, ended, s')
        | (Raised what, s2) => (1%nat, Some (Raised what), s2)
        end
      else (O, Some (Returned tt), s1)
  end.

(** [FanController::run]. *)
Definition run (fuel : nat) (s : State) : nat * option (result unit) * State :=
  run_loop fuel (snd (store_running true s)).

(** [FanController::initialize]. *)
Definition initialize : M bool :=
  present <- call (fun w => fs_exists E w (fan_path config_)) ;;
  if negb present then
    cerr (MsgFanFileMissing (fan_path config_)) ;;; ret false
  else if String.eqb (temp_hwmon0_path config_) "" &&
          String.eqb (temp_hwmon1_path config_) "" then
    cerr MsgNoSensorPaths ;;; ret false
  else
    hw <- readFanSpeed ;;
    store_speed hw ;;;
    if ((low_threshold config_ <=? off_threshold config_) ||
        (medium_threshold config_ <=? low_threshold config_) ||
        (high_threshold config_ <=? medium_threshold config_) ||
        (full_threshold config_ <=? high_threshold config_))%float then
      cerr MsgThresholdsNotAscending ;;; ret false
    else
      current <- load_speed ;;
      logMessage (MsgInitialized current config_) ;;; ret true.
End Controller.

Arguments current_fan_speed_ {E} _.
Arguments running_ {E} _.
Arguments world {E} _.
Arguments output {E} _.

(* ===================================================================== *)
(** * Vocabulary of the properties                                        *)
(* ===================================================================== *)

Section Vocabulary.
Variable E : Env.
Variable config_ : FanControllerConfig.

(** The state after some text has been printed. *)
Definition emit (l : list (Stream * Message)) (s : State E) : State E :=
  {| current_fan_speed_ := current_fan_speed_ s; running_ := running_ s;
     world := world s; output := output s ++ l |}.

Definition with_world (w : World E) (s : State E) : State E :=
  {| current_fan_speed_ := current_fan_speed_ s; running_ := running_ s;
     world := w; output := output s |}.

(** The ways in which the read of a sensor fails. *)
Inductive SensorFailure : Type :=
  | PathMissing
  | NotReadable
  | EmptyFile
  | Unparsable (what : stoi_result)
  | NegativeValue (millicelsius : Z)
  | OutOfRange (celsius : float).

(** The failures that are printed whatever the debug flag. *)
Definition always_reported (f : SensorFailure) : bool :=
  match f with
  | Unparsable _ | OutOfRange _ => true
  | _ => false
  end.

Definition failure_message (path : string) (f : SensorFailure) : Message :=
  match f with
  | PathMissing => MsgSensorMissing path
  | NotReadable => MsgSensorOpenFailed path
  | EmptyFile => MsgSensorEmpty path
  | Unparsable what => MsgInvalidTemp path what
  | NegativeValue z => MsgNegativeTemp path z
  | OutOfRange t => MsgUnreasonableTemp path t
  end.

(** What a sensor file holds: a temperature, or the reason why not. *)
Definition file_reading (w : World E) (path : string) : float + SensorFailure :=
  match ifstream_open E w path with
  | None => inr NotReadable
  | Some content =>
      match getline content with
      | None => inr EmptyFile
      | Some text =>
          match stoi text with
          | StoiValue z =>
              if z <? 0 then inr (NegativeValue z)
              else
                let t := (int_to_double z / 1000)%float in
                if ((t <? -50) || (150 <? t))%float then inr (OutOfRange t)
                else inl t
          | what => inr (Unparsable what)
          end
      end
  end.

(** The same behind [fs::exists]: nothing of it when that raises. *)
Definition sensor_reading (w : World E) (path : string)
    : result (float + SensorFailure) :=
  match fs_exists E w path with
  | Raised what => Raised what
  | Returned true => Returned (file_reading w path)
  | Returned false => Returned (inr PathMissing)
  end.

(** The slots with a path, what the read of each gives in state [s], in
    order and up to the first read that raises, and the mean as the source
    computes it. *)
Definition configured_slots : list string :=
  List.filter (fun path => negb (String.eqb path ""))
         [temp_hwmon0_path config_; temp_hwmon1_path config_].

Definition slot_value (s : State E) (path : string) : result float :=
  fst (readTemperatureSensor E config_ path s).

Fixpoint slot_values_of (s : State E) (paths : list string)
    : result (list (string * float)) :=
  match paths with
  | [] => Returned []
  | path :: rest =>
      match slot_value s path with
      | Raised what => Raised what
      | Returned t =>
          match slot_values_of s rest with
          | Raised what => Raised what
          | Returned more => Returned ((path, t) :: more)
          end
      end
  end.

Definition slot_values (s : State E) : result (list (string * float)) :=
  slot_values_of s configured_slots.

(** What the reads of the slots print, up to the first that raises. *)
Definition slot_report (s : State E) (path : string) : list (Stream * Message) :=
  match sensor_reading (world s) path with
  | Returned (inr f) =>
      if always_reported f || debug config_
      then [(Stderr, failure_message path f)] else []
  | _ => []
  end.

Fixpoint slots_report_of (s : State E) (paths : list string)
    : list (Stream * Message) :=
  match paths with
  | [] => []
  | path :: rest =>
      slot_report s path ++
      match slot_value s path with
      | Raised _ => []
      | Returned _ => slots_report_of s rest
      end
  end.

Definition slots_report (s : State E) : list (Stream * Message) :=
  slots_report_of s configured_slots.

Definition valid_readings (values : list (string * float)) : list float :=
  List.filter (fun t => negb (is_nan t)) (List.map snd values).

Definition failed_slots (values : list (string * float)) : list string :=
  List.map fst (List.filter (fun v => is_nan (snd v)) values).

Definition mean (l : list float) : float :=
  (fold_left PrimFloat.add l 0 / int_to_double (Z.of_nat (length l)))%float.

(** The last line of [getAverageTemperature]: the outage, or the count
    of the sensors used and failed. *)
Definition summary (values : list (string * float)) : list (Stream * Message) :=
  match valid_readings values, failed_slots values with
  | [], _ => [(Stderr, MsgAllSensorsFailed)]
  | _ :: _, [] => []
  | temps, failed =>
      if debug config_
      then [(Stderr, MsgSensorsUsed (length temps) (length failed))] else []
  end.

(** The environment once [setFanSpeed] has written: the sync, when the
    descriptor could be opened, and the settle delay. *)
Definition settled (w : World E) : World E :=
  let '(fd, w1) := posix_open E w (fan_path config_) in
  let w2 := if fd then snd (posix_fsync E w1 (fan_path config_)) else w1 in
  usleep E w2 100000.

(** The level the fan file shows in world [w]. *)
Definition hardware_speed (s : State E) (w : World E) : result FanSpeed :=
  fst (readFanSpeed E config_ (with_world w s)).

(** The write went through to the verification and the file then showed
    the requested level. *)
Definition write_verified (speed : FanSpeed) (s : State E) : Prop :=
  fs_exists E (world s) (fan_path config_) = Returned true /\
  exists (w1 : World E) (ok : bool) (w2 : World E),
    ofstream_open E (world s) (fan_path config_) = Done true w1 /\
    ofstream_put E w1 (fan_path config_) (speed_value speed) = Done ok w2 /\
    hardware_speed s (settled w2) = Returned speed.

(** The state right after [running_ = true] at the entry of [run]; the
    state at the [n]-th evaluation of the loop condition, when no earlier
    one left the loop and every body before it returned; and the signal
    handled just before that evaluation. *)
Definition entered (s : State E) : State E := snd (store_running E true s).

Fixpoint at_condition (n : nat) (s : State E) : option (State E) :=
  match n with
  | O => Some s
  | S n' =>
      match run_body E config_ (snd (deliver_signals E s)) with
      | (Returned _, s') => at_condition n' s'
      | (Raised _, _) => None
      end
  end.

Definition signal_before (n : nat) (s : State E) : option Z :=
  match at_condition n s with
  | Some st => fst (take_signal E (world st))
  | None => None
  end.

(** The speed the loop body asks for at an average temperature. *)
Definition requested_speed (current : FanSpeed) (temperature : float) : FanSpeed :=
  let target := determineTargetSpeed config_ temperature in
  if checkHysteresis config_ current temperature target then target else current.
End Vocabulary.

Arguments emit {E} l s.
Arguments with_world {E} w s.

(* ===================================================================== *)
(** * A simulated machine                                                 *)
(* ===================================================================== *)

(** A concrete environment on which the controller can be run: a tree of
    sysfs attribute files, a cooling device that may be held at a level by
    another agent (so that it reads back something else than was written),
    writes and syncs that may fail, and a schedule of signals. *)
Module Sim.

Record SimFile : Set := {
  readable : bool;
  writable : bool;
  content : string
}.

Record SimWorld : Type := {
  files : gmap string SimFile;
  held_at : option Z;
  put_fails : bool;
  fsync_fails : bool;
  signals : list (option Z)
}.

Definition decimal (v : Z) : string :=
  DecimalString.NilZero.string_of_int (Z.to_int v).

Definition present (w : SimWorld) (path : string) : bool :=
  match files w !! path with Some _ => true | None => false end.

(** The length from which on [stat] fails with [ENAMETOOLONG]. *)
Definition PATH_MAX : nat := 4096.

Definition name_too_long : string :=
  "filesystem error: cannot get file status: File name too long".

Definition sim_exists (w : SimWorld) (path : string) : result bool :=
  if (PATH_MAX <=? String.length path)%nat then Raised name_too_long
  else Returned (present w path).

Definition sim_ifstream (w : SimWorld) (path : string) : option string :=
  match files w !! path with
  | Some f => if readable f then Some (content f) else None
  | None => None
  end.

Definition sim_ofstream (w : SimWorld) (path : string) : outcome SimWorld :=
  match files w !! path with
  | Some f => Done (writable f) w
  | None => Done false w
  end.

Definition sim_put (w : SimWorld) (path : string) (v : Z) : outcome SimWorld :=
  if put_fails w then Done false w
  else
    let level := match held_at w with Some l => l | None => v end in
    Done true
      {| files := alter (fun f => {| readable := readable f; writable := writable f;
                                     content := decimal level ++ String "010" "" |})
                        path (files w);
         held_at := held_at w; put_fails := put_fails w;
         fsync_fails := fsync_fails w; signals := signals w |}.

Definition sim_signal (w : SimWorld) : option Z * SimWorld :=
  match signals w with
  | [] => (None, w)
  | sig :: rest =>
      (sig, {| files := files w; held_at := held_at w; put_fails := put_fails w;
               fsync_fails := fsync_fails w; signals := rest |})
  end.

Definition env : Env := {|
  World := SimWorld;
  fs_exists := sim_exists;
  ifstream_open := sim_ifstream;
  ofstream_open := sim_ofstream;
  ofstream_put := sim_put;
  posix_open := fun w path => (present w path, w);
  posix_fsync := fun w _ => (negb (fsync_fails w), w);
  usleep := fun w _ => w;
  sleep := fun w _ => w;
  take_signal := sim_signal
|}.

Definition attribute (text : string) : SimFile :=
  {| readable := true; writable := true; content := text ++ String "010" "" |}.

Definition fan : string := "/sys/class/thermal/cooling_device0/cur_state".
Definition cpu : string := "/sys/class/hwmon/hwmon0/temp1_input".
Definition adc : string := "/sys/class/hwmon/hwmon1/temp1_input".

(** The default configuration with the CPU sensor found. *)
Definition config : FanControllerConfig := {|
  fan_path := fan;
  hwmon0_name := "cpu_thermal";
  hwmon1_name := "rp1_adc";
  temp_hwmon0_path := cpu;
  temp_hwmon1_path := "";
  hysteresis := 2%float;
  off_threshold := 53%float;
  low_threshold := 54%float;
  medium_threshold := 59%float;
  high_threshold := 64%float;
  full_threshold := 70%float;
  interval_seconds := 15;
  debug := false
|}.

(** A machine whose fan file holds [level] and whose CPU sensor holds
    [millicelsius]. *)
Definition machine (level millicelsius : string) : SimWorld := {|
  files := <[fan := attribute level]> (<[cpu := attribute millicelsius]> ∅);
  held_at := None; put_fails := false; fsync_fails := false; signals := []
|}.

Definition with_held (l : Z) (w : SimWorld) : SimWorld :=
  {| files := files w; held_at := Some l; put_fails := put_fails w;
     fsync_fails := fsync_fails w; signals := signals w |}.
Definition without (path : string) (w : SimWorld) : SimWorld :=
  {| files := delete path (files w); held_at := held_at w; put_fails := put_fails w;
     fsync_fails := fsync_fails w; signals := signals w |}.
Definition with_signals (l : list (option Z)) (w : SimWorld) : SimWorld :=
  {| files := files w; held_at := held_at w; put_fails := put_fails w;
     fsync_fails := fsync_fails w; signals := l |}.

(** The controller in state [speed], running, over world [w]. *)
Definition at_speed (speed : FanSpeed) (w : SimWorld) : State env :=
  Build_State env speed true w [].

End Sim.

(* ===================================================================== *)
(** * Vocabulary of the further properties                                *)
(* ===================================================================== *)

Section FanVocabulary.
Variable E : Env.
Variable config_ : FanControllerConfig.

(** What the fan file holds: a level, or the diagnostic that
    [readFanSpeed] prints when it falls back to OFF. *)
Definition fan_file_reading (w : World E) : FanSpeed + Message :=
  match ifstream_open E w (fan_path config_) with
  | None => inr MsgFanReadFailed
  | Some content =>
      match getline content with
      | None => inr MsgFanFileEmpty
      | Some text =>
          match stoi text with
          | StoiValue v =>
              match speed_of_value v with
              | Some level => inl level
              | None => inr (MsgInvalidHardwareSpeed v)
              end
          | what => inr (MsgInvalidFanValue what)
          end
      end
  end.

(** The same behind [fs::exists]: nothing of it when that raises. *)
Definition fan_reading (w : World E) : result (FanSpeed + Message) :=
  match fs_exists E w (fan_path config_) with
  | Raised what => Raised what
  | Returned true => Returned (fan_file_reading w)
  | Returned false => Returned (inr (MsgFanFileMissing (fan_path config_)))
  end.

(** Whether a call returned [true]. *)
Definition returned_true (r : result bool) : bool :=
  match r with
  | Returned true => true
  | _ => false
  end.

Definition with_speed (v : FanSpeed) (s : State E) : State E :=
  {| current_fan_speed_ := v; running_ := running_ s;
     world := world s; output := output s |}.

(** The four comparisons of the ordering test of [initialize]. *)
Definition ordering_rejected : bool :=
  ((low_threshold config_ <=? off_threshold config_) ||
   (medium_threshold config_ <=? low_threshold config_) ||
   (high_threshold config_ <=? medium_threshold config_) ||
   (full_threshold config_ <=? high_threshold config_))%float.

Definition table_without_nan : Prop :=
  is_nan (off_threshold config_) = false /\
  is_nan (low_threshold config_) = false /\
  is_nan (medium_threshold config_) = false /\
  is_nan (high_threshold config_) = false /\
  is_nan (full_threshold config_) = false.

Definition sensor_configured : bool :=
  negb (String.eqb (temp_hwmon0_path config_) "" &&
        String.eqb (temp_hwmon1_path config_) "").
End FanVocabulary.

Arguments with_speed {E} v s.

(** The lines printed on stdout, in order. *)
Definition stdout_lines (l : list (Stream * Message)) : list Message :=
  List.map snd (List.filter (fun x => match fst x with Stdout => true | Stderr => false end) l).

(** [s'] is [s] with more lines on stderr, and nothing else changed. *)
Definition stderr_only {E : Env} (s s' : State E) : Prop :=
  exists l, s' = emit l s /\ stdout_lines l = [].

(** The state after the [sleep] that ends an iteration. *)
Definition slept (E : Env) (config_ : FanControllerConfig) (s : State E) : State E :=
  with_world (sleep E (world s) (interval_seconds config_)) s.

(** A fan file that can be written but not read. *)
Definition write_only_fan : Sim.SimWorld :=
  {| Sim.files :=
       <[Sim.fan := {| Sim.readable := false; Sim.writable := true;
                       Sim.content := "1" |}]>
         (Sim.files (Sim.machine "1" "40000"));
     Sim.held_at := None; Sim.put_fails := false;
     Sim.fsync_fails := false; Sim.signals := [] |}.

(** The configuration with another [off_threshold]. *)
Definition with_off_threshold (x : float) (c : FanControllerConfig)
    : FanControllerConfig :=
  {| fan_path := fan_path c; hwmon0_name := hwmon0_name c;
     hwmon1_name := hwmon1_name c; temp_hwmon0_path := temp_hwmon0_path c;
     temp_hwmon1_path := temp_hwmon1_path c; hysteresis := hysteresis c;
     off_threshold := x; low_threshold := low_threshold c;
     medium_threshold := medium_threshold c; high_threshold := high_threshold c;
     full_threshold := full_threshold c; interval_seconds := interval_seconds c;
     debug := debug c |}.

(** The configuration with another [hysteresis]. *)
Definition with_hysteresis (x : float) (c : FanControllerConfig)
    : FanControllerConfig :=
  {| fan_path := fan_path c; hwmon0_name := hwmon0_name c;
     hwmon1_name := hwmon1_name c; temp_hwmon0_path := temp_hwmon0_path c;
     temp_hwmon1_path := temp_hwmon1_path c; hysteresis := x;
     off_threshold := off_threshold c; low_threshold := low_threshold c;
     medium_threshold := medium_threshold c; high_threshold := high_threshold c;
     full_threshold := full_threshold c; interval_seconds := interval_seconds c;
     debug := debug c |}.

(** The configuration with another [low_threshold]. *)
Definition with_low_threshold (x : float) (c : FanControllerConfig)
    : FanControllerConfig :=
  {| fan_path := fan_path c; hwmon0_name := hwmon0_name c;
     hwmon1_name := hwmon1_name c; temp_hwmon0_path := temp_hwmon0_path c;
     temp_hwmon1_path := temp_hwmon1_path c; hysteresis := hysteresis c;
     off_threshold := off_threshold c; low_threshold := x;
     medium_threshold := medium_threshold c; high_threshold := high_threshold c;
     full_threshold := full_threshold c; interval_seconds := interval_seconds c;
     debug := debug c |}.

(** Zero, a positive finite value or plus infinity. *)
Definition nonnegative_sf (x : spec_float) : bool :=
  match x with
  | S754_zero _ | S754_finite false _ _ | S754_infinity false => true
  | _ => false
  end.
(* ===================================================================== *)
(** * The configuration parser (config_parser.cpp)                        *)
(* ===================================================================== *)

(** The members of [std::string] the parser uses. A position is a [nat];
    [std::string::npos] is [None]. *)
Fixpoint char_in (c : ascii) (chars : string) : bool :=
  match chars with
  | EmptyString => false
  | String d rest => Ascii.eqb c d || char_in c rest
  end.

Fixpoint find_first_not_of (str chars : string) : option nat :=
  match str with
  | EmptyString => None
  | String c rest =>
      if char_in c chars then option_map S (find_first_not_of rest chars)
      else Some O
  end.

Fixpoint find_last_not_of (str chars : string) : option nat :=
  match str with
  | EmptyString => None
  | String c rest =>
      match find_last_not_of rest chars with
      | Some i => Some (S i)
      | None => if char_in c chars then None else Some O
      end
  end.

(** [str.find(c)]. *)
Fixpoint find (str : string) (c : ascii) : option nat :=
  match str with
  | EmptyString => None
  | String d rest =>
      if Ascii.eqb d c then Some O else option_map S (find rest c)
  end.

(** [str.substr(pos, count)] for [pos <= str.size()]; a [count] that
    reaches past the end, and the default [npos], give the rest of the
    string. *)
Definition substr (str : string) (pos : nat) (count : option nat) : string :=
  let rest := (String.length str - pos)%nat in
  String.substring pos
    (match count with Some n => Nat.min n rest | None => rest end) str.

Definition empty (str : string) : bool :=
  match str with EmptyString => true | String _ _ => false end.

(** The text that follows the first newline: what is left of a stream
    after one [std::getline]. *)
Fixpoint after_newline (s : string) : string :=
  match s with
  | EmptyString => EmptyString
  | String c rest =>
      if Ascii.eqb c "010"%char then rest else after_newline rest
  end.

(** The lines that [while (std::getline(file, line))] goes through. *)
Fixpoint getlines (content : string) : list string :=
  match content with
  | EmptyString => []
  | String c rest =>
      if Ascii.eqb c "010"%char then EmptyString :: getlines rest
      else
        match getlines rest with
        | [] => [String c EmptyString]
        | line :: more => String c line :: more
        end
  end.

(** [::tolower] in the "C" locale, and [std::transform] with it. *)
Definition tolower (c : ascii) : ascii :=
  let n := N_of_ascii c in
  if ((65 <=? n) && (n <=? 90))%N then ascii_of_N (n + 32) else c.

Fixpoint transform_tolower (s : string) : string :=
  match s with
  | EmptyString => EmptyString
  | String c rest => String (tolower c) (transform_tolower rest)
  end.

(** One entry of a directory: [entry.path().filename()] and
    [entry.is_directory()]. *)
Record directory_entry : Set := {
  filename : string;
  is_directory : result bool
}.

(** What an iteration over a directory delivers: the entries, in order,
    and the exception that ends the iteration where one does (raised by
    the constructor of [fs::directory_iterator] when there is no entry
    before it, by an increment otherwise). *)
Record listing : Set := {
  entries : list directory_entry;
  failure : option string
}.

(** [operator/] of [fs::path] on a relative right-hand side. *)
Definition path_append (p q : string) : string := (p ++ "/" ++ q)%string.

(** The value that [std::stoi] returns, or [None] when it raises. *)
Definition stoi_value (str : string) : option Z :=
  match stoi str with
  | StoiValue v => Some v
  | StoiInvalidArgument | StoiOutOfRange => None
  end.

(** A conversion that may raise, applied to a setting that may be
    absent: [None] when it raises, [Some None] when there is no setting. *)
Definition traverse {A B : Type} (f : A -> option B) (found : option A)
    : option (option B) :=
  match found with
  | None => Some None
  | Some v => match f v with Some x => Some (Some x) | None => None end
  end.

(** The configuration with one member changed. *)
Definition with_fan_path (x : string) (c : FanControllerConfig)
    : FanControllerConfig :=
  {| fan_path := x; hwmon0_name := hwmon0_name c;
     hwmon1_name := hwmon1_name c; temp_hwmon0_path := temp_hwmon0_path c;
     temp_hwmon1_path := temp_hwmon1_path c; hysteresis := hysteresis c;
     off_threshold := off_threshold c; low_threshold := low_threshold c;
     medium_threshold := medium_threshold c; high_threshold := high_threshold c;
     full_threshold := full_threshold c; interval_seconds := interval_seconds c;
     debug := debug c |}.
Definition with_hwmon0_name (x : string) (c : FanControllerConfig)
    : FanControllerConfig :=
  {| fan_path := fan_path c; hwmon0_name := x;
     hwmon1_name := hwmon1_name c; temp_hwmon0_path := temp_hwmon0_path c;
     temp_hwmon1_path := temp_hwmon1_path c; hysteresis := hysteresis c;
     off_threshold := off_threshold c; low_threshold := low_threshold c;
     medium_threshold := medium_threshold c; high_threshold := high_threshold c;
     full_threshold := full_threshold c; interval_seconds := interval_seconds c;
     debug := debug c |}.
Definition with_hwmon1_name (x : string) (c : FanControllerConfig)
    : FanControllerConfig :=
  {| fan_path := fan_path c; hwmon0_name := hwmon0_name c;
     hwmon1_name := x; temp_hwmon0_path := temp_hwmon0_path c;
     temp_hwmon1_path := temp_hwmon1_path c; hysteresis := hysteresis c;
     off_threshold := off_threshold c; low_threshold := low_threshold c;
     medium_threshold := medium_threshold c; high_threshold := high_threshold c;
     full_threshold := full_threshold c; interval_seconds := interval_seconds c;
     debug := debug c |}.
Definition with_temp_hwmon0_path (x : string) (c : FanControllerConfig)
    : FanControllerConfig :=
  {| fan_path := fan_path c; hwmon0_name := hwmon0_name c;
     hwmon1_name := hwmon1_name c; temp_hwmon0_path := x;
     temp_hwmon1_path := temp_hwmon1_path c; hysteresis := hysteresis c;
     off_threshold := off_threshold c; low_threshold := low_threshold c;
     medium_threshold := medium_threshold c; high_threshold := high_threshold c;
     full_threshold := full_threshold c; interval_seconds := interval_seconds c;
     debug := debug c |}.
Definition with_temp_hwmon1_path (x : string) (c : FanControllerConfig)
    : FanControllerConfig :=
  {| fan_path := fan_path c; hwmon0_name := hwmon0_name c;
     hwmon1_name := hwmon1_name c; temp_hwmon0_path := temp_hwmon0_path c;
     temp_hwmon1_path := x; hysteresis := hysteresis c;
     off_threshold := off_threshold c; low_threshold := low_threshold c;
     medium_threshold := medium_threshold c; high_threshold := high_threshold c;
     full_threshold := full_threshold c; interval_seconds := interval_seconds c;
     debug := debug c |}.
Definition with_medium_threshold (x : float) (c : FanControllerConfig)
    : FanControllerConfig :=
  {| fan_path := fan_path c; hwmon0_name := hwmon0_name c;
     hwmon1_name := hwmon1_name c; temp_hwmon0_path := temp_hwmon0_path c;
     temp_hwmon1_path := temp_hwmon1_path c; hysteresis := hysteresis c;
     off_threshold := off_threshold c; low_threshold := low_threshold c;
     medium_threshold := x; high_threshold := high_threshold c;
     full_threshold := full_threshold c; interval_seconds := interval_seconds c;
     debug := debug c |}.
Definition with_high_threshold (x : float) (c : FanControllerConfig)
    : FanControllerConfig :=
  {| fan_path := fan_path c; hwmon0_name := hwmon0_name c;
     hwmon1_name := hwmon1_name c; temp_hwmon0_path := temp_hwmon0_path c;
     temp_hwmon1_path := temp_hwmon1_path c; hysteresis := hysteresis c;
     off_threshold := off_threshold c; low_threshold := low_threshold c;
     medium_threshold := medium_threshold c; high_threshold := x;
     full_threshold := full_threshold c; interval_seconds := interval_seconds c;
     debug := debug c |}.
Definition with_full_threshold (x : float) (c : FanControllerConfig)
    : FanControllerConfig :=
  {| fan_path := fan_path c; hwmon0_name := hwmon0_name c;
     hwmon1_name := hwmon1_name c; temp_hwmon0_path := temp_hwmon0_path c;
     temp_hwmon1_path := temp_hwmon1_path c; hysteresis := hysteresis c;
     off_threshold := off_threshold c; low_threshold := low_threshold c;
     medium_threshold := medium_threshold c; high_threshold := high_threshold c;
     full_threshold := x; interval_seconds := interval_seconds c;
     debug := debug c |}.
Definition with_interval_seconds (x : Z) (c : FanControllerConfig)
    : FanControllerConfig :=
  {| fan_path := fan_path c; hwmon0_name := hwmon0_name c;
     hwmon1_name := hwmon1_name c; temp_hwmon0_path := temp_hwmon0_path c;
     temp_hwmon1_path := temp_hwmon1_path c; hysteresis := hysteresis c;
     off_threshold := off_threshold c; low_threshold := low_threshold c;
     medium_threshold := medium_threshold c; high_threshold := high_threshold c;
     full_threshold := full_threshold c; interval_seconds := x;
     debug := debug c |}.
Definition with_debug (x : bool) (c : FanControllerConfig)
    : FanControllerConfig :=
  {| fan_path := fan_path c; hwmon0_name := hwmon0_name c;
     hwmon1_name := hwmon1_name c; temp_hwmon0_path := temp_hwmon0_path c;
     temp_hwmon1_path := temp_hwmon1_path c; hysteresis := hysteresis c;
     off_threshold := off_threshold c; low_threshold := low_threshold c;
     medium_threshold := medium_threshold c; high_threshold := high_threshold c;
     full_threshold := full_threshold c; interval_seconds := interval_seconds c;
     debug := x |}.

Module ConfigParser.

Notation "x <~ c ; k" :=
  (match c with Some x => k | None => None end)
  (at level 100, c at next level, right associativity, only parsing).

(** The two characters that [trim] removes: space and tab. *)
Definition blanks : string := String " " (String "009" EmptyString).

Definition trim (str : string) : string :=
  match find_first_not_of str blanks with
  | None => EmptyString
  | Some first =>
      (* [last - first + 1] is computed on [size_t]: were [last] [npos],
         the sum would wrap to a count that reaches past the end *)
      match find_last_not_of str blanks with
      | Some last => substr str first (Some (last - first + 1)%nat)
      | None => substr str first None
      end
  end.

(** The body of the loop of [parseKeyValueFile] on one line. *)
Definition parse_line (result : gmap string string) (line : string)
    : gmap string string :=
  match line with
  | EmptyString => result
  | String c _ =>
      if Ascii.eqb c "#" || Ascii.eqb c ";" then result
      else
        match find line "=" with
        | None => result
        | Some eq_pos =>
            let key := trim (substr line 0 (Some eq_pos)) in
            let value := trim (substr line (eq_pos + 1) None) in
            if negb (empty key) && negb (empty value)
            then <[key := value]> result
            else result
        end
  end.

Definition parse_content (content : string) : gmap string string :=
  fold_left parse_line (getlines content) ∅.

(** A setting that is given replaces the default; [std::stod],
    [std::stoi] and the calls of [std::filesystem] may raise, and nothing
    in the parser catches it: [None] is an exception that leaves the
    function. *)
Definition assign {A : Type} (found : option A)
    (set : A -> FanControllerConfig -> FanControllerConfig)
    (config : FanControllerConfig) : FanControllerConfig :=
  match found with Some v => set v config | None => config end.

Definition is_true (val : string) : bool :=
  String.eqb val "true" || String.eqb val "1" || String.eqb val "yes".

Definition getDefaultConfig : FanControllerConfig := default_config.

Section Parser.
Variable E : Env.
(** [fs::directory_iterator(path)], gone through to its end. *)
Variable directory_iterator : World E -> string -> listing.
(** [std::stod]: the value, or [None] when it raises. *)
Variable stod : string -> option float.
(** [std::getenv]. *)
Variable getenv : string -> option string.

Definition parseKeyValueFile (w : World E) (path : string)
    : gmap string string :=
  match ifstream_open E w path with
  | None => ∅
  | Some content => parse_content content
  end.

Definition hwmon_base_path : string := "/sys/class/hwmon".

(** The body of the loop of [findHwmonDeviceByName] on one entry: the
    path to return, or [None] to go on with the next entry; nothing
    catches what [is_directory] and [fs::exists] raise. *)
Definition examine (w : World E) (device_name : string)
    (entry : directory_entry) : result (option string) :=
  match is_directory entry with
  | Raised what => Raised what
  | Returned false => Returned None
  | Returned true =>
      if negb (String.prefix "hwmon" (filename entry)) then Returned None
      else
        let path := path_append hwmon_base_path (filename entry) in
        let name_file := path_append path "name" in
        match fs_exists E w name_file with
        | Raised what => Raised what
        | Returned false => Returned None
        | Returned true =>
            match ifstream_open E w name_file with
            | None => Returned None
            | Some content =>
                match getline content with
                | None => Returned None
                | Some name =>
                    if String.eqb (trim name) device_name then
                      let temp_input := path_append path "temp1_input" in
                      match fs_exists E w temp_input with
                      | Raised what => Raised what
                      | Returned true => Returned (Some temp_input)
                      | Returned false => Returned None
                      end
                    else Returned None
                end
            end
        end
  end.

(** The loop: the first entry for which the body returns a path; when
    the iteration ends by an exception before that, the exception. *)
Fixpoint first_found (w : World E) (device_name : string)
    (remaining : list directory_entry) (failure : option string) : result string :=
  match remaining with
  | [] =>
      match failure with
      | Some what => Raised what
      | None => Returned EmptyString
      end
  | entry :: rest =>
      match examine w device_name entry with
      | Raised what => Raised what
      | Returned (Some temp_input) => Returned temp_input
      | Returned None => first_found w device_name rest failure
      end
  end.

Definition findHwmonDeviceByName (w : World E) (device_name : string)
    : result string :=
  match fs_exists E w hwmon_base_path with
  | Raised what => Raised what
  | Returned false => Returned EmptyString
  | Returned true =>
      let found := directory_iterator w hwmon_base_path in
      first_found w device_name (entries found) (failure found)
  end.

(** The end of both parsers: the sensor paths that were not given are
    looked up; an exception of the look-up leaves the parser. *)
Definition find_device (w : World E) (device_name : string)
    (set : string -> FanControllerConfig -> FanControllerConfig)
    (config : FanControllerConfig) : option FanControllerConfig :=
  match findHwmonDeviceByName w device_name with
  | Returned temp_input => Some (set temp_input config)
  | Raised _ => None
  end.

Definition find_devices (w : World E) (config : FanControllerConfig)
    : option FanControllerConfig :=
  config <~ (if empty (temp_hwmon0_path config)
             then find_device w (hwmon0_name config) with_temp_hwmon0_path config
             else Some config) ;
  if empty (temp_hwmon1_path config)
  then find_device w (hwmon1_name config) with_temp_hwmon1_path config
  else Some config.

Definition parseConfigFile (w : World E) (config_path : string)
    : option FanControllerConfig :=
  let config := getDefaultConfig in
  let kv_map := parseKeyValueFile w config_path in
  let config := assign (kv_map !! "FAN_PATH") with_fan_path config in
  let config := assign (kv_map !! "HWMON0_NAME") with_hwmon0_name config in
  let config := assign (kv_map !! "HWMON1_NAME") with_hwmon1_name config in
  let config := assign (kv_map !! "TEMP_HWMON0_PATH") with_temp_hwmon0_path config in
  let config := assign (kv_map !! "TEMP_HWMON1_PATH") with_temp_hwmon1_path config in
  hysteresis <~ traverse stod (kv_map !! "HYSTERESIS") ;
  let config := assign hysteresis with_hysteresis config in
  off <~ traverse stod (kv_map !! "OFF_THRESHOLD") ;
  let config := assign off with_off_threshold config in
  low <~ traverse stod (kv_map !! "LOW_THRESHOLD") ;
  let config := assign low with_low_threshold config in
  medium <~ traverse stod (kv_map !! "MEDIUM_THRESHOLD") ;
  let config := assign medium with_medium_threshold config in
  high <~ traverse stod (kv_map !! "HIGH_THRESHOLD") ;
  let config := assign high with_high_threshold config in
  full <~ traverse stod (kv_map !! "FULL_THRESHOLD") ;
  let config := assign full with_full_threshold config in
  interval <~ traverse stoi_value (kv_map !! "INTERVAL_SECONDS") ;
  let config := assign interval with_interval_seconds config in
  let config :=
    assign (kv_map !! "DEBUG")
      (fun val => with_debug (is_true (transform_tolower val))) config in
  find_devices w config.

Definition parseEnvironment (w : World E) : option FanControllerConfig :=
  let config := getDefaultConfig in
  let config := assign (getenv "FAN_PATH") with_fan_path config in
  let config := assign (getenv "HWMON0_NAME") with_hwmon0_name config in
  let config := assign (getenv "HWMON1_NAME") with_hwmon1_name config in
  let config := assign (getenv "TEMP_HWMON0_PATH") with_temp_hwmon0_path config in
  let config := assign (getenv "TEMP_HWMON1_PATH") with_temp_hwmon1_path config in
  hysteresis <~ traverse stod (getenv "HYSTERESIS") ;
  let config := assign hysteresis with_hysteresis config in
  off <~ traverse stod (getenv "OFF_THRESHOLD") ;
  let config := assign off with_off_threshold config in
  low <~ traverse stod (getenv "LOW_THRESHOLD") ;
  let config := assign low with_low_threshold config in
  medium <~ traverse stod (getenv "MEDIUM_THRESHOLD") ;
  let config := assign medium with_medium_threshold config in
  high <~ traverse stod (getenv "HIGH_THRESHOLD") ;
  let config := assign high with_high_threshold config in
  full <~ traverse stod (getenv "FULL_THRESHOLD") ;
  let config := assign full with_full_threshold config in
  interval <~ traverse stoi_value (getenv "INTERVAL_SECONDS") ;
  let config := assign interval with_interval_seconds config in
  let config :=
    assign (getenv "DEBUG")
      (fun val => with_debug (is_true (transform_tolower val))) config in
  find_devices w config.
End Parser.

End ConfigParser.

(* ===================================================================== *)
(** * The program (main.cpp)                                              *)
(* ===================================================================== *)

Module Main.

Definition config_path : string :=
  "/etc/pi5-fan-controller/pi5-fan-controller.conf".

(** What the first part of [main] ends with: the usage text was asked
    for, a configuration was chosen, or an exception of the parser left
    [main]. *)
Inductive selection : Type :=
  | Help
  | Selected (config : FanControllerConfig)
  | Uncaught.

(** What [main] itself prints. *)
Inductive MainMessage : Set :=
  | MsgUsage (argv0 : string)
  | MsgFailedToInitialize.

(** How the process ends: [main] returns a status, the process is
    terminated by an exception that nothing caught, or the loop is still
    running when the fuel is used up. *)
Inductive ending : Set :=
  | Exit (status : Z)
  | Terminated
  | InLoop.

Section Process.
Variable E : Env.
Variable directory_iterator : World E -> string -> listing.
Variable stod : string -> option float.
Variable getenv : string -> option string.
(** [access(path, R_OK) == 0]. *)
Variable access_R_OK : World E -> string -> bool.

Record Process : Type := {
  end_ : ending;
  said : list (Stream * MainMessage);
  controller : option (State E)
}.

(** The loop over [argv[1..]]. *)
Fixpoint arguments (w : World E) (args : list string)
    (config : FanControllerConfig) : selection :=
  match args with
  | [] => Selected config
  | arg :: rest =>
      if String.eqb arg "--config" then
        match rest with
        | path :: rest' =>
            match ConfigParser.parseConfigFile E directory_iterator stod w path with
            | Some config' => arguments w rest' config'
            | None => Uncaught
            end
        | [] => Selected config
        end
      else if String.eqb arg "--help" || String.eqb arg "-h" then Help
      else arguments w rest config
  end.

Definition select_config (w : World E) (argv : list string) : selection :=
  match
    (if access_R_OK w config_path
     then ConfigParser.parseConfigFile E directory_iterator stod w config_path
     else ConfigParser.parseEnvironment E directory_iterator stod getenv w)
  with
  | None => Uncaught
  | Some config => arguments w (tl argv) config
  end.

Definition main (fuel : nat) (w : World E) (argv : list string) : Process :=
  match select_config w argv with
  | Uncaught => {| end_ := Terminated; said := []; controller := None |}
  | Help =>
      {| end_ := Exit 0; said := [(Stdout, MsgUsage (hd EmptyString argv))];
         controller := None |}
  | Selected config =>
      match initialize E config (construct E w) with
      | (Raised _, s) =>
          {| end_ := Terminated; said := []; controller := Some s |}
      | (Returned false, s) =>
          {| end_ := Exit 1; said := [(Stderr, MsgFailedToInitialize)];
             controller := Some s |}
      | (Returned true, s) =>
          let '(_, ended, s') := run E config fuel s in
          {| end_ := match ended with
                     | Some (Returned _) => Exit 0
                     | Some (Raised _) => Terminated
                     | None => InLoop
                     end;
             said := []; controller := Some s' |}
      end
  end.
End Process.

Arguments end_ {E} _.
Arguments said {E} _.
Arguments controller {E} _.

End Main.

(* ===================================================================== *)
(** * The text of a temperature (formatTemperature)                       *)
(* ===================================================================== *)

Fixpoint back (s : string) : option ascii :=
  match s with
  | EmptyString => None
  | String c EmptyString => Some c
  | String _ rest => back rest
  end.

Definition pop_back (s : string) : string :=
  String.substring 0 (String.length s - 1) s.

Section Formatting.
(** [oss << std::fixed << std::setprecision(1) << temp]. *)
Variable fixed1 : float -> string.

(** The loop that removes the trailing zeros; it stops by itself within
    [result.size()] rounds. *)
Fixpoint remove_trailing_zeros (fuel : nat) (dot_pos : nat) (result : string)
    : string :=
  match fuel with
  | O => result
  | S fuel' =>
      if (dot_pos + 1 <? String.length result)%nat &&
         match back result with Some c => Ascii.eqb c "0" | None => false end
      then remove_trailing_zeros fuel' dot_pos (pop_back result)
      else result
  end.

Definition formatTemperature (temp : float) : string :=
  let result := fixed1 temp in
  match find result "." with
  | Some dot_pos =>
      let result :=
        remove_trailing_zeros (String.length result) dot_pos result in
      if (String.length result =? dot_pos + 1)%nat then pop_back result
      else result
  | None => result
  end.
End Formatting.

(** [n] characters [0]. *)
Fixpoint zeros (n : nat) : string :=
  match n with
  | O => EmptyString
  | S n' => String "0" (zeros n')
  end.

(** A string made of spaces and tabs only. *)
Fixpoint all_blank (s : string) : bool :=
  match s with
  | EmptyString => true
  | String c rest => char_in c ConfigParser.blanks && all_blank rest
  end.

Definition front (s : string) : option ascii :=
  match s with
  | EmptyString => None
  | String c _ => Some c
  end.

(** Neither the first nor the last character is a space or a tab. *)
Definition unpadded (s : string) : bool :=
  match front s, back s with
  | Some a, Some b =>
      negb (char_in a ConfigParser.blanks) && negb (char_in b ConfigParser.blanks)
  | _, _ => true
  end.

Definition free_of (c : ascii) (s : string) : bool :=
  match find s c with None => true | Some _ => false end.

Definition newline : string := String "010" EmptyString.

(** [key ++ "=" ++ value] is a line that [parseKeyValueFile] takes as an
    assignment: it has no newline, does not start with a comment sign, the
    key holds no [=], and neither side is blank. *)
Definition assignment (key value : string) : bool :=
  match front key with
  | Some c => negb (Ascii.eqb c "#" || Ascii.eqb c ";")
  | None => false
  end
  && free_of "=" key && free_of "010" key && free_of "010" value
  && negb (empty (ConfigParser.trim key))
  && negb (empty (ConfigParser.trim value)).

(** A line that is not blank and not a comment. *)
Definition not_comment (line : string) : bool :=
  match front line with
  | Some c => negb (Ascii.eqb c "#" || Ascii.eqb c ";")
  | None => false
  end.

(** A machine with one more file, holding exactly [text]. *)
Definition with_file (path text : string) (w : Sim.SimWorld) : Sim.SimWorld :=
  {| Sim.files :=
       <[path := {| Sim.readable := true; Sim.writable := false;
                    Sim.content := text |}]> (Sim.files w);
     Sim.held_at := Sim.held_at w; Sim.put_fails := Sim.put_fails w;
     Sim.fsync_fails := Sim.fsync_fails w; Sim.signals := Sim.signals w |}.

(** An argument that the loop of [main] passes over. *)
Definition unknown_argument (arg : string) : bool :=
  negb (String.eqb arg "--config" || String.eqb arg "--help" || String.eqb arg "-h").

(** A hwmon directory of the simulated machine, and one that cannot be
    iterated: the constructor of the iterator raises. *)
Definition sim_hwmon (w : Sim.SimWorld) (path : string) : listing :=
  if String.eqb path "/sys/class/hwmon" then
    {| entries := [ {| filename := "hwmon0"; is_directory := Returned true |};
                    {| filename := "hwmon1"; is_directory := Returned true |} ];
       failure := None |}
  else {| entries := []; failure := None |}.

Definition not_a_directory : string :=
  "filesystem error: directory iterator cannot open directory: Not a directory".

Definition sim_no_hwmon (w : Sim.SimWorld) (path : string) : listing :=
  {| entries := []; failure := Some not_a_directory |}.

(** A path longer than [PATH_MAX]. *)
Fixpoint repeated (n : nat) (c : ascii) : string :=
  match n with
  | O => EmptyString
  | S n' => String c (repeated n' c)
  end.

Definition long_path : string := String "/" (repeated Sim.PATH_MAX "a").

(** [access(path, R_OK) == 0] on the simulated machine. *)
Definition sim_access (w : Sim.SimWorld) (path : string) : bool :=
  match Sim.sim_ifstream w path with Some _ => true | None => false end.

(** An environment that sets the first sensor path and nothing else. *)
Definition sim_getenv (name : string) : option string :=
  if String.eqb name "TEMP_HWMON0_PATH" then Some Sim.cpu else None.

(** [std::stod] on the few texts the examples use. *)
Definition sim_stod (text : string) : option float :=
  if String.eqb text "2.0" then Some 2%float
  else if String.eqb text "60" then Some 60%float
  else None.

(* ===================================================================== *)

(** * Proofs                                                              *)
(* ===================================================================== *)

(* ===================================================================== *)
(** * The order of binary64 values                                        *)
(* ===================================================================== *)

(** The comparison of [spec_float] is lexicographic on sign, exponent and
    mantissa; NaN is comparable with nothing. *)
Module FloatOrder.

Ltac cmp_cases :=
  repeat match goal with
  | H : context [Z.compare ?x ?y] |- _ => destruct (Z.compare_spec x y)
  | |- context [Z.compare ?x ?y] => destruct (Z.compare_spec x y)
  | H : context [Pos.compare_cont Eq ?x ?y] |- _ =>
      change (Pos.compare_cont Eq x y) with (Pos.compare x y) in *;
      destruct (Pos.compare_spec x y)
  | |- context [Pos.compare_cont Eq ?x ?y] =>
      change (Pos.compare_cont Eq x y) with (Pos.compare x y) in *;
      destruct (Pos.compare_spec x y)
  end.

Lemma SFcompare_antisym (a b : spec_float) :
  SFcompare b a = option_map CompOpp (SFcompare a b).
Proof.
  destruct a as [[]|[]| |[] m1 e1], b as [[]|[]| |[] m2 e2]; try reflexivity;
    cbn [SFcompare option_map CompOpp];
    rewrite (Z.compare_antisym e1 e2);
    change (Pos.compare_cont Eq m2 m1) with (Pos.compare m2 m1);
    change (Pos.compare_cont Eq m1 m2) with (Pos.compare m1 m2);
    rewrite (Pos.compare_antisym m1 m2);
    destruct (e1 ?= e2); cbn; try reflexivity;
    destruct (Pos.compare m1 m2); reflexivity.
Qed.

Lemma SFleb_trans (a b c : spec_float) :
  SFleb a b = true -> SFleb b c = true -> SFleb a c = true.
Proof.
  unfold SFleb.
  destruct a as [[]|[]| |[] m1 e1], b as [[]|[]| |[] m2 e2],
           c as [[]|[]| |[] m3 e3];
    cbn [SFcompare]; intros Hab Hbc; try reflexivity; try discriminate;
    cmp_cases; subst; cbn in *;
    try reflexivity; try discriminate; try lia.
Qed.

Lemma SFltb_SFleb (a b : spec_float) : SFltb a b = true -> SFleb a b = true.
Proof. unfold SFltb, SFleb. destruct (SFcompare a b) as [[]|]; congruence. Qed.

Lemma SFltb_not_SFleb (a b : spec_float) : SFltb a b = true -> SFleb b a = false.
Proof.
  unfold SFltb, SFleb. rewrite (SFcompare_antisym a b).
  destruct (SFcompare a b) as [[]|]; cbn; congruence.
Qed.

Lemma SFleb_not_SFltb (a b : spec_float) : SFleb a b = true -> SFltb b a = false.
Proof.
  unfold SFltb, SFleb. rewrite (SFcompare_antisym a b).
  destruct (SFcompare a b) as [[]|]; cbn; congruence.
Qed.

Lemma SFltb_SFleb_trans (a b c : spec_float) :
  SFltb a b = true -> SFleb b c = true -> SFltb a c = true.
Proof.
  intros Hab Hbc.
  pose proof (SFleb_trans _ _ _ (SFltb_SFleb _ _ Hab) Hbc) as Hac.
  destruct (SFleb c a) eqn:Hca.
  - pose proof (SFleb_trans _ _ _ Hbc Hca) as Hba.
    rewrite (SFltb_not_SFleb _ _ Hab) in Hba. discriminate.
  - revert Hac Hca. unfold SFltb, SFleb. rewrite (SFcompare_antisym a c).
    destruct (SFcompare a c) as [[]|]; cbn; congruence.
Qed.

Lemma SFleb_SFltb_trans (a b c : spec_float) :
  SFleb a b = true -> SFltb b c = true -> SFltb a c = true.
Proof.
  intros Hab Hbc.
  pose proof (SFleb_trans _ _ _ Hab (SFltb_SFleb _ _ Hbc)) as Hac.
  destruct (SFleb c a) eqn:Hca.
  - pose proof (SFleb_trans _ _ _ Hca Hab) as Hcb.
    rewrite (SFltb_not_SFleb _ _ Hbc) in Hcb. discriminate.
  - revert Hac Hca. unfold SFltb, SFleb. rewrite (SFcompare_antisym a c).
    destruct (SFcompare a c) as [[]|]; cbn; congruence.
Qed.

(** The same facts on primitive floats, through [leb_spec] and [ltb_spec]. *)
Lemma leb_trans (a b c : float) :
  (a <=? b)%float = true -> (b <=? c)%float = true -> (a <=? c)%float = true.
Proof. rewrite !leb_spec. apply SFleb_trans. Qed.

Lemma ltb_leb (a b : float) : (a <? b)%float = true -> (a <=? b)%float = true.
Proof. rewrite ltb_spec, leb_spec. apply SFltb_SFleb. Qed.

Lemma ltb_not_leb (a b : float) : (a <? b)%float = true -> (b <=? a)%float = false.
Proof. rewrite ltb_spec, leb_spec. apply SFltb_not_SFleb. Qed.

Lemma leb_not_ltb (a b : float) : (a <=? b)%float = true -> (b <? a)%float = false.
Proof. rewrite ltb_spec, leb_spec. apply SFleb_not_SFltb. Qed.

Lemma ltb_leb_trans (a b c : float) :
  (a <? b)%float = true -> (b <=? c)%float = true -> (a <? c)%float = true.
Proof. rewrite !ltb_spec, leb_spec. apply SFltb_SFleb_trans. Qed.

Lemma SFleb_refl_of_SFleb (a b : spec_float) :
  SFleb a b = true -> SFleb a a = true /\ SFleb b b = true.
Proof.
  unfold SFleb.
  destruct a as [[]|[]| |[] m1 e1], b as [[]|[]| |[] m2 e2];
    cbn [SFcompare]; intros H; try discriminate; split; try reflexivity;
    rewrite Z.compare_refl;
    match goal with |- context [Pos.compare_cont Eq ?m ?m] =>
      change (Pos.compare_cont Eq m m) with (Pos.compare m m);
      rewrite Pos.compare_refl end;
    reflexivity.
Qed.

Lemma ltb_leb_refl_l (a b : float) : (a <? b)%float = true -> (a <=? a)%float = true.
Proof.
  intros H. apply ltb_leb in H. rewrite leb_spec in *.
  now apply SFleb_refl_of_SFleb in H.
Qed.

Lemma ltb_leb_refl_r (a b : float) : (a <? b)%float = true -> (b <=? b)%float = true.
Proof.
  intros H. apply ltb_leb in H. rewrite leb_spec in *.
  now apply SFleb_refl_of_SFleb in H.
Qed.

Lemma leb_ltb_trans (a b c : float) :
  (a <=? b)%float = true -> (b <? c)%float = true -> (a <? c)%float = true.
Proof. rewrite !ltb_spec, leb_spec. apply SFleb_SFltb_trans. Qed.

End FloatOrder.

(* ===================================================================== *)
(** * The rounding of the binary64 subtraction                            *)
(* ===================================================================== *)

Module B64Facts.
Import B64.

Lemma digits2_pos_spec (m : positive) :
  2 ^ (Zpos (digits2_pos m) - 1) <= Zpos m < 2 ^ Zpos (digits2_pos m).
Proof.
  induction m as [m IH|m IH|]; cbn [digits2_pos].
  - rewrite Pos2Z.inj_succ.
    replace (Z.succ (Z.pos (digits2_pos m)) - 1) with (Z.pos (digits2_pos m)) by lia.
    rewrite Z.pow_succ_r by lia.
    assert (2 ^ Z.pos (digits2_pos m) = 2 * 2 ^ (Z.pos (digits2_pos m) - 1)).
    { rewrite <- Z.pow_succ_r by lia. f_equal. lia. }
    lia.
  - rewrite Pos2Z.inj_succ.
    replace (Z.succ (Z.pos (digits2_pos m)) - 1) with (Z.pos (digits2_pos m)) by lia.
    rewrite Z.pow_succ_r by lia.
    assert (2 ^ Z.pos (digits2_pos m) = 2 * 2 ^ (Z.pos (digits2_pos m) - 1)).
    { rewrite <- Z.pow_succ_r by lia. f_equal. lia. }
    lia.
  - cbn. lia.
Qed.

Lemma digits2_pos_digits (m : positive) : Zpos (digits2_pos m) = digits (Zpos m).
Proof.
  unfold digits. pose proof (digits2_pos_spec m) as H.
  assert (Z.log2 (Zpos m) = Zpos (digits2_pos m) - 1); [|lia].
  apply Z.log2_unique; [lia|].
  replace (Z.succ (Z.pos (digits2_pos m) - 1)) with (Z.pos (digits2_pos m)) by lia.
  exact H.
Qed.

Lemma digits_spec (n : Z) : 0 < n -> 2 ^ (digits n - 1) <= n < 2 ^ digits n.
Proof.
  intros Hn. unfold digits. pose proof (Z.log2_spec n Hn).
  replace (Z.log2 n + 1 - 1) with (Z.log2 n) by lia.
  replace (Z.log2 n + 1) with (Z.succ (Z.log2 n)) by lia. exact H.
Qed.

Lemma digits_unique (n d : Z) : 0 < d -> 2 ^ (d - 1) <= n < 2 ^ d -> digits n = d.
Proof.
  intros Hd H. unfold digits.
  assert (Z.log2 n = d - 1); [|lia].
  apply Z.log2_unique; [lia|]. replace (Z.succ (d - 1)) with d by lia. exact H.
Qed.

Lemma digits_pos (n : Z) : 0 < n -> 0 < digits n.
Proof. intros H. unfold digits. pose proof (Z.log2_nonneg n). lia. Qed.

Lemma digits_shift (n k : Z) : 0 < n -> 0 <= k -> digits (n * 2 ^ k) = digits n + k.
Proof.
  intros Hn Hk. pose proof (digits_spec n Hn) as H. pose proof (digits_pos n Hn).
  apply digits_unique; [lia|].
  replace (digits n + k - 1) with ((digits n - 1) + k) by lia.
  rewrite !Z.pow_add_r by lia.
  assert (0 < 2 ^ k) by (apply Z.pow_pos_nonneg; lia).
  nia.
Qed.

Lemma digits_mono (a b : Z) : 0 < a -> a <= b -> digits a <= digits b.
Proof. intros Ha Hab. unfold digits. pose proof (Z.log2_le_mono a b Hab). lia. Qed.

Lemma prec_lt_omega : 2 ^ prec < omega.
Proof. unfold omega, prec, emax, emin. apply Z.pow_lt_mono_r; lia. Qed.

Lemma round_pos_core (n : Z) : 0 < n -> round_pos n = Z.min (core n) omega.
Proof.
  intros Hn. unfold round_pos, core. cbv zeta.
  destruct (digits n - prec <=? 0) eqn:Hk; [|reflexivity].
  apply Z.leb_le in Hk. pose proof (digits_spec n Hn) as [_ H].
  assert (2 ^ digits n <= 2 ^ prec) by (apply Z.pow_le_mono_r; lia).
  pose proof prec_lt_omega. lia.
Qed.

Lemma pow2_pos (k : Z) : 0 <= k -> 0 < 2 ^ k.
Proof. intros. apply Z.pow_pos_nonneg; lia. Qed.

Lemma pow2_half (k : Z) : 0 < k -> 2 ^ k = 2 * 2 ^ (k - 1).
Proof. intros. rewrite <- Z.pow_succ_r by lia. f_equal. lia. Qed.

(** quotient of an integer with [prec + k] digits by [2^k] *)
Lemma quotient_bounds (n k : Z) :
  0 < n -> 0 < k -> digits n = prec + k ->
  2 ^ (prec - 1) <= n / 2 ^ k < 2 ^ prec.
Proof.
  intros Hn Hk Hd. pose proof (digits_spec n Hn) as [H1 H2]. rewrite Hd in *.
  pose proof (pow2_pos k ltac:(lia)) as Hp.
  replace (prec + k - 1) with ((prec - 1) + k) in H1 by lia.
  rewrite Z.pow_add_r in H1, H2 by (unfold prec; lia).
  split.
  - apply Z.div_le_lower_bound; lia.
  - apply Z.div_lt_upper_bound; lia.
Qed.

Lemma core_bounds (n : Z) : 0 < n -> 2 ^ (digits n - 1) <= core n <= 2 ^ digits n.
Proof.
  intros Hn. unfold core. cbv zeta.
  destruct (digits n - prec <=? 0) eqn:Hk.
  - pose proof (digits_spec n Hn). lia.
  - apply Z.leb_gt in Hk. set (k := digits n - prec) in *.
    pose proof (quotient_bounds n k Hn Hk ltac:(lia)) as [Hq1 Hq2].
    pose proof (pow2_pos k ltac:(lia)) as Hp.
    replace (digits n - 1) with ((prec - 1) + k) by lia.
    replace (digits n) with (prec + k) by lia.
    rewrite !Z.pow_add_r by (unfold prec; lia).
    set (q := n / 2 ^ k) in *.
    assert (Hq' : q <= (if n mod 2 ^ k <? 2 ^ (k - 1) then q
              else if 2 ^ (k - 1) <? n mod 2 ^ k then q + 1
              else if Z.even q then q else q + 1) <= q + 1).
    { destruct (_ <? _); [lia|]. destruct (_ <? _); [lia|]. destruct (Z.even q); lia. }
    nia.
Qed.

Lemma core_mono (a b : Z) : 0 < a -> a <= b -> core a <= core b.
Proof.
  intros Ha Hab. assert (Hb : 0 < b) by lia.
  pose proof (digits_mono a b Ha Hab) as Hd.
  destruct (Z.eq_dec (digits a) (digits b)) as [Heq|Hne].
  - unfold core. cbv zeta. rewrite <- Heq.
    destruct (digits a - prec <=? 0) eqn:Hk; [exact Hab|].
    apply Z.leb_gt in Hk. set (k := digits a - prec) in *.
    pose proof (pow2_pos k ltac:(lia)) as Hp.
    pose proof (pow2_pos (k - 1) ltac:(lia)) as Hp1.
    pose proof (pow2_half k Hk) as Hh.
    pose proof (Z.div_mod a (2 ^ k) ltac:(lia)) as Hda.
    pose proof (Z.div_mod b (2 ^ k) ltac:(lia)) as Hdb.
    pose proof (Z.mod_pos_bound a (2 ^ k) Hp) as Hra.
    pose proof (Z.mod_pos_bound b (2 ^ k) Hp) as Hrb.
    pose proof (Z.div_le_mono a b (2 ^ k) Hp Hab) as Hq.
    set (qa := a / 2 ^ k) in *. set (qb := b / 2 ^ k) in *.
    set (ra := a mod 2 ^ k) in *. set (rb := b mod 2 ^ k) in *.
    apply Z.mul_le_mono_nonneg_r; [lia|].
    destruct (Z.eq_dec qa qb) as [Hqq|Hqq].
    + rewrite <- Hqq. assert (ra <= rb) by nia.
      destruct (ra <? 2 ^ (k - 1)) eqn:C1, (rb <? 2 ^ (k - 1)) eqn:C2,
               (2 ^ (k - 1) <? ra) eqn:C3, (2 ^ (k - 1) <? rb) eqn:C4,
               (Z.even qa); lia.
    + assert (qa + 1 <= qb) by lia.
      destruct (ra <? 2 ^ (k - 1)), (rb <? 2 ^ (k - 1)),
               (2 ^ (k - 1) <? ra), (2 ^ (k - 1) <? rb),
               (Z.even qa), (Z.even qb); lia.
  - pose proof (core_bounds a Ha) as [_ H1].
    pose proof (core_bounds b Hb) as [H2 _].
    assert (2 ^ digits a <= 2 ^ (digits b - 1)).
    { apply Z.pow_le_mono_r; lia. }
    lia.
Qed.

Lemma round_pos_mono (a b : Z) : 0 < a -> a <= b -> round_pos a <= round_pos b.
Proof.
  intros Ha Hab. rewrite !round_pos_core by lia.
  pose proof (core_mono a b Ha Hab). lia.
Qed.

Lemma round_pos_pos (n : Z) : 0 < n -> 0 < round_pos n.
Proof.
  intros Hn. rewrite round_pos_core by lia.
  pose proof (core_bounds n Hn) as [H _].
  pose proof (pow2_pos (digits n - 1) ltac:(pose proof (digits_pos n Hn); lia)).
  pose proof prec_lt_omega. pose proof (pow2_pos prec ltac:(unfold prec; lia)). lia.
Qed.

Lemma round_mono (a b : Z) : a <= b -> round a <= round b.
Proof.
  intros Hab. unfold round.
  destruct a as [|a|a], b as [|b|b]; try lia.
  - pose proof (round_pos_pos (Zpos b)). lia.
  - apply round_pos_mono; lia.
  - pose proof (round_pos_pos (- Zneg a)). lia.
  - pose proof (round_pos_pos (- Zneg a)). pose proof (round_pos_pos (Zpos b)). lia.
  - pose proof (round_pos_mono (- Zneg b) (- Zneg a)). lia.
Qed.

(** ** Valid binary64 values and their order *)

Lemma valid_finite (s : bool) (m : positive) (e : Z) :
  valid_binary (S754_finite s m e) = true ->
  emin <= e <= emax - prec /\
  digits (Zpos m) <= prec /\
  (digits (Zpos m) = prec \/ e = emin).
Proof.
  unfold valid_binary, SpecFloat.valid_binary, bounded, canonical_mantissa, fexp.
  rewrite andb_true_iff, Z.eqb_eq, Z.leb_le, digits2_pos_digits.
  change (SpecFloat.emin prec emax) with emin.
  unfold emin, prec, emax. lia.
Qed.

Lemma magnitude_pos (m : positive) (e : Z) : emin <= e -> 0 < magnitude m e.
Proof. intros. unfold magnitude. pose proof (pow2_pos (e - emin)). lia. Qed.

Lemma magnitude_digits (m : positive) (e : Z) :
  emin <= e -> digits (magnitude m e) = digits (Zpos m) + (e - emin).
Proof. intros. unfold magnitude. apply digits_shift; lia. Qed.

Lemma magnitude_lt_omega (s : bool) (m : positive) (e : Z) :
  valid_binary (S754_finite s m e) = true -> magnitude m e < omega.
Proof.
  intros Hv. apply valid_finite in Hv as (He & Hd & _).
  pose proof (magnitude_pos m e ltac:(lia)) as Hp.
  pose proof (digits_spec _ Hp) as [_ H]. rewrite magnitude_digits in H by lia.
  assert (2 ^ (digits (Z.pos m) + (e - emin)) <= omega).
  { unfold omega. apply Z.pow_le_mono_r; [lia|]. unfold emin, emax, prec in *. lia. }
  lia.
Qed.

Lemma magnitude_compare (s1 s2 : bool) (m1 m2 : positive) (e1 e2 : Z) :
  valid_binary (S754_finite s1 m1 e1) = true ->
  valid_binary (S754_finite s2 m2 e2) = true ->
  (magnitude m1 e1 ?= magnitude m2 e2) =
  match e1 ?= e2 with
  | Lt => Lt
  | Gt => Gt
  | Eq => Pos.compare_cont Eq m1 m2
  end.
Proof.
  intros H1 H2.
  assert (Hlt : forall sa sb ma mb ea eb,
    valid_binary (S754_finite sa ma ea) = true ->
    valid_binary (S754_finite sb mb eb) = true ->
    ea < eb -> magnitude ma ea < magnitude mb eb).
  { clear. intros sa sb ma mb ea eb Ha Hb Hlt.
    apply valid_finite in Ha as (Hea & Hda & _).
    apply valid_finite in Hb as (Heb & Hdb & [Hn|Hn]); [|lia].
    pose proof (magnitude_pos ma ea ltac:(lia)) as Hpa.
    pose proof (magnitude_pos mb eb ltac:(lia)) as Hpb.
    pose proof (digits_spec _ Hpa) as [_ Ha].
    pose proof (digits_spec _ Hpb) as [Hb _].
    rewrite magnitude_digits in Ha, Hb by lia.
    assert (2 ^ (digits (Z.pos ma) + (ea - emin)) <=
            2 ^ (digits (Z.pos mb) + (eb - emin) - 1)).
    { apply Z.pow_le_mono_r; lia. }
    lia. }
  destruct (Z.compare_spec e1 e2) as [->|He|He].
  - change (Pos.compare_cont Eq m1 m2) with (Z.pos m1 ?= Z.pos m2).
    unfold magnitude. apply valid_finite in H2 as (He & _).
    pose proof (pow2_pos (e2 - emin) ltac:(lia)).
    destruct (Z.compare_spec (Zpos m1) (Zpos m2)) as [Hm|Hm|Hm].
    + rewrite Hm. apply Z.compare_refl.
    + apply Z.compare_lt_iff. nia.
    + apply Z.compare_gt_iff. nia.
  - apply Z.compare_lt_iff. eapply Hlt; eauto.
  - apply Z.compare_gt_iff. eapply Hlt; eauto.
Qed.

Ltac solve_cmp :=
  f_equal; symmetry;
  first [ apply Z.compare_eq_iff; lia
        | apply Z.compare_lt_iff; lia
        | apply Z.compare_gt_iff; lia ].

(** On valid values other than NaN, the comparison is that of the values. *)
Lemma SFcompare_value (x y : spec_float) :
  valid_binary x = true -> valid_binary y = true ->
  is_nan_sf x = false -> is_nan_sf y = false ->
  SFcompare x y = Some (value x ?= value y).
Proof.
  intros Hx Hy Nx Ny.
  assert (Homega : 0 < omega) by (unfold omega; apply pow2_pos; unfold emax, emin; lia).
  destruct x as [sx|sx| |sx mx ex], y as [sy|sy| |sy my ey]; try discriminate;
    cbn [SFcompare value cond_Zopp].
  - reflexivity.
  - destruct sy; solve_cmp.
  - apply valid_finite in Hy as (He & _).
    pose proof (magnitude_pos my ey ltac:(lia)). fold (magnitude my ey).
    destruct sy; cbn [cond_Zopp]; solve_cmp.
  - destruct sx; solve_cmp.
  - destruct sx, sy; solve_cmp.
  - pose proof (magnitude_lt_omega _ _ _ Hy).
    apply valid_finite in Hy as (He & _).
    pose proof (magnitude_pos my ey ltac:(lia)). fold (magnitude my ey).
    destruct sx, sy; cbn [cond_Zopp]; solve_cmp.
  - apply valid_finite in Hx as (He & _).
    pose proof (magnitude_pos mx ex ltac:(lia)). fold (magnitude mx ex).
    destruct sx; cbn [cond_Zopp]; solve_cmp.
  - pose proof (magnitude_lt_omega _ _ _ Hx).
    apply valid_finite in Hx as (He & _).
    pose proof (magnitude_pos mx ex ltac:(lia)). fold (magnitude mx ex).
    destruct sx, sy; cbn [cond_Zopp]; solve_cmp.
  - pose proof (magnitude_compare _ _ _ _ _ _ Hx Hy) as Hc.
    apply valid_finite in Hx as (Hex & _). apply valid_finite in Hy as (Hey & _).
    pose proof (magnitude_pos mx ex ltac:(lia)).
    pose proof (magnitude_pos my ey ltac:(lia)).
    fold (magnitude mx ex). fold (magnitude my ey).
    destruct sx, sy; cbn [cond_Zopp]; try solve_cmp.
    + rewrite Z.compare_opp, (Z.compare_antisym (magnitude mx ex)), Hc.
      destruct (ex ?= ey); reflexivity.
    + rewrite Hc. reflexivity.
Qed.

Lemma SFleb_value (x y : spec_float) :
  valid_binary x = true -> valid_binary y = true ->
  is_nan_sf x = false -> is_nan_sf y = false ->
  SFleb x y = (value x <=? value y).
Proof.
  intros Hx Hy Nx Ny. unfold SFleb. rewrite (SFcompare_value x y Hx Hy Nx Ny).
  unfold Z.leb. destruct (value x ?= value y); reflexivity.
Qed.

Lemma SFltb_value (x y : spec_float) :
  valid_binary x = true -> valid_binary y = true ->
  is_nan_sf x = false -> is_nan_sf y = false ->
  SFltb x y = (value x <? value y).
Proof.
  intros Hx Hy Nx Ny. unfold SFltb. rewrite (SFcompare_value x y Hx Hy Nx Ny).
  unfold Z.ltb. destruct (value x ?= value y); reflexivity.
Qed.

Lemma SFleb_nan_l (y : spec_float) : SFleb S754_nan y = false.
Proof. reflexivity. Qed.
Lemma SFltb_nan_l (y : spec_float) : SFltb S754_nan y = false.
Proof. reflexivity. Qed.
Lemma SFltb_nan_r (x : spec_float) : SFltb x S754_nan = false.
Proof. destruct x; reflexivity. Qed.
Lemma SFleb_nan_r (x : spec_float) : SFleb x S754_nan = false.
Proof. destruct x; reflexivity. Qed.

(** ** Values that are representable are left alone *)

Lemma round_pos_magnitude (s : bool) (m : positive) (e : Z) :
  valid_binary (S754_finite s m e) = true ->
  round_pos (magnitude m e) = magnitude m e.
Proof.
  intros Hv. pose proof (magnitude_lt_omega _ _ _ Hv) as Hlt.
  apply valid_finite in Hv as (He & Hd & Hn).
  pose proof (magnitude_pos m e ltac:(lia)) as Hp.
  rewrite round_pos_core by exact Hp.
  assert (core (magnitude m e) = magnitude m e); [|lia].
  unfold core. cbv zeta. rewrite magnitude_digits by lia.
  destruct (digits (Z.pos m) + (e - emin) - prec <=? 0) eqn:Hk; [reflexivity|].
  apply Z.leb_gt in Hk.
  assert (Hdp : digits (Z.pos m) = prec) by lia.
  replace (digits (Z.pos m) + (e - emin) - prec) with (e - emin) in * by lia.
  pose proof (pow2_pos (e - emin) ltac:(lia)) as Hpk.
  pose proof (pow2_pos (e - emin - 1) ltac:(lia)) as Hph.
  unfold magnitude.
  rewrite Z.mod_mul, Z.div_mul by lia.
  destruct (0 <? 2 ^ (e - emin - 1)) eqn:C; [reflexivity|]. apply Z.ltb_ge in C. lia.
Qed.

Lemma round_value (x : spec_float) :
  valid_binary x = true ->
  match x with S754_zero _ | S754_finite _ _ _ => round (value x) = value x | _ => True end.
Proof.
  intros Hv. destruct x as [s|s| |s m e]; try exact I; [reflexivity|].
  pose proof (round_pos_magnitude _ _ _ Hv) as Hr.
  apply valid_finite in Hv as (He & _).
  pose proof (magnitude_pos m e ltac:(lia)) as Hp.
  cbn [value]. fold (magnitude m e).
  destruct s; cbn [cond_Zopp]; unfold round.
  - destruct (magnitude m e) as [|p|p] eqn:Hm;
      first [ lia
            | change (- Z.pos p) with (Z.neg p); cbv iota;
              change (- Z.neg p) with (Z.pos p); rewrite Hr; reflexivity ].
  - destruct (magnitude m e) as [|p|p] eqn:Hm; first [lia | exact Hr].
Qed.

(** ** The shifts of the rounding algorithm *)

Lemma iter_xO (d m : positive) : Zpos (Pos.iter xO m d) = Zpos m * 2 ^ Zpos d.
Proof.
  induction d as [|d IH] using Pos.peano_ind.
  - cbn. lia.
  - rewrite Pos.iter_succ, Pos2Z.inj_succ, Z.pow_succ_r by lia.
    rewrite Pos2Z.inj_xO, IH. lia.
Qed.

Lemma shl_align_spec (mx : positive) (ex ex' : Z) :
  let '(mz, ez) := shl_align mx ex ex' in
  ez = Z.min ex ex' /\ Zpos mz = Zpos mx * 2 ^ (ex - ez).
Proof.
  unfold shl_align. destruct (ex' - ex) as [|d|d] eqn:Hd.
  - split; [lia|]. replace (ex - ex) with 0 by lia. lia.
  - split; [lia|]. replace (ex - ex) with 0 by lia. lia.
  - split; [lia|]. rewrite iter_xO. f_equal. f_equal. lia.
Qed.

Lemma iter_pos_nat {A : Type} (f : A -> A) (p : positive) (x : A) :
  SpecFloat.iter_pos f p x = Nat.iter (Pos.to_nat p) f x.
Proof.
  assert (Hadd : forall n m y, Nat.iter (n + m) f y = Nat.iter n f (Nat.iter m f y)).
  { intros n m y. induction n as [|n IH]; [reflexivity|].
    change (f (Nat.iter (n + m) f y) = f (Nat.iter n f (Nat.iter m f y))).
    now rewrite IH. }
  revert x. induction p as [p IH|p IH|]; intros x; cbn [SpecFloat.iter_pos].
  - rewrite !IH, Pos2Nat.inj_xI.
    replace (S (2 * Pos.to_nat p)) with (Pos.to_nat p + (Pos.to_nat p + 1))%nat by lia.
    rewrite !Hadd. reflexivity.
  - rewrite !IH, Pos2Nat.inj_xO.
    replace (2 * Pos.to_nat p)%nat with (Pos.to_nat p + Pos.to_nat p)%nat by lia.
    rewrite Hadd. reflexivity.
  - reflexivity.
Qed.

Lemma shr_1_spec (m : Z) (r s : bool) :
  0 <= m ->
  shr_1 {| shr_m := m; shr_r := r; shr_s := s |} =
  {| shr_m := m / 2; shr_r := Z.odd m; shr_s := r || s |}.
Proof.
  intros Hm. destruct m as [|[p|p|]|p]; try lia; cbn [shr_1]; f_equal.
  - rewrite Pos2Z.inj_xI. apply Z.div_unique with 1; lia.
  - rewrite Pos2Z.inj_xO. apply Z.div_unique with 0; lia.
Qed.

Lemma shifted_succ (n k : Z) :
  0 <= n -> 1 <= k -> shr_1 (shifted n k) = shifted n (k + 1).
Proof.
  intros Hn Hk. unfold shifted.
  pose proof (pow2_pos k ltac:(lia)) as Hp.
  pose proof (pow2_pos (k - 1) ltac:(lia)) as Hp1.
  rewrite shr_1_spec by (apply Z.div_pos; lia).
  replace (k + 1 - 1) with k by lia.
  f_equal.
  - rewrite Z.div_div by lia. f_equal. rewrite Z.pow_add_r by lia. lia.
  - rewrite (pow2_half k) by lia.
    rewrite (Z.mul_comm 2), Z.rem_mul_r by lia.
    pose proof (Z.mod_pos_bound n (2 ^ (k - 1)) Hp1) as Hb.
    pose proof (Z.mod_pos_bound (n / 2 ^ (k - 1)) 2 ltac:(lia)) as Hb2.
    rewrite Zodd_mod.
    destruct (n / 2 ^ (k - 1) mod 2 =? 1) eqn:Ho;
      destruct (n mod 2 ^ (k - 1) =? 0) eqn:Hz; cbn;
      [apply Z.eqb_eq in Ho | apply Z.eqb_eq in Ho | apply Z.eqb_neq in Ho
       | apply Z.eqb_neq in Ho];
      [apply Z.eqb_eq in Hz | apply Z.eqb_neq in Hz | apply Z.eqb_eq in Hz
       | apply Z.eqb_neq in Hz];
      symmetry; first [apply negb_true_iff, Z.eqb_neq; nia
                      | apply negb_false_iff, Z.eqb_eq; nia].
Qed.

Lemma shifted_one (n : Z) :
  0 <= n -> shr_1 {| shr_m := n; shr_r := false; shr_s := false |} = shifted n 1.
Proof.
  intros Hn. rewrite shr_1_spec by lia. unfold shifted. cbn [Z.sub Z.pow Z.pow_pos Pos.iter].
  change (1 - 1) with 0. rewrite Z.pow_0_r, Z.div_1_r, Z.mod_1_r. reflexivity.
Qed.

Lemma iter_shr_1 (n : Z) (p : positive) :
  0 <= n ->
  SpecFloat.iter_pos shr_1 p {| shr_m := n; shr_r := false; shr_s := false |} = shifted n (Zpos p).
Proof.
  intros Hn. rewrite iter_pos_nat.
  induction p as [|p IH] using Pos.peano_ind.
  - cbn. apply shifted_one. exact Hn.
  - rewrite Pos2Nat.inj_succ, Nat.iter_succ, IH.
    rewrite shifted_succ by lia. f_equal. lia.
Qed.

Lemma round_shifted (n k : Z) :
  0 <= n -> 1 <= k ->
  round_nearest_even (shr_m (shifted n k)) (loc_of_shr_record (shifted n k)) =
  (if n mod 2 ^ k <? 2 ^ (k - 1) then n / 2 ^ k
   else if 2 ^ (k - 1) <? n mod 2 ^ k then n / 2 ^ k + 1
   else if Z.even (n / 2 ^ k) then n / 2 ^ k else n / 2 ^ k + 1).
Proof.
  intros Hn Hk. unfold shifted. cbn [shr_m loc_of_shr_record].
  pose proof (pow2_pos (k - 1) ltac:(lia)) as Hp1.
  assert (Hr : n mod 2 ^ k =
               n mod 2 ^ (k - 1) + 2 ^ (k - 1) * ((n / 2 ^ (k - 1)) mod 2)).
  { rewrite (pow2_half k) by lia. rewrite (Z.mul_comm 2), Z.rem_mul_r by lia.
    reflexivity. }
  rewrite Hr. clear Hr.
  pose proof (Z.mod_pos_bound n (2 ^ (k - 1)) Hp1) as Hb.
  rewrite Zodd_mod.
  pose proof (Z.mod_pos_bound (n / 2 ^ (k - 1)) 2 ltac:(lia)) as Hb2.
  destruct (n / 2 ^ (k - 1) mod 2 =? 1) eqn:Ho;
    destruct (n mod 2 ^ (k - 1) =? 0) eqn:Hz; cbn [negb round_nearest_even];
    [apply Z.eqb_eq in Ho | apply Z.eqb_eq in Ho | apply Z.eqb_neq in Ho
     | apply Z.eqb_neq in Ho];
    [apply Z.eqb_eq in Hz | apply Z.eqb_neq in Hz | apply Z.eqb_eq in Hz
     | apply Z.eqb_neq in Hz].
  - replace (_ <? _) with false by (symmetry; apply Z.ltb_ge; nia).
    replace (_ <? _) with false by (symmetry; apply Z.ltb_ge; nia).
    reflexivity.
  - replace (_ <? _) with false by (symmetry; apply Z.ltb_ge; nia).
    replace (_ <? _) with true by (symmetry; apply Z.ltb_lt; nia).
    reflexivity.
  - replace (_ <? _) with true by (symmetry; apply Z.ltb_lt; nia).
    reflexivity.
  - replace (_ <? _) with true by (symmetry; apply Z.ltb_lt; nia).
    reflexivity.
Qed.

Lemma fexp_eq (z : Z) : fexp prec emax z = Z.max (z - prec) emin.
Proof. reflexivity. Qed.

(** The algorithm ends on a mantissa and an exponent in canonical form that
    carry the rounded value. *)
Lemma binary_round_aux_canonical (sx : bool) (mz : positive) (ez : Z) :
  emin <= ez ->
  ez <= fexp prec emax (digits (Zpos mz) + ez) ->
  exists (m : positive) (e : Z),
    binary_round_aux prec emax sx (Zpos mz) ez loc_Exact =
      (if e <=? emax - prec then S754_finite sx m e else S754_infinity sx) /\
    magnitude m e = core (magnitude mz ez) /\
    emin <= e /\
    digits (Zpos m) <= prec /\
    (digits (Zpos m) = prec \/ e = emin).
Proof.
  intros He Hf. rewrite fexp_eq in Hf.
  pose proof (digits_pos (Zpos mz) ltac:(lia)) as Hdpos.
  unfold binary_round_aux, shr_fexp.
  cbn [Zdigits2 shr_record_of_loc]. rewrite digits2_pos_digits, fexp_eq.
  destruct (Z.max (digits (Z.pos mz) + ez - prec) emin - ez) as [|p|p] eqn:Hn;
    [| |lia]; cbn [shr].
  - (* no shift: the mantissa already has at most [prec] digits *)
    cbn [shr_m loc_of_shr_record round_nearest_even Zdigits2 shr_record_of_loc].
    rewrite digits2_pos_digits, fexp_eq, Hn. cbn [shr shr_m].
    exists mz, ez. split; [reflexivity|].
    assert (Hd : digits (Zpos mz) <= prec) by lia.
    split; [|split; [lia|split; [lia|lia]]].
    unfold core. cbv zeta. rewrite magnitude_digits by lia.
    destruct (digits (Z.pos mz) + (ez - emin) - prec <=? 0) eqn:Hk; [reflexivity|].
    apply Z.leb_gt in Hk.
    replace (digits (Z.pos mz) + (ez - emin) - prec) with (ez - emin) in * by lia.
    pose proof (pow2_pos (ez - emin) ltac:(lia)) as Hpk.
    pose proof (pow2_pos (ez - emin - 1) ltac:(lia)) as Hph.
    unfold magnitude. rewrite Z.mod_mul, Z.div_mul by lia.
    destruct (0 <? 2 ^ (ez - emin - 1)) eqn:C; [reflexivity|]. apply Z.ltb_ge in C. lia.
  - (* a shift by [n = digits mz - prec] places *)
    assert (Hnp : Zpos p = digits (Zpos mz) - prec) by lia.
    rewrite iter_shr_1, round_shifted by lia.
    pose proof (quotient_bounds (Zpos mz) (Zpos p) ltac:(lia) ltac:(lia) ltac:(lia))
      as [Hq1 Hq2].
    set (q := Z.pos mz / 2 ^ Z.pos p) in *.
    set (q' := if Z.pos mz mod 2 ^ Z.pos p <? 2 ^ (Z.pos p - 1) then q
               else if 2 ^ (Z.pos p - 1) <? Z.pos mz mod 2 ^ Z.pos p then q + 1
               else if Z.even q then q else q + 1).
    assert (Hq' : q <= q' <= q + 1).
    { subst q'. destruct (_ <? _); [lia|]. destruct (_ <? _); [lia|].
      destruct (Z.even q); lia. }
    pose proof (pow2_pos (prec - 1) ltac:(unfold prec; lia)) as Hpp.
    assert (Hcore : core (magnitude mz ez) = q' * 2 ^ (Zpos p + (ez - emin))).
    { unfold core. cbv zeta. rewrite magnitude_digits by lia.
      replace (digits (Z.pos mz) + (ez - emin) - prec) with (Zpos p + (ez - emin)) by lia.
      destruct (Z.pos p + (ez - emin) <=? 0) eqn:Hk; [apply Z.leb_le in Hk; lia|].
      f_equal. unfold magnitude.
      pose proof (pow2_pos (ez - emin) ltac:(lia)) as Hpe.
      pose proof (pow2_pos (Zpos p) ltac:(lia)) as Hpn.
      pose proof (pow2_pos (Zpos p - 1) ltac:(lia)) as Hpn1.
      rewrite (Z.pow_add_r 2 (Zpos p)) by lia.
      rewrite Z.div_mul_cancel_r by lia.
      rewrite Z.mul_mod_distr_r by lia.
      replace (Z.pos p + (ez - emin) - 1) with ((Zpos p - 1) + (ez - emin)) by lia.
      rewrite (Z.pow_add_r 2 (Zpos p - 1)) by lia.
      fold q. subst q'.
      pose proof (Z.mod_pos_bound (Zpos mz) (2 ^ Zpos p) Hpn) as Hb.
      set (r := Z.pos mz mod 2 ^ Z.pos p) in *.
      destruct (r <? 2 ^ (Z.pos p - 1)) eqn:C1.
      - apply Z.ltb_lt in C1.
        replace (_ <? _) with true by (symmetry; apply Z.ltb_lt; nia). reflexivity.
      - apply Z.ltb_ge in C1.
        replace (r * 2 ^ (ez - emin) <? _) with false by (symmetry; apply Z.ltb_ge; nia).
        destruct (2 ^ (Z.pos p - 1) <? r) eqn:C2.
        + apply Z.ltb_lt in C2.
          replace (_ <? _) with true by (symmetry; apply Z.ltb_lt; nia). reflexivity.
        + apply Z.ltb_ge in C2.
          replace (_ <? _) with false by (symmetry; apply Z.ltb_ge; nia). reflexivity. }
    destruct q' as [|qp|qp] eqn:Eq'; try lia. rewrite <- Eq' in *.
    assert (HZd : Zdigits2 q' = digits q').
    { rewrite Eq'. cbn [Zdigits2]. apply digits2_pos_digits. }
    cbn [shr_record_of_loc]. rewrite HZd.
    destruct (Z.eq_dec q' (2 ^ prec)) as [Htop|Htop].
    + (* the rounding carried into a new digit *)
      assert (Hd : digits q' = prec + 1).
      { apply digits_unique; [unfold prec; lia|].
        replace (prec + 1 - 1) with prec by lia. rewrite Htop.
        split; [lia|]. apply Z.pow_lt_mono_r; unfold prec; lia. }
      rewrite Hd, fexp_eq.
      replace (Z.max (prec + 1 + (ez + Z.pos p) - prec) emin - (ez + Z.pos p)) with 1 by lia.
      cbn [shr SpecFloat.iter_pos]. rewrite shr_1_spec by lia. cbn [shr_m].
      rewrite Htop.
      assert (Hhalf : 2 ^ prec / 2 = 2 ^ (prec - 1)).
      { rewrite (pow2_half prec) by (unfold prec; lia).
        rewrite Z.mul_comm, Z.div_mul by lia. reflexivity. }
      rewrite Hhalf.
      destruct (2 ^ (prec - 1)) as [|m|m] eqn:Em; try lia.
      exists m, (ez + Z.pos p + 1). split; [reflexivity|].
      split; [|split; [lia|]].
      * rewrite Hcore. unfold magnitude. rewrite <- Em, Htop.
        rewrite (pow2_half prec) by (unfold prec; lia).
        replace (ez + Z.pos p + 1 - emin) with (Z.succ (Zpos p + (ez - emin))) by lia.
        rewrite Z.pow_succ_r by lia. lia.
      * assert (digits (Zpos m) = prec); [|lia].
        rewrite <- Em. apply digits_unique; [unfold prec; lia|].
        split; [lia|]. apply Z.pow_lt_mono_r; unfold prec; lia.
    + assert (Hd : digits q' = prec).
      { apply digits_unique; [unfold prec; lia|]. lia. }
      rewrite Hd, fexp_eq.
      replace (Z.max (prec + (ez + Z.pos p) - prec) emin - (ez + Z.pos p)) with 0 by lia.
      cbn [shr shr_m]. rewrite Eq'.
      exists qp, (ez + Z.pos p). split; [reflexivity|].
      split; [|split; [lia|]].
      * rewrite Hcore. unfold magnitude. rewrite Eq'. f_equal. f_equal. lia.
      * rewrite <- Eq'. lia.
Qed.

Lemma omega_pos : 0 < omega.
Proof. unfold omega. apply pow2_pos. unfold emax, emin. lia. Qed.

Lemma value_infinity (s : bool) : value (S754_infinity s) = cond_Zopp s omega.
Proof. destruct s; reflexivity. Qed.

Lemma binary_round_aux_value (sx : bool) (mz : positive) (ez : Z) :
  emin <= ez ->
  ez <= fexp prec emax (digits (Zpos mz) + ez) ->
  is_nan_sf (binary_round_aux prec emax sx (Zpos mz) ez loc_Exact) = false /\
  value (binary_round_aux prec emax sx (Zpos mz) ez loc_Exact) =
    cond_Zopp sx (round_pos (magnitude mz ez)).
Proof.
  intros He Hf.
  destruct (binary_round_aux_canonical sx mz ez He Hf)
    as (m & e & -> & Hmag & Hemin & Hd & Hn).
  pose proof (magnitude_pos mz ez He) as Hpos.
  rewrite (round_pos_core _ Hpos), <- Hmag.
  pose proof (magnitude_pos m e Hemin) as Hmpos.
  pose proof (digits_spec _ Hmpos) as [Hlo Hhi].
  rewrite magnitude_digits in Hlo, Hhi by lia.
  destruct (e <=? emax - prec) eqn:Hov.
  - apply Z.leb_le in Hov. split; [reflexivity|].
    cbn [value]. fold (magnitude m e). f_equal.
    assert (2 ^ (digits (Z.pos m) + (e - emin)) <= omega).
    { unfold omega. apply Z.pow_le_mono_r; [lia|]. unfold emin, emax, prec in *. lia. }
    lia.
  - apply Z.leb_gt in Hov. split; [reflexivity|].
    rewrite value_infinity. f_equal.
    assert (omega <= 2 ^ (digits (Z.pos m) + (e - emin) - 1)).
    { unfold omega. apply Z.pow_le_mono_r; [lia|]. unfold emin, emax, prec in *. lia. }
    lia.
Qed.

Lemma binary_round_value (sx : bool) (mx : positive) (ex : Z) :
  emin <= ex ->
  is_nan_sf (binary_round prec emax sx mx ex) = false /\
  value (binary_round prec emax sx mx ex) = cond_Zopp sx (round_pos (magnitude mx ex)).
Proof.
  intros He. unfold binary_round.
  pose proof (shl_align_spec mx ex (fexp prec emax (Zpos (digits2_pos mx) + ex))) as Hs.
  destruct (shl_align mx ex _) as [mz ez]. destruct Hs as [Hez Hmz].
  rewrite digits2_pos_digits, fexp_eq in Hez.
  assert (Hmag : magnitude mz ez = magnitude mx ex).
  { unfold magnitude. rewrite Hmz, <- Z.mul_assoc, <- Z.pow_add_r by lia.
    f_equal. f_equal. lia. }
  assert (Hdz : digits (Zpos mz) + ez = digits (Zpos mx) + ex).
  { rewrite Hmz, digits_shift by lia. lia. }
  rewrite <- Hmag. apply binary_round_aux_value; [lia|].
  rewrite Hdz, fexp_eq. lia.
Qed.

Lemma binary_normalize_value (m e : Z) :
  emin <= e ->
  is_nan_sf (binary_normalize prec emax m e false) = false /\
  value (binary_normalize prec emax m e false) = round (m * 2 ^ (e - emin)).
Proof.
  intros He. pose proof (pow2_pos (e - emin) ltac:(lia)) as Hp.
  destruct m as [|m|m]; cbn [binary_normalize].
  - split; reflexivity.
  - destruct (binary_round_value false m e He) as [Hn Hv]. split; [exact Hn|].
    rewrite Hv. cbn [cond_Zopp]. fold (magnitude m e).
    pose proof (magnitude_pos m e He). unfold round.
    destruct (magnitude m e); first [lia | reflexivity].
  - destruct (binary_round_value true m e He) as [Hn Hv]. split; [exact Hn|].
    rewrite Hv. cbn [cond_Zopp].
    replace (Z.neg m * 2 ^ (e - emin)) with (- magnitude m e)
      by (unfold magnitude; lia).
    pose proof (magnitude_pos m e He). unfold round.
    destruct (magnitude m e) as [|q|q]; first [lia | reflexivity].
Qed.

(** ** Subtraction *)

(** The difference of two finite values is the rounding of the exact
    difference. *)
Lemma SFsub_value (x y : spec_float) :
  valid_binary x = true -> valid_binary y = true ->
  finite_or_zero x = true -> finite_or_zero y = true ->
  is_nan_sf (SF64sub x y) = false /\
  value (SF64sub x y) = round (value x - value y).
Proof.
  intros Hx Hy Fx Fy. unfold SF64sub.
  destruct x as [sx|sx| |sx mx ex], y as [sy|sy| |sy my ey]; try discriminate;
    cbn [SFsub].
  - split; [destruct sx, sy; reflexivity|]. destruct sx, sy; reflexivity.
  - split; [reflexivity|].
    pose proof (round_value (S754_finite (negb sy) my ey)) as Hr.
    change (valid_binary (S754_finite (negb sy) my ey)) with
      (valid_binary (S754_finite sy my ey)) in Hr.
    specialize (Hr Hy). cbn beta iota in Hr. rewrite <- Hr.
    f_equal. cbn [value]. destruct sy; cbn [negb cond_Zopp]; lia.
  - split; [reflexivity|].
    pose proof (round_value _ Hx) as Hr. cbn beta iota in Hr.
    rewrite <- Hr at 1. f_equal. cbn [value]. lia.
  - pose proof (shl_align_spec mx ex (Z.min ex ey)) as Hsx.
    pose proof (shl_align_spec my ey (Z.min ex ey)) as Hsy.
    destruct (shl_align mx ex (Z.min ex ey)) as [mx' ex'].
    destruct (shl_align my ey (Z.min ex ey)) as [my' ey'].
    destruct Hsx as [Hex' Hmx']. destruct Hsy as [Hey' Hmy'].
    cbn [fst].
    apply valid_finite in Hx as (Hex & _). apply valid_finite in Hy as (Hey & _).
    destruct (binary_normalize_value
                (cond_Zopp sx (Z.pos mx') - cond_Zopp sy (Z.pos my'))
                (Z.min ex ey) ltac:(lia)) as [Hn Hv].
    split; [exact Hn|]. rewrite Hv. f_equal.
    cbn [value]. rewrite Hmx', Hmy'.
    replace ex' with (Z.min ex ey) by lia.
    replace ey' with (Z.min ex ey) by lia.
    set (ez := Z.min ex ey).
    assert (Hpx : 2 ^ (ex - emin) = 2 ^ (ex - ez) * 2 ^ (ez - emin)).
    { rewrite <- Z.pow_add_r by lia. f_equal. lia. }
    assert (Hpy : 2 ^ (ey - emin) = 2 ^ (ey - ez) * 2 ^ (ez - emin)).
    { rewrite <- Z.pow_add_r by lia. f_equal. lia. }
    rewrite Hpx, Hpy. destruct sx, sy; cbn [cond_Zopp]; lia.
Qed.

Lemma SFltb_infinity_l (y : spec_float) : SFltb (S754_infinity false) y = false.
Proof. destruct y as [[]|[]| |[] ? ?]; reflexivity. Qed.

Lemma SFltb_infinity_r (x : spec_float) : SFltb x (S754_infinity true) = false.
Proof. destruct x as [[]|[]| |[] ? ?]; reflexivity. Qed.

Lemma SFltb_irrefl (x : spec_float) : SFltb x x = false.
Proof.
  unfold SFltb. destruct x as [[]|[]| |[] m e]; try reflexivity; cbn [SFcompare];
    rewrite Z.compare_refl;
    change (Pos.compare_cont Eq m m) with (Pos.compare m m);
    rewrite Pos.compare_refl; reflexivity.
Qed.

Lemma finite_not_nan (x : spec_float) : finite_or_zero x = true -> is_nan_sf x = false.
Proof. destruct x; cbn; congruence. Qed.

(** The difference does not decrease when the first argument grows. *)
Lemma SFsub_mono_l (g e h : spec_float) :
  valid_binary g = true -> valid_binary e = true -> valid_binary h = true ->
  valid_binary (SF64sub e h) = true -> valid_binary (SF64sub g h) = true ->
  SFleb g e = true ->
  SFltb (SF64sub e h) (SF64sub g h) = false.
Proof.
  intros Vg Ve Vh Vre Vrg Hle.
  destruct (finite_or_zero h) eqn:Fh.
  2:{ clear Vg Ve Vre Vrg. unfold SF64sub.
      destruct h as [sh|sh| |sh mh eh]; try discriminate.
      - destruct g as [[]|[]| |[] ? ?], e as [[]|[]| |[] ? ?], sh; reflexivity.
      - destruct e; reflexivity. }
  destruct (finite_or_zero e) eqn:Fe.
  2:{ destruct e as [se|[|]| |se me ee]; try discriminate.
      - (* e = -infinity, hence g = -infinity *)
        assert (g = S754_infinity true) as ->.
        { destruct g as [[]|[]| |[] ? ?]; try discriminate; reflexivity. }
        apply SFltb_irrefl.
      - replace (SF64sub (S754_infinity false) h) with (S754_infinity false)
          by (destruct h as [?|?| |? ? ?]; try discriminate; reflexivity).
        apply SFltb_infinity_l.
      - destruct g; discriminate. }
  destruct (finite_or_zero g) eqn:Fg.
  2:{ destruct g as [sg|[|]| |sg mg eg]; try discriminate.
      - replace (SF64sub (S754_infinity true) h) with (S754_infinity true)
          by (destruct h as [?|?| |? ? ?]; try discriminate; reflexivity).
        apply SFltb_infinity_r.
      - destruct e as [[]|[]| |[] ? ?]; discriminate. }
  destruct (SFsub_value e h Ve Vh Fe Fh) as [Ne Hve].
  destruct (SFsub_value g h Vg Vh Fg Fh) as [Ng Hvg].
  rewrite (SFltb_value _ _ Vre Vrg Ne Ng), Hve, Hvg.
  rewrite (SFleb_value _ _ Vg Ve (finite_not_nan _ Fg) (finite_not_nan _ Fe)) in Hle.
  apply Z.leb_le in Hle. apply Z.ltb_ge. apply round_mono. lia.
Qed.

(** Subtracting a value that is not positive does not decrease. *)
Lemma SFsub_nonpos (e h : spec_float) :
  valid_binary e = true -> valid_binary h = true ->
  valid_binary (SF64sub e h) = true ->
  SFleb h (S754_zero false) = true ->
  SFltb (SF64sub e h) e = false.
Proof.
  intros Ve Vh Vr Hle.
  destruct (finite_or_zero h) eqn:Fh.
  2:{ destruct h as [sh|[|]| |sh mh eh]; try discriminate.
      destruct e as [[]|[]| |[] ? ?]; reflexivity. }
  destruct (finite_or_zero e) eqn:Fe.
  2:{ destruct e as [se|se| |se me ee]; try discriminate.
      - replace (SF64sub (S754_infinity se) h) with (S754_infinity se)
          by (destruct h as [?|?| |? ? ?]; try discriminate; reflexivity).
        apply SFltb_irrefl.
      - apply SFltb_nan_r. }
  destruct (SFsub_value e h Ve Vh Fe Fh) as [Nr Hv].
  rewrite (SFltb_value _ _ Vr Ve Nr (finite_not_nan _ Fe)), Hv.
  rewrite (SFleb_value h (S754_zero false) Vh eq_refl (finite_not_nan _ Fh) eq_refl)
    in Hle.
  apply Z.leb_le in Hle. cbn [value] in Hle. apply Z.ltb_ge.
  pose proof (round_value e Ve) as Hr.
  assert (Hre : round (value e) = value e).
  { destruct e; try discriminate; exact Hr. }
  rewrite <- Hre at 1. apply round_mono. lia.
Qed.

(** The same on primitive floats. *)
Lemma sub_valid (x y : float) : valid_binary (SF64sub (Prim2SF x) (Prim2SF y)) = true.
Proof. rewrite <- sub_spec. apply Prim2SF_valid. Qed.

Lemma sub_mono_l (g e h : float) :
  (g <=? e)%float = true -> (e - h <? g - h)%float = false.
Proof.
  rewrite leb_spec, ltb_spec, !sub_spec.
  apply SFsub_mono_l; auto using Prim2SF_valid, sub_valid.
Qed.

Lemma sub_nonpos (e h : float) :
  (h <=? 0)%float = true -> (e - h <? e)%float = false.
Proof.
  rewrite leb_spec, ltb_spec, sub_spec.
  change (Prim2SF 0) with (S754_zero false).
  apply SFsub_nonpos; auto using Prim2SF_valid, sub_valid.
Qed.
End B64Facts.

(* ===================================================================== *)
(** * SpeedPolicy                                                         *)
(* ===================================================================== *)

Lemma FanSpeed_ltb_irrefl (a : FanSpeed) : FanSpeed_ltb a a = false.
Proof. unfold FanSpeed_ltb. lia. Qed.

Lemma FanSpeed_ltb_asym (a b : FanSpeed) :
  FanSpeed_ltb a b = true -> FanSpeed_ltb b a = false.
Proof. unfold FanSpeed_ltb. lia. Qed.

Lemma FanSpeed_eqb_eq (a b : FanSpeed) : FanSpeed_eqb a b = true <-> a = b.
Proof.
  unfold FanSpeed_eqb. split.
  - destruct a, b; cbn; intros H; try reflexivity; discriminate.
  - intros ->. lia.
Qed.

Lemma FanSpeed_eqb_refl (a : FanSpeed) : FanSpeed_eqb a a = true.
Proof. now apply FanSpeed_eqb_eq. Qed.

(** The worked examples of the threshold ladder (53, 54, 59, 64, 70) with a
    hysteresis of 2. *)
Example example_1 :
  determineTargetSpeed default_config 56%float = LOW /\
  checkHysteresis default_config LOW 56%float LOW = true.
Proof. split; reflexivity. Qed.

Example example_2 :
  determineTargetSpeed default_config 57.5%float = LOW /\
  checkHysteresis default_config MEDIUM 57.5%float LOW = false.
Proof. split; reflexivity. Qed.

Example example_3 :
  determineTargetSpeed default_config 0x1.c733333333333p+5%float = LOW /\
  checkHysteresis default_config MEDIUM 0x1.c733333333333p+5%float LOW = true.
Proof. split; reflexivity. Qed.

(** A decrease under a positive hysteresis is decided by one comparison. *)
Lemma checkHysteresis_decrease (cfg : FanControllerConfig)
    (current target : FanSpeed) (temperature : float) :
  (0 <? hysteresis cfg)%float = true ->
  FanSpeed_ltb target current = true ->
  checkHysteresis cfg current temperature target =
  (temperature <=? getThresholdForSpeed cfg target - hysteresis cfg)%float.
Proof.
  intros Hh Hlt. unfold checkHysteresis.
  rewrite (FloatOrder.ltb_not_leb _ _ Hh), (FanSpeed_ltb_asym _ _ Hlt), Hlt.
  reflexivity.
Qed.

Lemma checkHysteresis_increase (cfg : FanControllerConfig)
    (current target : FanSpeed) (temperature : float) :
  FanSpeed_ltb current target = true ->
  checkHysteresis cfg current temperature target = true.
Proof.
  intros Hlt. unfold checkHysteresis. rewrite Hlt.
  destruct (hysteresis cfg <=? 0)%float; reflexivity.
Qed.

(** [determineTargetSpeed] is monotone whatever the table: the comparisons
    are made from the top. *)
Lemma determineTargetSpeed_mono (cfg : FanControllerConfig) (t1 t2 : float) :
  (t1 <=? t2)%float = true ->
  speed_value (determineTargetSpeed cfg t1) <= speed_value (determineTargetSpeed cfg t2).
Proof.
  intros Hle. unfold determineTargetSpeed.
  assert (Hup : forall b, (b <=? t1)%float = true -> (b <=? t2)%float = true)
    by (intros b Hb; exact (FloatOrder.leb_trans _ _ _ Hb Hle)).
  destruct (full_threshold cfg <=? t1)%float eqn:H4; [rewrite (Hup _ H4); cbn; lia|].
  destruct (high_threshold cfg <=? t1)%float eqn:H3;
    [rewrite (Hup _ H3); destruct (full_threshold cfg <=? t2)%float; cbn; lia|].
  destruct (medium_threshold cfg <=? t1)%float eqn:H2;
    [rewrite (Hup _ H2);
     destruct (full_threshold cfg <=? t2)%float, (high_threshold cfg <=? t2)%float;
     cbn; lia|].
  destruct (low_threshold cfg <=? t1)%float eqn:H1;
    [rewrite (Hup _ H1)|];
    destruct (full_threshold cfg <=? t2)%float, (high_threshold cfg <=? t2)%float,
             (medium_threshold cfg <=? t2)%float; cbn; try lia;
    destruct (low_threshold cfg <=? t2)%float; cbn; lia.
Qed.

(** C3: whatever the temperature and the hysteresis, a target above the
    current speed is admitted by [checkHysteresis]. *)
Theorem C3_increase_always_admitted :
  forall (cfg : FanControllerConfig) (current target : FanSpeed) (temperature : float),
    speed_value current < speed_value target ->
    checkHysteresis cfg current temperature target = true.
Proof.
  intros cfg current target temperature Hlt.
  apply checkHysteresis_increase. unfold FanSpeed_ltb. lia.
Qed.

Lemma C3_witness : checkHysteresis default_config LOW 20%float FULL = true.
Proof.
  apply (C3_increase_always_admitted default_config LOW FULL 20%float). cbn. lia.
Defined.

(** C4: with off < low < medium < high < full, [determineTargetSpeed] is the
    descending ladder of inclusive comparisons, is monotonically
    non-decreasing in the temperature, and returns exactly one of the five
    levels. *)
Theorem C4_target_ladder_monotone :
  forall cfg : FanControllerConfig,
    thresholds_ascending cfg ->
    (forall t : float,
        determineTargetSpeed cfg t =
        if (full_threshold cfg <=? t)%float then FULL
        else if (high_threshold cfg <=? t)%float then HIGH
        else if (medium_threshold cfg <=? t)%float then MEDIUM
        else if (low_threshold cfg <=? t)%float then LOW
        else OFF) /\
    (forall t1 t2 : float,
        (t1 <=? t2)%float = true ->
        speed_value (determineTargetSpeed cfg t1) <=
        speed_value (determineTargetSpeed cfg t2)) /\
    (forall t : float,
        exists! level : FanSpeed,
          In level all_speeds /\ determineTargetSpeed cfg t = level).
Proof.
  intros cfg _. split; [|split].
  - reflexivity.
  - apply determineTargetSpeed_mono.
  - intros t. exists (determineTargetSpeed cfg t). split.
    + split; [|reflexivity].
      destruct (determineTargetSpeed cfg t); cbn; tauto.
    + intros level [_ H]. exact H.
Qed.

Lemma C4_witness :
  (speed_value (determineTargetSpeed default_config 55%float) <=?
   speed_value (determineTargetSpeed default_config 65%float)) = true.
Proof.
  apply Z.leb_le.
  refine (proj1 (proj2 (C4_target_ladder_monotone default_config _)) 55%float 65%float _).
  - repeat split.
  - reflexivity.
Defined.

(* ===================================================================== *)

(* ===================================================================== *)
(** * The member functions, path by path                                  *)
(* ===================================================================== *)

Ltac unfold_monad :=
  unfold bind, ret, try_catch, observe, act, call, stream, load_speed, store_speed,
    store_running, load_running, logMessage, logDebug, cerr, print in *.

#[local] Arguments readTemperatureSensor : simpl never.
#[local] Arguments readFanSpeed : simpl never.
#[local] Arguments getAverageTemperature : simpl never.
#[local] Arguments verifyFanSpeedWrite : simpl never.
#[local] Arguments setFanSpeed : simpl never.
#[local] Arguments collect_sensors : simpl never.
#[local] Arguments read_slot : simpl never.
#[local] Arguments run_body : simpl never.
#[local] Arguments initialize : simpl never.

Lemma stdout_lines_app (l1 l2 : list (Stream * Message)) :
  stdout_lines (l1 ++ l2) = stdout_lines l1 ++ stdout_lines l2.
Proof. unfold stdout_lines. now rewrite List.filter_app, List.map_app. Qed.

Section ConstMethods.
Variable E : Env.
Variable config_ : FanControllerConfig.

Lemma emit_nil (s : State E) : emit [] s = s.
Proof. destruct s. unfold emit. cbn. now rewrite app_nil_r. Qed.

Lemma emit_emit (l1 l2 : list (Stream * Message)) (s : State E) :
  emit l2 (emit l1 s) = emit (l1 ++ l2) s.
Proof. unfold emit. cbn. now rewrite app_assoc. Qed.

Lemma print_emit (st : Stream) (m : Message) (s : State E) :
  print E st m s = (Returned tt, emit [(st, m)] s).
Proof. reflexivity. Qed.

(** [readTemperatureSensor] raises what [fs::exists] raises, with nothing
    printed; otherwise it returns what the file holds, or NaN, and prints
    the failure when it is one that is always reported or when the debug
    flag is set. *)
Lemma readTemperatureSensor_spec (path : string) (s : State E) :
  readTemperatureSensor E config_ path s =
  match sensor_reading E (world s) path with
  | Raised what => (Raised what, s)
  | Returned (inl t) => (Returned t, s)
  | Returned (inr f) =>
      (Returned nan,
       emit (if always_reported f || debug config_
             then [(Stderr, failure_message path f)] else []) s)
  end.
Proof.
  unfold readTemperatureSensor, sensor_reading, file_reading. unfold_monad.
  destruct (fs_exists E (world s) path) as [[|]|what]; cbn; [| |reflexivity].
  2:{ destruct (debug config_); cbn; [reflexivity | now rewrite emit_nil]. }
  destruct (ifstream_open E (world s) path) as [content|]; cbn.
  2:{ destruct (debug config_); cbn; [reflexivity | now rewrite emit_nil]. }
  destruct (getline content) as [text|]; cbn.
  2:{ destruct (debug config_); cbn; [reflexivity | now rewrite emit_nil]. }
  destruct (stoi text) as [z| |]; cbn; try reflexivity.
  destruct (z <? 0); cbn.
  { destruct (debug config_); cbn; [reflexivity | now rewrite emit_nil]. }
  destruct ((int_to_double z / 1000 <? -50) || (150 <? int_to_double z / 1000))%float;
    reflexivity.
Qed.

Lemma readTemperatureSensor_report (path : string) (s : State E) :
  readTemperatureSensor E config_ path s =
  (slot_value E config_ s path, emit (slot_report E config_ s path) s).
Proof.
  unfold slot_value, slot_report. rewrite readTemperatureSensor_spec.
  destruct (sensor_reading E (world s) path) as [[t|f]|what]; cbn [fst];
    rewrite ?emit_nil; reflexivity.
Qed.

Lemma slot_value_world (s s' : State E) (path : string) :
  world s' = world s -> slot_value E config_ s' path = slot_value E config_ s path.
Proof.
  intros Hw. unfold slot_value. rewrite !readTemperatureSensor_spec, Hw.
  destruct (sensor_reading E (world s) path) as [[t|f]|what]; reflexivity.
Qed.

Lemma slot_report_world (s s' : State E) (path : string) :
  world s' = world s -> slot_report E config_ s' path = slot_report E config_ s path.
Proof. intros Hw. unfold slot_report. now rewrite Hw. Qed.

(** One slot: a slot without a path is passed over, and nothing is read
    or printed for it. *)
Lemma read_slot_empty (acc : list float * list string) (s : State E) :
  read_slot E config_ "" acc s = (Returned acc, s).
Proof. destruct acc. reflexivity. Qed.

Lemma read_slot_spec (path : string) (temps : list float) (failed : list string)
    (s : State E) :
  String.eqb path "" = false ->
  read_slot E config_ path (temps, failed) s =
  (match slot_value E config_ s path with
   | Raised what => Raised what
   | Returned t =>
       Returned (if is_nan t then (temps, failed ++ [path])
                 else (temps ++ [t], failed))
   end, emit (slot_report E config_ s path) s).
Proof.
  intros Hpath. unfold read_slot. rewrite Hpath. cbn [negb].
  unfold bind. rewrite readTemperatureSensor_report.
  destruct (slot_value E config_ s path) as [t|what]; [|reflexivity].
  destruct (is_nan t); reflexivity.
Qed.

Lemma collect_sensors_spec (s : State E) :
  collect_sensors E config_ s =
  (match slot_values E config_ s with
   | Raised what => Raised what
   | Returned values => Returned (valid_readings values, failed_slots values)
   end, emit (slots_report E config_ s) s).
Proof.
  unfold collect_sensors, slot_values, slots_report, configured_slots. unfold bind.
  cbn [List.filter].
  destruct (String.eqb (temp_hwmon0_path config_) "") eqn:H0; cbn [negb].
  - apply String.eqb_eq in H0. rewrite H0, read_slot_empty.
    destruct (String.eqb (temp_hwmon1_path config_) "") eqn:H1; cbn [negb].
    + apply String.eqb_eq in H1. rewrite H1, read_slot_empty.
      cbn. now rewrite emit_nil.
    + rewrite (read_slot_spec _ _ _ _ H1). cbn [slot_values_of slots_report_of].
      destruct (slot_value E config_ s (temp_hwmon1_path config_)) as [t|what];
        rewrite ?app_nil_r; [|reflexivity].
      unfold valid_readings, failed_slots. cbn [List.map List.filter snd fst].
      destruct (is_nan t); reflexivity.
  - rewrite (read_slot_spec _ _ _ _ H0). cbn [slot_values_of slots_report_of].
    destruct (slot_value E config_ s (temp_hwmon0_path config_)) as [t0|what] eqn:V0;
      rewrite ?app_nil_r; [|reflexivity].
    destruct (String.eqb (temp_hwmon1_path config_) "") eqn:H1; cbn [negb].
    + apply String.eqb_eq in H1. rewrite H1.
      destruct (is_nan t0) eqn:N0; rewrite read_slot_empty;
        cbn [slot_values_of slots_report_of]; rewrite app_nil_r;
        unfold valid_readings, failed_slots; cbn [List.map List.filter snd fst];
        rewrite N0; reflexivity.
    + assert (Hw : world (emit (slot_report E config_ s (temp_hwmon0_path config_)) s)
                   = world s) by reflexivity.
      destruct (is_nan t0) eqn:N0;
        rewrite (read_slot_spec _ _ _ _ H1), emit_emit,
          (slot_value_world _ _ _ Hw), (slot_report_world _ _ _ Hw);
        cbn [slot_values_of slots_report_of];
        destruct (slot_value E config_ s (temp_hwmon1_path config_)) as [t1|what];
        rewrite ?app_nil_r; try reflexivity;
        unfold valid_readings, failed_slots; cbn [List.map List.filter snd fst];
        rewrite N0; cbn [negb]; destruct (is_nan t1); reflexivity.
Qed.

Lemma getAverageTemperature_spec (s : State E) :
  getAverageTemperature E config_ s =
  match slot_values E config_ s with
  | Raised what => (Raised what, emit (slots_report E config_ s) s)
  | Returned values =>
      (Returned (match valid_readings values with
                 | [] => nan
                 | temps => mean temps
                 end),
       emit (slots_report E config_ s ++ summary config_ values) s)
  end.
Proof.
  unfold getAverageTemperature. unfold bind at 1. rewrite collect_sensors_spec.
  destruct (slot_values E config_ s) as [values|what]; [|reflexivity].
  unfold summary.
  destruct (valid_readings values) as [|t temps].
  - unfold_monad. unfold emit. cbn. now rewrite app_assoc.
  - destruct (failed_slots values) as [|p failed].
    + unfold_monad. cbn. now rewrite app_nil_r.
    + unfold_monad. destruct (debug config_); unfold emit; cbn.
      * now rewrite app_assoc.
      * now rewrite app_nil_r.
Qed.
End ConstMethods.

Lemma speed_of_value_inv (v : Z) (l : FanSpeed) :
  speed_of_value v = Some l -> speed_value l = v.
Proof.
  unfold speed_of_value. destruct v as [|p|p]; try discriminate.
  - intros [= <-]. reflexivity.
  - repeat (match goal with q : positive |- _ => destruct q end;
            try discriminate);
      intros [= <-]; reflexivity.
Qed.

Lemma speed_of_value_value (l : FanSpeed) : speed_of_value (speed_value l) = Some l.
Proof. destruct l; reflexivity. Qed.

Lemma speed_value_in_range (speed : FanSpeed) :
  (speed_value speed <? 0) || (4 <? speed_value speed) = false.
Proof. destruct speed; reflexivity. Qed.

Section FanDevice.
Variable E : Env.
Variable config_ : FanControllerConfig.

(** [readFanSpeed] raises what [fs::exists] raises, with nothing printed;
    otherwise it returns the level the file holds, or OFF with one line. *)
Lemma readFanSpeed_reading (s : State E) :
  readFanSpeed E config_ s =
  match fan_reading E config_ (world s) with
  | Raised what => (Raised what, s)
  | Returned (inl level) => (Returned level, s)
  | Returned (inr m) => (Returned OFF, emit [(Stderr, m)] s)
  end.
Proof.
  unfold readFanSpeed, fan_reading, fan_file_reading. unfold_monad.
  destruct (fs_exists E (world s) (fan_path config_)) as [[|]|what]; cbn;
    [| reflexivity | reflexivity].
  destruct (ifstream_open E (world s) (fan_path config_)) as [content|]; cbn;
    [|reflexivity].
  destruct (getline content) as [text|]; cbn; [|reflexivity].
  destruct (stoi text) as [z| |]; cbn; try reflexivity.
  destruct (speed_of_value z); reflexivity.
Qed.

Lemma hardware_speed_reading (s : State E) (w : World E) :
  hardware_speed E config_ s w =
  match fan_reading E config_ w with
  | Raised what => Raised what
  | Returned (inl level) => Returned level
  | Returned (inr _) => Returned OFF
  end.
Proof.
  unfold hardware_speed. rewrite readFanSpeed_reading. cbn [with_world world].
  destruct (fan_reading E config_ w) as [[level|m]|what]; reflexivity.
Qed.

Lemma verifyFanSpeedWrite_reading (expected : FanSpeed) (s : State E) :
  verifyFanSpeedWrite E config_ expected s =
  match fan_reading E config_ (world s) with
  | Raised what => (Raised what, s)
  | Returned (inl level) =>
      if FanSpeed_eqb level expected then (Returned true, s)
      else (Returned false,
            emit [(Stderr, MsgVerifyFailed (speed_value expected)
                             (speed_value level))] s)
  | Returned (inr m) =>
      if FanSpeed_eqb OFF expected then (Returned true, emit [(Stderr, m)] s)
      else (Returned false,
            emit [(Stderr, m);
                  (Stderr, MsgVerifyFailed (speed_value expected) 0)] s)
  end.
Proof.
  unfold verifyFanSpeedWrite. unfold bind at 1. rewrite readFanSpeed_reading.
  destruct (fan_reading E config_ (world s)) as [[level|m]|what]; [| |reflexivity].
  - destruct (FanSpeed_eqb level expected); reflexivity.
  - destruct (FanSpeed_eqb OFF expected); cbn; [reflexivity|].
    unfold_monad. unfold emit. cbn. rewrite <- app_assoc. reflexivity.
Qed.

(** [setFanSpeed], return path by return path: the exception of the
    first [fs::exists] leaves it; whatever is raised from the opening of
    the stream on is caught, printed and turned into [false]. *)
Lemma setFanSpeed_paths_eq (speed : FanSpeed) (s : State E) :
  setFanSpeed E config_ speed s =
  if FanSpeed_eqb speed (current_fan_speed_ s) then (Returned true, s)
  else
    match fs_exists E (world s) (fan_path config_) with
    | Raised what => (Raised what, s)
    | Returned false =>
        (Returned false, emit [(Stderr, MsgFanFileMissing (fan_path config_))] s)
    | Returned true =>
        match ofstream_open E (world s) (fan_path config_) with
        | Threw what w1 =>
            (Returned false,
             emit [(Stderr, MsgSetFailed what (fan_path config_))] (with_world w1 s))
        | Done false w1 =>
            (Returned false,
             emit [(Stderr, MsgFanOpenFailed (fan_path config_))] (with_world w1 s))
        | Done true w1 =>
            match ofstream_put E w1 (fan_path config_) (speed_value speed) with
            | Threw what w2 =>
                (Returned false,
                 emit [(Stderr, MsgSetFailed what (fan_path config_))]
                   (with_world w2 s))
            | Done _ w2 =>
                match verifyFanSpeedWrite E config_ speed
                        (with_world (settled E config_ w2) s) with
                | (Returned true, s') => (Returned true, with_speed speed s')
                | (Returned false, s') => (Returned false, s')
                | (Raised what, s') =>
                    (Returned false,
                     emit [(Stderr, MsgSetFailed what (fan_path config_))] s')
                end
            end
        end
    end.
Proof.
  unfold setFanSpeed, settled.
  unfold bind at 1. unfold load_speed at 1.
  destruct (FanSpeed_eqb speed (current_fan_speed_ s)); [reflexivity|].
  rewrite speed_value_in_range.
  unfold bind at 1. unfold call at 1.
  destruct (fs_exists E (world s) (fan_path config_)) as [[|]|what]; cbn [negb];
    [| reflexivity | reflexivity].
  unfold try_catch. unfold bind at 1. unfold stream at 1.
  destruct (ofstream_open E (world s) (fan_path config_)) as [[|] w1|what w1];
    cbn [negb]; [|reflexivity|reflexivity].
  unfold bind at 1. unfold stream at 1. cbn [world].
  destruct (ofstream_put E w1 (fan_path config_) (speed_value speed))
    as [ok w2|what w2]; [|reflexivity].
  unfold_monad. cbn [world current_fan_speed_ running_ output].
  destruct (posix_open E w2 (fan_path config_)) as [fd w3]. cbn [world].
  unfold with_world, with_speed, emit.
  destruct fd; cbn; [destruct (posix_fsync E w3 (fan_path config_)); cbn|];
    match goal with |- context [verifyFanSpeedWrite E config_ speed ?st] =>
      destruct (verifyFanSpeedWrite E config_ speed st) as [[[|]|what] ?] end;
    reflexivity.
Qed.
End FanDevice.

Section Iteration.
Variable E : Env.
Variable config_ : FanControllerConfig.

(** The body of the loop, path by path: what [getAverageTemperature],
    [setFanSpeed] or the [readFanSpeed] of the resynchronisation raise
    leaves the body, before the [sleep]. *)
Lemma run_body_paths_eq (s : State E) :
  run_body E config_ s =
  match getAverageTemperature E config_ s with
  | (Raised what, s1) => (Raised what, s1)
  | (Returned t, s1) =>
      if is_nan t then
        (Returned tt,
         slept E config_
           (emit (if debug config_ then [(Stderr, MsgSkipCycle)] else []) s1))
      else
        let target := determineTargetSpeed config_ t in
        if checkHysteresis config_ (current_fan_speed_ s1) t target then
          if negb (FanSpeed_eqb target (current_fan_speed_ s1)) then
            match setFanSpeed E config_ target s1 with
            | (Raised what, s2) => (Raised what, s2)
            | (Returned true, s2) =>
                (Returned tt,
                 slept E config_
                   (emit [(Stdout, MsgTransition t (current_fan_speed_ s1) target)]
                      s2))
            | (Returned false, s2) =>
                match readFanSpeed E config_ s2 with
                | (Raised what, s3) => (Raised what, s3)
                | (Returned hw, s3) => (Returned tt, slept E config_ (with_speed hw s3))
                end
            end
          else (Returned tt, slept E config_ (emit [] s1))
        else
          (Returned tt,
           slept E config_
             (emit (if debug config_
                    then [(Stderr, MsgSnapshot t (current_fan_speed_ s1))] else [])
                s1))
  end.
Proof.
  unfold run_body, slept, with_world, with_speed, emit. unfold_monad. cbv beta.
  destruct (getAverageTemperature E config_ s) as [[t|what] s1]; [|reflexivity].
  destruct (is_nan t).
  { destruct (debug config_); cbn; rewrite ?app_nil_r; reflexivity. }
  cbv zeta.
  destruct (checkHysteresis config_ (current_fan_speed_ s1) t
              (determineTargetSpeed config_ t)).
  2:{ destruct (debug config_); cbn; rewrite ?app_nil_r; reflexivity. }
  destruct (FanSpeed_eqb (determineTargetSpeed config_ t) (current_fan_speed_ s1));
    cbn [negb].
  { cbn. rewrite app_nil_r. reflexivity. }
  destruct (setFanSpeed E config_ (determineTargetSpeed config_ t) s1)
    as [[[|]|what] s2]; [reflexivity | | reflexivity].
  destruct (readFanSpeed E config_ s2) as [[hw|what] s3]; reflexivity.
Qed.

(** [initialize], return path by return path. The [fs::exists] at its
    head is the only call of it that can raise: the one of [readFanSpeed]
    asks for the same path in the same environment. *)
Lemma initialize_paths_eq (s : State E) :
  initialize E config_ s =
  match fs_exists E (world s) (fan_path config_) with
  | Raised what => (Raised what, s)
  | Returned false =>
      (Returned false, emit [(Stderr, MsgFanFileMissing (fan_path config_))] s)
  | Returned true =>
      if sensor_configured config_ then
        match readFanSpeed E config_ s with
        | (Raised what, s1) => (Raised what, s1)
        | (Returned hw, s1) =>
            if ordering_rejected config_ then
              (Returned false,
               emit [(Stderr, MsgThresholdsNotAscending)] (with_speed hw s1))
            else
              (Returned true,
               emit [(Stdout, MsgInitialized hw config_)] (with_speed hw s1))
        end
      else (Returned false, emit [(Stderr, MsgNoSensorPaths)] s)
  end.
Proof.
  unfold initialize, sensor_configured, ordering_rejected. unfold_monad. cbv beta.
  destruct (fs_exists E (world s) (fan_path config_)) as [[|]|what]; cbn [negb];
    [| reflexivity | reflexivity].
  destruct ((temp_hwmon0_path config_ =? "")%string &&
            (temp_hwmon1_path config_ =? "")%string); cbn [negb]; [reflexivity|].
  destruct (readFanSpeed E config_ s) as [[hw|what] s1]; [|reflexivity].
  destruct (_ || _ || _ || _)%bool; reflexivity.
Qed.

Lemma readFanSpeed_returns (s : State E) (present : bool) :
  fs_exists E (world s) (fan_path config_) = Returned present ->
  exists hw l,
    readFanSpeed E config_ s = (Returned hw, emit l s) /\ stdout_lines l = [].
Proof.
  intros Hex. rewrite readFanSpeed_reading. unfold fan_reading. rewrite Hex.
  destruct present.
  - destruct (fan_file_reading E config_ (world s)) as [level|m].
    + exists level, []. now rewrite emit_nil.
    + exists OFF, [(Stderr, m)]. split; reflexivity.
  - eexists OFF, [_]. split; reflexivity.
Qed.

(** Printing on stderr only. *)
Lemma stderr_only_refl (s : State E) : stderr_only s s.
Proof. exists []. split; [now rewrite emit_nil | reflexivity]. Qed.

Lemma stderr_only_trans (s1 s2 s3 : State E) :
  stderr_only s1 s2 -> stderr_only s2 s3 -> stderr_only s1 s3.
Proof.
  intros (l1 & -> & H1) (l2 & -> & H2). exists (l1 ++ l2).
  split; [apply emit_emit|]. now rewrite stdout_lines_app, H1, H2.
Qed.

Lemma stderr_only_emit (s : State E) (m : Message) :
  stderr_only s (emit [(Stderr, m)] s).
Proof. exists [(Stderr, m)]. split; reflexivity. Qed.

Lemma stderr_only_frame (s s' : State E) :
  stderr_only s s' ->
  current_fan_speed_ s' = current_fan_speed_ s /\ running_ s' = running_ s /\
  world s' = world s /\ stdout_lines (output s') = stdout_lines (output s).
Proof.
  intros (l & -> & H). unfold emit. cbn [current_fan_speed_ running_ world output].
  rewrite stdout_lines_app, H, app_nil_r. auto.
Qed.

Lemma slot_report_stderr (s : State E) (path : string) :
  stdout_lines (slot_report E config_ s path) = [].
Proof.
  unfold slot_report.
  destruct (sensor_reading E (world s) path) as [[t|f]|what]; try reflexivity.
  destruct (always_reported f || debug config_); reflexivity.
Qed.

Lemma slots_report_stderr (s : State E) :
  stdout_lines (slots_report E config_ s) = [].
Proof.
  unfold slots_report. induction (configured_slots config_) as [|path rest IH];
    [reflexivity|].
  cbn [slots_report_of]. rewrite stdout_lines_app, slot_report_stderr.
  destruct (slot_value E config_ s path); [exact IH | reflexivity].
Qed.

Lemma summary_stderr (values : list (string * float)) :
  stdout_lines (summary config_ values) = [].
Proof.
  unfold summary. destruct (valid_readings values); [reflexivity|].
  destruct (failed_slots values); [reflexivity|].
  destruct (debug config_); reflexivity.
Qed.

Lemma readTemperatureSensor_stderr (path : string) (s : State E) :
  stderr_only s (snd (readTemperatureSensor E config_ path s)).
Proof.
  rewrite readTemperatureSensor_report. cbn [snd].
  eexists. split; [reflexivity | apply slot_report_stderr].
Qed.

Lemma getAverageTemperature_stderr (s : State E) :
  stderr_only s (snd (getAverageTemperature E config_ s)).
Proof.
  rewrite getAverageTemperature_spec.
  destruct (slot_values E config_ s) as [values|what]; cbn [snd];
    (eexists; split; [reflexivity|]).
  - now rewrite stdout_lines_app, slots_report_stderr, summary_stderr.
  - apply slots_report_stderr.
Qed.

Lemma readFanSpeed_stderr (s : State E) :
  stderr_only s (snd (readFanSpeed E config_ s)).
Proof.
  rewrite readFanSpeed_reading.
  destruct (fan_reading E config_ (world s)) as [[level|m]|what];
    [apply stderr_only_refl | apply stderr_only_emit | apply stderr_only_refl].
Qed.

(** [setFanSpeed] prints on stderr only and leaves [running_] alone; the
    speed in memory is the requested one when it returns [true], and the
    one it was otherwise. *)
Lemma setFanSpeed_frame (speed : FanSpeed) (s : State E) :
  let r := setFanSpeed E config_ speed s in
  stdout_lines (output (snd r)) = stdout_lines (output s) /\
  running_ (snd r) = running_ s /\
  current_fan_speed_ (snd r) =
    match fst r with
    | Returned true => speed
    | _ => current_fan_speed_ s
    end.
Proof.
  cbv zeta. rewrite setFanSpeed_paths_eq.
  destruct (FanSpeed_eqb speed (current_fan_speed_ s)) eqn:Heq.
  { apply FanSpeed_eqb_eq in Heq. cbn [fst snd]. auto. }
  destruct (fs_exists E (world s) (fan_path config_)) as [[|]|what];
    [| cbn [fst snd emit output running_ current_fan_speed_];
       rewrite stdout_lines_app, app_nil_r; auto
     | cbn [fst snd]; auto].
  destruct (ofstream_open E (world s) (fan_path config_)) as [[|] w1|what w1].
  2,3: cbn [fst snd emit with_world output running_ current_fan_speed_];
       rewrite stdout_lines_app, app_nil_r; auto.
  destruct (ofstream_put E w1 (fan_path config_) (speed_value speed)) as [ok w2|what w2].
  2: cbn [fst snd emit with_world output running_ current_fan_speed_];
     rewrite stdout_lines_app, app_nil_r; auto.
  rewrite verifyFanSpeedWrite_reading.
  destruct (fan_reading E config_ (world (with_world (settled E config_ w2) s)))
    as [[level|m]|what];
    try match goal with |- context [FanSpeed_eqb ?a ?b] => destruct (FanSpeed_eqb a b) end;
    cbn [fst snd emit with_world with_speed output running_ current_fan_speed_];
    rewrite ?stdout_lines_app, ?app_nil_r; auto.
Qed.
End Iteration.

(* ===================================================================== *)
(** * The claims on sensors                                               *)
(* ===================================================================== *)





(** Two sensors at 50.0 and 60.0 degrees average to 55.0; with the second
    one gone the average is that of the first; with both gone it is NaN. *)
Example average_two_sensors :
  let cfg := {| fan_path := Sim.fan; hwmon0_name := ""; hwmon1_name := "";
                temp_hwmon0_path := Sim.cpu; temp_hwmon1_path := Sim.adc;
                hysteresis := 2; off_threshold := 53; low_threshold := 54;
                medium_threshold := 59; high_threshold := 64; full_threshold := 70;
                interval_seconds := 15; debug := false |} in
  let w := Sim.machine "1" "50000" in
  let w2 := {| Sim.files := <[Sim.adc := Sim.attribute "60000"]> (Sim.files w);
               Sim.held_at := None; Sim.put_fails := false;
               Sim.fsync_fails := false; Sim.signals := [] |} in
  fst (getAverageTemperature Sim.env cfg (Sim.at_speed LOW w2)) = Returned 55%float /\
  fst (getAverageTemperature Sim.env cfg (Sim.at_speed LOW w)) = Returned 50%float /\
  fst (getAverageTemperature Sim.env cfg
         (Sim.at_speed LOW (Sim.without Sim.cpu w))) = Returned nan.
Proof. vm_compute. repeat split. Qed.



(* ===================================================================== *)
(** * The claims on the fan device                                        *)
(* ===================================================================== *)

Section FanDeviceClaims.
Variable E : Env.
Variable config_ : FanControllerConfig.

Lemma verify_true_iff (speed : FanSpeed) (s : State E) :
  (exists s', verifyFanSpeedWrite E config_ speed s = (Returned true, s')) <->
  hardware_speed E config_ s (world s) = Returned speed.
Proof.
  rewrite verifyFanSpeedWrite_reading, hardware_speed_reading.
  destruct (fan_reading E config_ (world s)) as [[level|m]|what].
  - destruct (FanSpeed_eqb level speed) eqn:Heq.
    + apply FanSpeed_eqb_eq in Heq. subst. split; [reflexivity | eauto].
    + split; [intros [s' H]; discriminate|].
      intros [= ->]. rewrite FanSpeed_eqb_refl in Heq. discriminate.
  - destruct (FanSpeed_eqb OFF speed) eqn:Heq.
    + apply FanSpeed_eqb_eq in Heq. subst. split; [reflexivity | eauto].
    + split; [intros [s' H]; discriminate|].
      intros [= <-]. discriminate.
  - split; [intros [s' H]; discriminate | discriminate].
Qed.

Lemma hardware_speed_with_world (s : State E) (w : World E) :
  hardware_speed E config_ (with_world w s) w = hardware_speed E config_ s w.
Proof. now rewrite !hardware_speed_reading. Qed.

(** When [setFanSpeed] returns [true], and when it raises. *)
Lemma setFanSpeed_result (speed : FanSpeed) (s : State E) :
  (fst (setFanSpeed E config_ speed s) = Returned true <->
   speed = current_fan_speed_ s \/ write_verified E config_ speed s) /\
  (forall what,
      fst (setFanSpeed E config_ speed s) = Raised what <->
      speed <> current_fan_speed_ s /\
      fs_exists E (world s) (fan_path config_) = Raised what).
Proof.
  rewrite setFanSpeed_paths_eq. unfold write_verified.
  destruct (FanSpeed_eqb speed (current_fan_speed_ s)) eqn:Heq.
  { apply FanSpeed_eqb_eq in Heq. split.
    - split; [now left | reflexivity].
    - intros what. split; [discriminate | intros [H _]; contradiction]. }
  assert (Hne : speed <> current_fan_speed_ s).
  { intros ->. rewrite FanSpeed_eqb_refl in Heq. discriminate. }
  destruct (fs_exists E (world s) (fan_path config_)) as [[|]|what0] eqn:Hex.
  2:{ split; [|intros what; split; [discriminate | intros [_ H]; discriminate]].
      split; [discriminate | intros [?|[? _]]; congruence]. }
  2:{ split.
      - split; [discriminate | intros [?|[? _]]; congruence].
      - intros what. cbn [fst]. split; [intros [= ->]; auto | intros [_ H]; exact H]. }
  assert (Hnoraise : forall (r : result bool * State E) what,
             (fst r = Raised what <->
              speed <> current_fan_speed_ s /\ Returned true = Raised what) <->
             fst r <> Raised what).
  { intros r what. split.
    - intros H Hr. apply H in Hr as [_ Hr]. discriminate.
    - intros H. split; [contradiction | intros [_ Hr]; discriminate]. }
  destruct (ofstream_open E (world s) (fan_path config_)) as [[|] w1|what1] eqn:Hopen.
  2,3: split; [|intros what; apply Hnoraise; discriminate];
       (split; [discriminate|]);
       intros [?|[_ (? & ? & ? & ? & _)]]; congruence.
  destruct (ofstream_put E w1 (fan_path config_) (speed_value speed))
    as [ok w2|what2] eqn:Hput.
  2:{ split; [|intros what; apply Hnoraise; discriminate].
      split; [discriminate|].
      intros [?|[_ (? & ? & ? & H1 & H2 & _)]]; [congruence|].
      inversion H1; subst. congruence. }
  pose proof (verify_true_iff speed (with_world (settled E config_ w2) s)) as Hv.
  cbn [with_world world] in Hv. rewrite hardware_speed_with_world in Hv.
  destruct (verifyFanSpeedWrite E config_ speed (with_world (settled E config_ w2) s))
    as [[[|]|what3] s'] eqn:Hver.
  - split; [|intros what; apply Hnoraise; discriminate].
    split; [|reflexivity]. intros _. right. split; [reflexivity|].
    exists w1, ok, w2. repeat split; auto. apply Hv. eauto.
  - split; [|intros what; apply Hnoraise; discriminate].
    split; [discriminate|].
    intros [?|[_ (w1' & ok' & w2' & H1 & H2 & H3)]]; [congruence|].
    inversion H1; subst w1'. rewrite Hput in H2. inversion H2; subst ok' w2'.
    apply Hv in H3 as [s'' H3]. discriminate.
  - split; [|intros what; apply Hnoraise; discriminate].
    split; [discriminate|].
    intros [?|[_ (w1' & ok' & w2' & H1 & H2 & H3)]]; [congruence|].
    inversion H1; subst w1'. rewrite Hput in H2. inversion H2; subst ok' w2'.
    apply Hv in H3 as [s'' H3]. discriminate.
Qed.
End FanDeviceClaims.



(** C9: [setFanSpeed] stores into [current_fan_speed_] only after the
    verification has succeeded: on every return of [false], and when an
    exception leaves it, the value in memory is the one it was; and when
    the value has changed the write was verified and the value is the
    requested one. *)
Theorem C9_setFanSpeed_stores_after_verification :
  forall (E : Env) (cfg : FanControllerConfig) (speed : FanSpeed) (s : State E),
    (fst (setFanSpeed E cfg speed s) = Returned false ->
     current_fan_speed_ (snd (setFanSpeed E cfg speed s)) = current_fan_speed_ s) /\
    (forall what,
        fst (setFanSpeed E cfg speed s) = Raised what ->
        current_fan_speed_ (snd (setFanSpeed E cfg speed s)) = current_fan_speed_ s) /\
    (current_fan_speed_ (snd (setFanSpeed E cfg speed s)) <> current_fan_speed_ s ->
     write_verified E cfg speed s /\
     current_fan_speed_ (snd (setFanSpeed E cfg speed s)) = speed).
Proof.
  intros E cfg speed s.
  pose proof (setFanSpeed_frame E cfg speed s) as (_ & _ & Hcur).
  pose proof (setFanSpeed_result E cfg speed s) as [Hok _].
  cbv zeta in Hcur. split; [|split].
  - intros Hf. rewrite Hcur, Hf. reflexivity.
  - intros what Hf. rewrite Hcur, Hf. reflexivity.
  - intros Hne. destruct (fst (setFanSpeed E cfg speed s)) as [[|]|what].
    + destruct (proj1 Hok eq_refl) as [Heq|Hv].
      * rewrite Hcur in Hne. congruence.
      * split; assumption.
    + congruence.
    + congruence.
Qed.

Lemma C9_witness :
  let s := Sim.at_speed LOW (Sim.with_held 3 (Sim.machine "1" "60000")) in
  current_fan_speed_ (snd (setFanSpeed Sim.env Sim.config MEDIUM s)) =
  current_fan_speed_ s.
Proof.
  intros s.
  apply (proj1 (C9_setFanSpeed_stores_after_verification Sim.env Sim.config MEDIUM s)).
  vm_compute. reflexivity.
Defined.

(** The return paths of [setFanSpeed] on the simulated machine: a device
    held at 3 (verification mismatch), a missing device file, a file that
    cannot be opened for writing; the successful write; and a device path
    whose status cannot be determined. *)
Example setFanSpeed_paths :
  let w := Sim.machine "1" "60000" in
  let ended (cfg : FanControllerConfig) (w : Sim.SimWorld) :=
    let r := setFanSpeed Sim.env cfg MEDIUM (Sim.at_speed LOW w) in
    (fst r, current_fan_speed_ (snd r)) in
  ended Sim.config (Sim.with_held 3 w) = (Returned false, LOW) /\
  ended Sim.config (Sim.without Sim.fan w) = (Returned false, LOW) /\
  ended Sim.config
    {| Sim.files :=
         <[Sim.fan := {| Sim.readable := true; Sim.writable := false;
                         Sim.content := "1" |}]> (Sim.files w);
       Sim.held_at := None; Sim.put_fails := false;
       Sim.fsync_fails := false; Sim.signals := [] |} = (Returned false, LOW) /\
  ended Sim.config w = (Returned true, MEDIUM) /\
  ended (with_fan_path long_path Sim.config) w = (Raised Sim.name_too_long, LOW).
Proof. vm_compute. repeat split. Qed.

(* ===================================================================== *)
(** * The claims on the loop                                              *)
(* ===================================================================== *)

Section IterationFacts.
Variable E : Env.
Variable config_ : FanControllerConfig.

Lemma slept_frame (s : State E) :
  current_fan_speed_ (slept E config_ s) = current_fan_speed_ s /\
  running_ (slept E config_ s) = running_ s /\
  output (slept E config_ s) = output s.
Proof. repeat split. Qed.

(** The body never touches [running_], whichever way it ends. *)
Lemma run_body_running (s : State E) :
  running_ (snd (run_body E config_ s)) = running_ s.
Proof.
  rewrite run_body_paths_eq.
  pose proof (getAverageTemperature_stderr E config_ s) as Hq.
  destruct (getAverageTemperature E config_ s) as [[t|what] s1]; cbn [snd] in *;
    apply stderr_only_frame in Hq as (_ & Hr & _); [|exact Hr].
  destruct (is_nan t); [exact Hr|]. cbv zeta.
  destruct (checkHysteresis config_ (current_fan_speed_ s1) t
              (determineTargetSpeed config_ t)); [|exact Hr].
  destruct (FanSpeed_eqb (determineTargetSpeed config_ t) (current_fan_speed_ s1));
    cbn [negb]; [exact Hr|].
  pose proof (setFanSpeed_frame E config_ (determineTargetSpeed config_ t) s1)
    as (_ & Hr2 & _). cbv zeta in Hr2.
  destruct (setFanSpeed E config_ (determineTargetSpeed config_ t) s1)
    as [[[|]|what] s2]; cbn [snd] in *; try (now rewrite <- Hr, <- Hr2).
  pose proof (readFanSpeed_stderr E config_ s2) as Hq3.
  destruct (readFanSpeed E config_ s2) as [[hw|what] s3]; cbn [snd] in *;
    apply stderr_only_frame in Hq3 as (_ & Hr3 & _);
    cbn [slept with_world with_speed running_]; congruence.
Qed.

(** A body that reads an average at which no other speed is asked for
    returns and leaves the speed as it was. *)
Lemma run_body_keeps (s : State E) (t : float) :
  fst (getAverageTemperature E config_ s) = Returned t ->
  requested_speed config_ (current_fan_speed_ s) t = current_fan_speed_ s ->
  fst (run_body E config_ s) = Returned tt /\
  current_fan_speed_ (snd (run_body E config_ s)) = current_fan_speed_ s.
Proof.
  intros Havg Hreq. rewrite run_body_paths_eq.
  pose proof (getAverageTemperature_stderr E config_ s) as Hq.
  destruct (getAverageTemperature E config_ s) as [[t'|what] s1]; cbn [fst snd] in *;
    [|discriminate].
  inversion Havg; subst t'.
  apply stderr_only_frame in Hq as (Hc & _). rewrite Hc.
  unfold requested_speed in Hreq.
  destruct (is_nan t); [split; [reflexivity | exact Hc]|]. cbv zeta.
  destruct (checkHysteresis config_ (current_fan_speed_ s) t
              (determineTargetSpeed config_ t)); [|split; [reflexivity | exact Hc]].
  rewrite Hreq, FanSpeed_eqb_refl. cbn [negb]. split; [reflexivity | exact Hc].
Qed.
End IterationFacts.



Section Loop.
Variable E : Env.
Variable config_ : FanControllerConfig.

Lemma deliver_signals_running (s : State E) :
  running_ (snd (deliver_signals E s)) =
  match fst (take_signal E (world s)) with
  | Some _ => false
  | None => running_ s
  end.
Proof.
  unfold deliver_signals, signalHandler, stop. unfold_monad. cbv beta.
  destruct (take_signal E (world s)) as [[sig|] w]; reflexivity.
Qed.

Lemma signal_before_0 (s : State E) :
  signal_before E config_ 0 s = fst (take_signal E (world s)).
Proof. reflexivity. Qed.

Lemma at_condition_succ (n : nat) (s s' : State E) (u : unit) :
  run_body E config_ (snd (deliver_signals E s)) = (Returned u, s') ->
  at_condition E config_ (S n) s = at_condition E config_ n s'.
Proof. intros H. cbn [at_condition]. now rewrite H. Qed.

Lemma signal_before_succ (n : nat) (s s' : State E) (u : unit) :
  run_body E config_ (snd (deliver_signals E s)) = (Returned u, s') ->
  signal_before E config_ (S n) s = signal_before E config_ n s'.
Proof. intros H. unfold signal_before. now rewrite (at_condition_succ n s s' u H). Qed.

Lemma signal_before_raised (n : nat) (s s' : State E) (what : string) :
  run_body E config_ (snd (deliver_signals E s)) = (Raised what, s') ->
  signal_before E config_ (S n) s = None.
Proof. intros H. unfold signal_before. cbn [at_condition]. now rewrite H. Qed.

(** [run] returns at the first condition before which a signal was
    handled, and nowhere else. *)
Lemma run_loop_exit (fuel : nat) :
  forall (s : State E) (n : nat) (s' : State E),
    running_ s = true ->
    run_loop E config_ fuel s = (n, Some (Returned tt), s') ->
    signal_before E config_ n s <> None /\
    (forall k, (k < n)%nat -> signal_before E config_ k s = None) /\
    running_ s' = false.
Proof.
  induction fuel as [|fuel IH]; intros s n s' Hrun Hloop.
  - cbn in Hloop. discriminate.
  - cbn [run_loop] in Hloop.
    pose proof (deliver_signals_running s) as Hd.
    destruct (fst (take_signal E (world s))) as [sig|] eqn:Hsig.
    + rewrite Hd in Hloop. inversion Hloop; subst.
      rewrite signal_before_0, Hsig.
      repeat split; [discriminate | lia | exact Hd].
    + rewrite Hd, Hrun in Hloop.
      pose proof (run_body_running E config_ (snd (deliver_signals E s))) as Hb.
      destruct (run_body E config_ (snd (deliver_signals E s)))
        as [[u|what] s2] eqn:Hbody; [|discriminate].
      destruct (run_loop E config_ fuel s2) as [[m ended] s''] eqn:Hrec.
      inversion Hloop; subst.
      apply IH in Hrec as (Hs & Hbefore & Hoff).
      2:{ cbn [snd] in Hb. rewrite Hb, Hd. exact Hrun. }
      repeat split.
      * rewrite (signal_before_succ _ _ _ _ Hbody). exact Hs.
      * intros [|k] Hk.
        -- rewrite signal_before_0. exact Hsig.
        -- rewrite (signal_before_succ _ _ _ _ Hbody). apply Hbefore. lia.
      * exact Hoff.
Qed.

Lemma run_loop_signal (n : nat) :
  forall (fuel : nat) (s : State E),
    running_ s = true ->
    (n < fuel)%nat ->
    (forall k, (k < n)%nat -> signal_before E config_ k s = None) ->
    signal_before E config_ n s <> None ->
    exists s', run_loop E config_ fuel s = (n, Some (Returned tt), s') /\
               running_ s' = false.
Proof.
  induction n as [|n IH]; intros fuel s Hrun Hfuel Hbefore Hsig.
  - destruct fuel as [|fuel]; [lia|]. cbn [run_loop].
    pose proof (deliver_signals_running s) as Hd.
    rewrite signal_before_0 in Hsig.
    destruct (fst (take_signal E (world s))); [|contradiction].
    rewrite Hd. eexists. split; [reflexivity | exact Hd].
  - destruct fuel as [|fuel]; [lia|]. cbn [run_loop].
    pose proof (deliver_signals_running s) as Hd.
    pose proof (Hbefore O ltac:(lia)) as H0.
    rewrite signal_before_0 in H0.
    rewrite H0 in Hd. rewrite Hd, Hrun.
    pose proof (run_body_running E config_ (snd (deliver_signals E s))) as Hb.
    destruct (run_body E config_ (snd (deliver_signals E s)))
      as [[u|what] s2] eqn:Hbody.
    2:{ rewrite (signal_before_raised _ _ _ _ Hbody) in Hsig. contradiction. }
    destruct (IH fuel s2) as (s' & Hloop & Hoff).
    + cbn [snd] in Hb. rewrite Hb, Hd. exact Hrun.
    + lia.
    + intros k Hk. rewrite <- (signal_before_succ _ _ _ _ Hbody). apply Hbefore. lia.
    + rewrite <- (signal_before_succ _ _ _ _ Hbody). exact Hsig.
    + rewrite Hloop. exists s'. split; [reflexivity | exact Hoff].
Qed.

Lemma run_loop_starts (fuel : nat) (s : State E) :
  running_ s = true ->
  signal_before E config_ 0 s = None ->
  (1 <= fst (fst (run_loop E config_ (S fuel) s)))%nat.
Proof.
  intros Hrun Hsig. cbn [run_loop].
  pose proof (deliver_signals_running s) as Hd.
  rewrite signal_before_0 in Hsig.
  rewrite Hsig in Hd. rewrite Hd, Hrun.
  destruct (run_body E config_ (snd (deliver_signals E s))) as [[u|what] s2];
    [|cbn; lia].
  destruct (run_loop E config_ fuel s2) as [[m ended] s'']. cbn. lia.
Qed.
End Loop.

(** C10: [run] sets [running_] before the condition of the loop is first
    read, whatever the flag was: a [stop] that completed before [run] is
    forgotten and the body is entered (when no signal is handled between
    the assignment and the first reading of the condition); [run] returns
    exactly at the first reading of the condition that follows the
    handling of a signal, with [running_] false. *)
Theorem C10_run_sets_running_on_entry :
  forall (E : Env) (cfg : FanControllerConfig) (s : State E),
    running_ (entered E s) = true /\
    (forall fuel, run E cfg fuel s = run_loop E cfg fuel (entered E s)) /\
    (forall fuel, run E cfg fuel (snd (stop E s)) = run E cfg fuel s) /\
    (signal_before E cfg 0 (entered E s) = None ->
     forall fuel, (1 <= fst (fst (run E cfg (S fuel) (snd (stop E s)))))%nat) /\
    (forall n fuel,
        (n < fuel)%nat ->
        (forall k, (k < n)%nat -> signal_before E cfg k (entered E s) = None) ->
        signal_before E cfg n (entered E s) <> None ->
        exists s', run E cfg fuel s = (n, Some (Returned tt), s') /\
                   running_ s' = false) /\
    (forall fuel n s',
        run E cfg fuel s = (n, Some (Returned tt), s') ->
        signal_before E cfg n (entered E s) <> None /\
        (forall k, (k < n)%nat -> signal_before E cfg k (entered E s) = None)).
Proof.
  intros E cfg s. split; [reflexivity|]. split; [reflexivity|].
  split; [reflexivity|]. split; [|split].
  - intros Hsig fuel. apply run_loop_starts; [reflexivity | exact Hsig].
  - intros n fuel Hfuel Hbefore Hsig.
    apply run_loop_signal; auto.
  - intros fuel n s' Hrun.
    apply run_loop_exit in Hrun as (H1 & H2 & _); [|reflexivity].
    split; assumption.
Qed.

Lemma C10_witness :
  let s := Sim.at_speed LOW
             (Sim.with_signals [None; None; None; Some 15] (Sim.machine "1" "50000")) in
  exists s', run Sim.env Sim.config 10 s = (3%nat, Some (Returned tt), s') /\
             running_ s' = false.
Proof.
  intros s.
  refine (proj1 (proj2 (proj2 (proj2 (proj2
            (C10_run_sets_running_on_entry Sim.env Sim.config s)))))
            3%nat 10%nat _ _ _).
  - lia.
  - intros [|[|[|k]]] Hk; [vm_compute; reflexivity .. | lia].
  - vm_compute. discriminate.
Defined.

(** A stop before [run], then signal 15 handled during the third
    iteration: three bodies are executed and [run] returns. *)
Example run_after_stop :
  let s := Sim.at_speed LOW
             (Sim.with_signals [None; None; None; Some 15] (Sim.machine "1" "50000")) in
  let r := run Sim.env Sim.config 10 (snd (stop Sim.env s)) in
  running_ (snd (stop Sim.env s)) = false /\
  fst r = (3%nat, Some (Returned tt)) /\ running_ (snd r) = false.
Proof. vm_compute. repeat split. Qed.

(* ===================================================================== *)
(** * No chatter below the entry threshold                                *)
(* ===================================================================== *)

Section Band.
Variable cfg : FanControllerConfig.
Variables (t top : float).
Hypothesis Hlo : (top - hysteresis cfg <? t)%float = true.
Hypothesis Hhi : (t <? top)%float = true.

(** The band below [top] is empty when the hysteresis is switched off. *)
Lemma band_hysteresis_on : (hysteresis cfg <=? 0)%float = false.
Proof.
  destruct (hysteresis cfg <=? 0)%float eqn:Hh; [|reflexivity].
  pose proof (B64Facts.sub_nonpos top _ Hh) as Hn.
  pose proof (FloatOrder.ltb_leb_trans _ _ _ Hlo (FloatOrder.ltb_leb _ _ Hhi)) as Hc.
  congruence.
Qed.

(** No boundary at or below [top] lets [t] pass once the hysteresis is
    taken off. *)
Lemma band_blocks (boundary : float) :
  (boundary <=? top)%float = true ->
  (t <=? boundary - hysteresis cfg)%float = false.
Proof.
  intros Hb. destruct (t <=? boundary - hysteresis cfg)%float eqn:Hle; [|reflexivity].
  pose proof (B64Facts.sub_mono_l _ _ (hysteresis cfg) Hb) as Hm.
  pose proof (FloatOrder.ltb_leb_trans _ _ _ Hlo Hle) as Hc.
  congruence.
Qed.

(** No boundary at or above [top] is reached. *)
Lemma band_below (boundary : float) :
  (top <=? boundary)%float = true ->
  (boundary <=? t)%float = false.
Proof.
  intros Hb. apply FloatOrder.ltb_not_leb.
  exact (FloatOrder.ltb_leb_trans _ _ _ Hhi Hb).
Qed.
End Band.

(** The comparisons between the boundaries of an increasing table. *)
Lemma ascending_leb (cfg : FanControllerConfig) :
  thresholds_ascending cfg ->
  forall a b : FanSpeed,
    LOW = a \/ speed_value LOW < speed_value a ->
    speed_value a <= speed_value b ->
    (entryThreshold cfg a <=? entryThreshold cfg b)%float = true.
Proof.
  intros (H01 & H12 & H23 & H34).
  pose proof (FloatOrder.ltb_leb _ _ H12) as L12.
  pose proof (FloatOrder.ltb_leb _ _ H23) as L23.
  pose proof (FloatOrder.ltb_leb _ _ H34) as L34.
  pose proof (FloatOrder.leb_trans _ _ _ L12 L23) as L13.
  pose proof (FloatOrder.leb_trans _ _ _ L23 L34) as L24.
  pose proof (FloatOrder.leb_trans _ _ _ L13 L34) as L14.
  pose proof (FloatOrder.ltb_leb_refl_l _ _ H12) as L11.
  pose proof (FloatOrder.ltb_leb_refl_l _ _ H23) as L22.
  pose proof (FloatOrder.ltb_leb_refl_l _ _ H34) as L33.
  pose proof (FloatOrder.ltb_leb_refl_r _ _ H34) as L44.
  intros a b Ha Hab.
  destruct a, b; cbn in Ha, Hab |- *; try assumption; try lia;
    destruct Ha; try discriminate; lia.
Qed.

(** In the band below the entry boundary of [S] the only target that is
    admitted is [S]. *)
Lemma band_keeps_speed (cfg : FanControllerConfig) (S : FanSpeed) (t : float) :
  thresholds_ascending cfg ->
  (entryThreshold cfg S - hysteresis cfg <? t)%float = true ->
  (t <? entryThreshold cfg S)%float = true ->
  checkHysteresis cfg S t (determineTargetSpeed cfg t) = true ->
  determineTargetSpeed cfg t = S.
Proof.
  intros Hasc Hlo Hhi.
  pose proof (ascending_leb cfg Hasc) as Hle.
  pose proof (FloatOrder.ltb_leb _ _ (proj1 Hasc)) as L01.
  pose proof (band_blocks cfg t _ Hlo) as Hblock.
  pose proof (band_below t _ Hhi) as Hbelow.
  unfold checkHysteresis, determineTargetSpeed.
  rewrite (band_hysteresis_on cfg t _ Hlo Hhi).
  pose proof (Hle LOW LOW) as L11. pose proof (Hle LOW MEDIUM) as L12.
  pose proof (Hle LOW HIGH) as L13. pose proof (Hle LOW FULL) as L14.
  pose proof (Hle MEDIUM MEDIUM) as L22. pose proof (Hle MEDIUM HIGH) as L23.
  pose proof (Hle MEDIUM FULL) as L24. pose proof (Hle HIGH HIGH) as L33.
  pose proof (Hle HIGH FULL) as L34. pose proof (Hle FULL FULL) as L44.
  cbn in L11, L12, L13, L14, L22, L23, L24, L33, L34, L44.
  specialize (L11 ltac:(now left) ltac:(lia)).
  specialize (L12 ltac:(now left) ltac:(lia)).
  specialize (L13 ltac:(now left) ltac:(lia)).
  specialize (L14 ltac:(now left) ltac:(lia)).
  specialize (L22 ltac:(right; lia) ltac:(lia)).
  specialize (L23 ltac:(right; lia) ltac:(lia)).
  specialize (L24 ltac:(right; lia) ltac:(lia)).
  specialize (L33 ltac:(right; lia) ltac:(lia)).
  specialize (L34 ltac:(right; lia) ltac:(lia)).
  specialize (L44 ltac:(right; lia) ltac:(lia)).
  pose proof (FloatOrder.leb_trans _ _ _ L01 L12) as L02.
  pose proof (FloatOrder.leb_trans _ _ _ L01 L13) as L03.
  pose proof (FloatOrder.leb_trans _ _ _ L01 L14) as L04.
  destruct S; cbn [entryThreshold] in Hblock, Hbelow.
  - rewrite (Hbelow _ L04), (Hbelow _ L03), (Hbelow _ L02), (Hbelow _ L01).
    reflexivity.
  - rewrite (Hbelow _ L14), (Hbelow _ L13), (Hbelow _ L12), (Hbelow _ L11).
    cbn. rewrite (Hblock _ L11). discriminate.
  - rewrite (Hbelow _ L24), (Hbelow _ L23), (Hbelow _ L22).
    destruct (low_threshold cfg <=? t)%float; cbn.
    + rewrite (Hblock _ L22). discriminate.
    + rewrite (Hblock _ L12). discriminate.
  - rewrite (Hbelow _ L34), (Hbelow _ L33).
    destruct (medium_threshold cfg <=? t)%float; cbn;
      [|destruct (low_threshold cfg <=? t)%float; cbn].
    + rewrite (Hblock _ L33). discriminate.
    + rewrite (Hblock _ L23). discriminate.
    + rewrite (Hblock _ L13). discriminate.
  - rewrite (Hbelow _ L44).
    destruct (high_threshold cfg <=? t)%float; cbn;
      [|destruct (medium_threshold cfg <=? t)%float; cbn;
        [|destruct (low_threshold cfg <=? t)%float; cbn]].
    + rewrite (Hblock _ L44). discriminate.
    + rewrite (Hblock _ L34). discriminate.
    + rewrite (Hblock _ L24). discriminate.
    + rewrite (Hblock _ L14). discriminate.
Qed.

(** The same in the band below [getThresholdForSpeed S], the boundary of
    the next speed up. *)
Lemma next_band_keeps_speed (cfg : FanControllerConfig) (S : FanSpeed) (t : float) :
  thresholds_ascending cfg ->
  (getThresholdForSpeed cfg S - hysteresis cfg <? t)%float = true ->
  (t <? getThresholdForSpeed cfg S)%float = true ->
  checkHysteresis cfg S t (determineTargetSpeed cfg t) = true ->
  determineTargetSpeed cfg t = S.
Proof.
  intros Hasc Hlo Hhi.
  pose proof (ascending_leb cfg Hasc) as Hle.
  pose proof (band_blocks cfg t _ Hlo) as Hblock.
  pose proof (band_below t _ Hhi) as Hbelow.
  unfold checkHysteresis, determineTargetSpeed.
  rewrite (band_hysteresis_on cfg t _ Hlo Hhi).
  pose proof (Hle LOW LOW) as L11. pose proof (Hle LOW MEDIUM) as L12.
  pose proof (Hle LOW HIGH) as L13. pose proof (Hle LOW FULL) as L14.
  pose proof (Hle MEDIUM MEDIUM) as L22. pose proof (Hle MEDIUM HIGH) as L23.
  pose proof (Hle MEDIUM FULL) as L24. pose proof (Hle HIGH HIGH) as L33.
  pose proof (Hle HIGH FULL) as L34. pose proof (Hle FULL FULL) as L44.
  cbn in L11, L12, L13, L14, L22, L23, L24, L33, L34, L44.
  specialize (L11 ltac:(now left) ltac:(lia)).
  specialize (L12 ltac:(now left) ltac:(lia)).
  specialize (L13 ltac:(now left) ltac:(lia)).
  specialize (L14 ltac:(now left) ltac:(lia)).
  specialize (L22 ltac:(right; lia) ltac:(lia)).
  specialize (L23 ltac:(right; lia) ltac:(lia)).
  specialize (L24 ltac:(right; lia) ltac:(lia)).
  specialize (L33 ltac:(right; lia) ltac:(lia)).
  specialize (L34 ltac:(right; lia) ltac:(lia)).
  specialize (L44 ltac:(right; lia) ltac:(lia)).
  destruct S; cbn [getThresholdForSpeed] in Hblock, Hbelow.
  - rewrite (Hbelow _ L14), (Hbelow _ L13), (Hbelow _ L12), (Hbelow _ L11).
    reflexivity.
  - rewrite (Hbelow _ L24), (Hbelow _ L23), (Hbelow _ L22).
    destruct (low_threshold cfg <=? t)%float; cbn; [reflexivity|].
    rewrite (Hblock _ L12). discriminate.
  - rewrite (Hbelow _ L34), (Hbelow _ L33).
    destruct (medium_threshold cfg <=? t)%float; cbn; [reflexivity|].
    destruct (low_threshold cfg <=? t)%float; cbn.
    + rewrite (Hblock _ L23). discriminate.
    + rewrite (Hblock _ L13). discriminate.
  - rewrite (Hbelow _ L44).
    destruct (high_threshold cfg <=? t)%float; cbn; [reflexivity|].
    destruct (medium_threshold cfg <=? t)%float; cbn;
      [|destruct (low_threshold cfg <=? t)%float; cbn].
    + rewrite (Hblock _ L34). discriminate.
    + rewrite (Hblock _ L24). discriminate.
    + rewrite (Hblock _ L14). discriminate.
  - rewrite (Hbelow _ L44).
    destruct (high_threshold cfg <=? t)%float; cbn;
      [|destruct (medium_threshold cfg <=? t)%float; cbn;
        [|destruct (low_threshold cfg <=? t)%float; cbn]].
    + rewrite (Hblock _ L44). discriminate.
    + rewrite (Hblock _ L34). discriminate.
    + rewrite (Hblock _ L24). discriminate.
    + rewrite (Hblock _ L14). discriminate.
Qed.

Lemma band_requested (cfg : FanControllerConfig) (S : FanSpeed) (t : float) :
  thresholds_ascending cfg ->
  (entryThreshold cfg S - hysteresis cfg <? t)%float = true ->
  (t <? entryThreshold cfg S)%float = true ->
  requested_speed cfg S t = S.
Proof.
  intros Hasc Hlo Hhi. unfold requested_speed.
  destruct (checkHysteresis cfg S t (determineTargetSpeed cfg t)) eqn:H;
    [apply band_keeps_speed; assumption | reflexivity].
Qed.

(** C2: with a strictly increasing table, at a speed [S] and a temperature
    [t] with [entryThreshold S - hysteresis < t < entryThreshold S], the
    target computed by [determineTargetSpeed] is admitted by
    [checkHysteresis] only when it is [S] itself; evaluating the decision
    again and again at [t] stays at [S], and so does the body of the loop
    whenever the average it reads is [t]. *)
Theorem C2_no_chatter_below_entry_threshold :
  forall (cfg : FanControllerConfig) (S : FanSpeed) (t : float),
    thresholds_ascending cfg ->
    (entryThreshold cfg S - hysteresis cfg <? t)%float = true ->
    (t <? entryThreshold cfg S)%float = true ->
    (checkHysteresis cfg S t (determineTargetSpeed cfg t) = true ->
     determineTargetSpeed cfg t = S) /\
    (forall n : nat, Nat.iter n (fun current => requested_speed cfg current t) S = S) /\
    (forall (E : Env) (s : State E),
        current_fan_speed_ s = S ->
        fst (getAverageTemperature E cfg s) = Returned t ->
        current_fan_speed_ (snd (run_body E cfg s)) = S).
Proof.
  intros cfg S t Hasc Hlo Hhi. split; [|split].
  - apply band_keeps_speed; assumption.
  - intros n. induction n as [|n IH]; [reflexivity|].
    rewrite Nat.iter_succ, IH. apply band_requested; assumption.
  - intros E s Hcur Havg. rewrite <- Hcur.
    apply (run_body_keeps E cfg s t Havg).
    rewrite Hcur. apply band_requested; assumption.
Qed.

Lemma C2_witness :
  (checkHysteresis default_config MEDIUM 58%float
     (determineTargetSpeed default_config 58%float) = true ->
   determineTargetSpeed default_config 58%float = MEDIUM) /\
  (forall n : nat,
      Nat.iter n (fun current => requested_speed default_config current 58%float) MEDIUM
      = MEDIUM) /\
  (forall (E : Env) (s : State E),
      current_fan_speed_ s = MEDIUM ->
      fst (getAverageTemperature E default_config s) = Returned 58%float ->
      current_fan_speed_ (snd (run_body E default_config s)) = MEDIUM).
Proof.
  apply (C2_no_chatter_below_entry_threshold default_config MEDIUM 58%float).
  - repeat split.
  - reflexivity.
  - reflexivity.
Defined.

(** In the band below the entry threshold of MEDIUM the target is LOW and
    the decrease is refused; the same with a margin so wide that the target
    falls two levels. *)
Example band_examples :
  determineTargetSpeed default_config 58%float = LOW /\
  checkHysteresis default_config MEDIUM 58%float LOW = false /\
  (let cfg := {| fan_path := ""; hwmon0_name := ""; hwmon1_name := "";
                 temp_hwmon0_path := ""; temp_hwmon1_path := "";
                 hysteresis := 12; off_threshold := 53; low_threshold := 54;
                 medium_threshold := 59; high_threshold := 64; full_threshold := 70;
                 interval_seconds := 15; debug := false |} in
   determineTargetSpeed cfg 53.5%float = OFF /\
   checkHysteresis cfg HIGH 53.5%float OFF = false).
Proof. repeat split. Qed.

(** C1: for a positive hysteresis and a target below the current speed,
    [checkHysteresis] admits exactly when
    [temperature <= getThresholdForSpeed target - hysteresis], where
    [getThresholdForSpeed] maps OFF to the low, LOW to the medium, MEDIUM to
    the high and HIGH and FULL to the full boundary; with the ladder
    (53, 54, 59, 64, 70) and hysteresis 2, at MEDIUM the drop to 57.5 gives
    target LOW, is not admitted since 57.5 > 59 - 2, and the body of the
    loop leaves the speed at MEDIUM whenever the average it reads is 57.5. *)
Theorem C1_decrease_admitted_iff_below_margin :
  (forall (cfg : FanControllerConfig) (current target : FanSpeed) (temperature : float),
      (0 <? hysteresis cfg)%float = true ->
      FanSpeed_ltb target current = true ->
      (checkHysteresis cfg current temperature target = true <->
       (temperature <=? getThresholdForSpeed cfg target - hysteresis cfg)%float = true)) /\
  (forall cfg : FanControllerConfig,
      getThresholdForSpeed cfg OFF = low_threshold cfg /\
      getThresholdForSpeed cfg LOW = medium_threshold cfg /\
      getThresholdForSpeed cfg MEDIUM = high_threshold cfg /\
      getThresholdForSpeed cfg HIGH = full_threshold cfg /\
      getThresholdForSpeed cfg FULL = full_threshold cfg) /\
  (determineTargetSpeed default_config 57.5%float = LOW /\
   (getThresholdForSpeed default_config LOW - hysteresis default_config)%float = 57%float /\
   (57.5 <=? 57)%float = false /\
   checkHysteresis default_config MEDIUM 57.5%float LOW = false /\
   forall (E : Env) (s : State E),
     current_fan_speed_ s = MEDIUM ->
     fst (getAverageTemperature E default_config s) = Returned 57.5%float ->
     current_fan_speed_ (snd (run_body E default_config s)) = MEDIUM).
Proof.
  split; [|split].
  - intros cfg current target temperature Hh Hlt.
    rewrite (checkHysteresis_decrease cfg current target temperature Hh Hlt).
    reflexivity.
  - intros cfg. repeat split.
  - repeat split. intros E s Hcur Havg. rewrite <- Hcur.
    apply (run_body_keeps E default_config s _ Havg).
    rewrite Hcur. reflexivity.
Qed.

Lemma C1_witness :
  checkHysteresis default_config MEDIUM 56%float LOW = true <->
  (56 <=? getThresholdForSpeed default_config LOW - hysteresis default_config)%float = true.
Proof.
  apply (proj1 C1_decrease_admitted_iff_below_margin default_config MEDIUM LOW 56%float);
    reflexivity.
Defined.

(* ===================================================================== *)
(** * Further properties of the fan device                                *)
(* ===================================================================== *)

(** X1: [readFanSpeed] changes nothing but the printed text; a level other
    than OFF is returned only when the first line of the fan file parses to
    that level, and then nothing is printed; whenever the file is missing,
    cannot be opened, is empty, does not parse or holds a value outside
    [0,4], OFF is returned and exactly one diagnostic goes to stderr,
    whatever the debug flag; and when [fs::exists] raises, the exception
    leaves [readFanSpeed] with nothing printed. *)
Theorem X1_readFanSpeed_fail_safe :
  forall (E : Env) (cfg : FanControllerConfig) (s : State E),
    current_fan_speed_ (snd (readFanSpeed E cfg s)) = current_fan_speed_ s /\
    running_ (snd (readFanSpeed E cfg s)) = running_ s /\
    world (snd (readFanSpeed E cfg s)) = world s /\
    (forall level,
        fst (readFanSpeed E cfg s) = Returned level -> level <> OFF ->
        output (snd (readFanSpeed E cfg s)) = output s /\
        exists content text,
          ifstream_open E (world s) (fan_path cfg) = Some content /\
          getline content = Some text /\
          stoi text = StoiValue (speed_value level)) /\
    (forall m, fan_reading E cfg (world s) = Returned (inr m) ->
     fst (readFanSpeed E cfg s) = Returned OFF /\
     output (snd (readFanSpeed E cfg s)) = output s ++ [(Stderr, m)]) /\
    (forall what, fs_exists E (world s) (fan_path cfg) = Raised what ->
     readFanSpeed E cfg s = (Raised what, s)).
Proof.
  intros E cfg s. rewrite readFanSpeed_reading.
  destruct (fan_reading E cfg (world s)) as [[level|m]|what] eqn:Hr; cbn [fst snd].
  - split; [reflexivity|]. split; [reflexivity|]. split; [reflexivity|].
    split; [|split; [discriminate|]].
    + intros level' [= <-] Hne. split; [reflexivity|]. unfold fan_reading in Hr.
      destruct (fs_exists E (world s) (fan_path cfg)) as [[|]|what]; try discriminate.
      unfold fan_file_reading in Hr.
      destruct (ifstream_open E (world s) (fan_path cfg)) as [content|] eqn:Ho;
        [|discriminate].
      destruct (getline content) as [text|] eqn:Hg; [|discriminate].
      destruct (stoi text) as [v| |] eqn:Hs; try discriminate.
      destruct (speed_of_value v) as [l|] eqn:Hv; [|discriminate].
      inversion Hr; subst l. exists content, text.
      split; [reflexivity|]. split; [exact Hg|]. rewrite Hs. f_equal.
      symmetry. apply speed_of_value_inv. exact Hv.
    + intros what Hex. unfold fan_reading in Hr. rewrite Hex in Hr. discriminate.
  - split; [reflexivity|]. split; [reflexivity|]. split; [reflexivity|].
    split; [intros level' [= <-] Hne; contradiction|]. split.
    + intros m' [= <-]. split; reflexivity.
    + intros what Hex. unfold fan_reading in Hr. rewrite Hex in Hr. discriminate.
  - split; [reflexivity|]. split; [reflexivity|]. split; [reflexivity|].
    split; [discriminate|]. split; [discriminate|].
    intros what' Hex. unfold fan_reading in Hr. rewrite Hex in Hr.
    inversion Hr. reflexivity.
Qed.

(** X2: after a [setFanSpeed] that returned true for a level other than the
    one held in memory, an immediate [readFanSpeed] returns that level. *)
Theorem X2_write_then_read :
  forall (E : Env) (cfg : FanControllerConfig) (speed : FanSpeed) (s : State E),
    speed <> current_fan_speed_ s ->
    fst (setFanSpeed E cfg speed s) = Returned true ->
    fst (readFanSpeed E cfg (snd (setFanSpeed E cfg speed s))) = Returned speed.
Proof.
  intros E cfg speed s Hne. rewrite setFanSpeed_paths_eq.
  destruct (FanSpeed_eqb speed (current_fan_speed_ s)) eqn:Heq.
  { apply FanSpeed_eqb_eq in Heq. contradiction. }
  destruct (fs_exists E (world s) (fan_path cfg)) as [[|]|what0]; try discriminate.
  destruct (ofstream_open E (world s) (fan_path cfg)) as [[|] w1|what w1];
    try discriminate.
  destruct (ofstream_put E w1 (fan_path cfg) (speed_value speed)) as [ok w2|what w2];
    try discriminate.
  rewrite verifyFanSpeedWrite_reading.
  set (w := settled E cfg w2).
  destruct (fan_reading E cfg (world (with_world w s))) as [[level|m]|what] eqn:Hr;
    [| |discriminate].
  - destruct (FanSpeed_eqb level speed) eqn:Hl; [|discriminate].
    intros _. cbn [snd]. rewrite readFanSpeed_reading. cbn [with_speed world] in *.
    rewrite Hr. cbn [fst]. f_equal. apply FanSpeed_eqb_eq. exact Hl.
  - destruct (FanSpeed_eqb OFF speed) eqn:Hl; [|discriminate].
    intros _. cbn [snd]. rewrite readFanSpeed_reading.
    cbn [with_speed emit world] in *. rewrite Hr. cbn [fst]. f_equal.
    apply FanSpeed_eqb_eq. exact Hl.
Qed.

Lemma X2_witness :
  fst (readFanSpeed Sim.env Sim.config
         (snd (setFanSpeed Sim.env Sim.config HIGH
                 (Sim.at_speed LOW (Sim.machine "1" "66000"))))) = Returned HIGH.
Proof.
  apply (X2_write_then_read Sim.env Sim.config HIGH
           (Sim.at_speed LOW (Sim.machine "1" "66000"))).
  - discriminate.
  - vm_compute. reflexivity.
Defined.

(** X3: [setFanSpeed] never fails silently and never touches [running_]:
    whenever it returns false at least one line has been added to stderr;
    when the device file does not exist it is not opened at all (the
    environment is the one it was); and when the [fs::exists] before the
    write raises, the exception leaves it with the state untouched. *)
Theorem X3_setFanSpeed_failure_is_reported :
  forall (E : Env) (cfg : FanControllerConfig) (speed : FanSpeed) (s : State E),
    running_ (snd (setFanSpeed E cfg speed s)) = running_ s /\
    (fst (setFanSpeed E cfg speed s) = Returned false ->
     exists m l, output (snd (setFanSpeed E cfg speed s)) = output s ++ (Stderr, m) :: l) /\
    (fs_exists E (world s) (fan_path cfg) = Returned false ->
     world (snd (setFanSpeed E cfg speed s)) = world s) /\
    (forall what,
        fst (setFanSpeed E cfg speed s) = Raised what ->
        snd (setFanSpeed E cfg speed s) = s).
Proof.
  intros E cfg speed s. rewrite setFanSpeed_paths_eq.
  destruct (FanSpeed_eqb speed (current_fan_speed_ s)).
  { repeat split; discriminate. }
  destruct (fs_exists E (world s) (fan_path cfg)) as [[|]|what0].
  2:{ repeat split; try discriminate. intros _. eexists _, []. reflexivity. }
  2:{ repeat split; discriminate. }
  destruct (ofstream_open E (world s) (fan_path cfg)) as [[|] w1|what w1].
  2,3: repeat split; try discriminate; intros _; eexists _, []; reflexivity.
  destruct (ofstream_put E w1 (fan_path cfg) (speed_value speed)) as [ok w2|what w2].
  2: repeat split; try discriminate; intros _; eexists _, []; reflexivity.
  rewrite verifyFanSpeedWrite_reading.
  destruct (fan_reading E cfg (world (with_world (settled E cfg w2) s)))
    as [[level|m]|what].
  - destruct (FanSpeed_eqb level speed); repeat split; try discriminate.
    intros _. eexists _, []. reflexivity.
  - destruct (FanSpeed_eqb OFF speed); repeat split; try discriminate.
    intros _. eexists _, [_]. reflexivity.
  - repeat split; try discriminate. intros _. eexists _, []. reflexivity.
Qed.

(** X4: the verification of a write of OFF cannot tell a fan file that
    reads 0 from one that cannot be read: when the file cannot be read back
    after the write, [setFanSpeed OFF] returns true and OFF is stored, while
    for every other level it returns false. *)
Theorem X4_OFF_verified_by_failed_read :
  forall (E : Env) (cfg : FanControllerConfig) (speed : FanSpeed) (s : State E)
         (w1 w2 : World E) (ok : bool) (m : Message),
    speed <> current_fan_speed_ s ->
    fs_exists E (world s) (fan_path cfg) = Returned true ->
    ofstream_open E (world s) (fan_path cfg) = Done true w1 ->
    ofstream_put E w1 (fan_path cfg) (speed_value speed) = Done ok w2 ->
    fan_reading E cfg (settled E cfg w2) = Returned (inr m) ->
    fst (setFanSpeed E cfg speed s) = Returned (FanSpeed_eqb OFF speed) /\
    (speed = OFF -> current_fan_speed_ (snd (setFanSpeed E cfg speed s)) = OFF).
Proof.
  intros E cfg speed s w1 w2 ok m Hne Hex Hopen Hput Hr.
  rewrite setFanSpeed_paths_eq, Hex, Hopen, Hput, verifyFanSpeedWrite_reading.
  destruct (FanSpeed_eqb speed (current_fan_speed_ s)) eqn:Heq.
  { apply FanSpeed_eqb_eq in Heq. contradiction. }
  cbn [with_world world]. rewrite Hr.
  destruct (FanSpeed_eqb OFF speed) eqn:Hoff; (split; [reflexivity|]); intros ->.
  - reflexivity.
  - discriminate Hoff.
Qed.

Lemma X4_witness :
  fst (setFanSpeed Sim.env Sim.config OFF (Sim.at_speed LOW write_only_fan)) =
    Returned (FanSpeed_eqb OFF OFF) /\
  (OFF = OFF ->
   current_fan_speed_
     (snd (setFanSpeed Sim.env Sim.config OFF (Sim.at_speed LOW write_only_fan))) = OFF).
Proof.
  eapply (X4_OFF_verified_by_failed_read Sim.env Sim.config OFF
            (Sim.at_speed LOW write_only_fan)).
  - discriminate.
  - reflexivity.
  - reflexivity.
  - reflexivity.
  - vm_compute. reflexivity.
Defined.

(* ===================================================================== *)
(** * Further properties of one iteration                                 *)
(* ===================================================================== *)

(** X5: when no temperature is available (the average is NaN), or the
    speed asked for is the one in memory, the body of the loop returns
    and does nothing to the machine but sleep for the interval: no file is
    written, and the speed, the flag and stdout are as before. *)
Theorem X5_idle_iteration :
  forall (E : Env) (cfg : FanControllerConfig) (s : State E) (t : float),
    fst (getAverageTemperature E cfg s) = Returned t ->
    is_nan t = true \/
    requested_speed cfg (current_fan_speed_ s) t = current_fan_speed_ s ->
    fst (run_body E cfg s) = Returned tt /\
    world (snd (run_body E cfg s)) = sleep E (world s) (interval_seconds cfg) /\
    current_fan_speed_ (snd (run_body E cfg s)) = current_fan_speed_ s /\
    running_ (snd (run_body E cfg s)) = running_ s /\
    stdout_lines (output (snd (run_body E cfg s))) = stdout_lines (output s).
Proof.
  intros E cfg s t Havg. rewrite run_body_paths_eq.
  pose proof (getAverageTemperature_stderr E cfg s) as Hq.
  destruct (getAverageTemperature E cfg s) as [[t'|what] s1]; cbn [fst snd] in *;
    [|discriminate].
  inversion Havg; subst t'.
  apply stderr_only_frame in Hq as (Hc & Hr & Hw & Ho).
  intros H. rewrite Hc.
  assert (Hidle : forall l, stdout_lines l = [] ->
    world (slept E cfg (emit l s1)) = sleep E (world s) (interval_seconds cfg) /\
    current_fan_speed_ (slept E cfg (emit l s1)) = current_fan_speed_ s /\
    running_ (slept E cfg (emit l s1)) = running_ s /\
    stdout_lines (output (slept E cfg (emit l s1))) = stdout_lines (output s)).
  { intros l Hl. unfold slept, with_world, emit.
    cbn [world current_fan_speed_ running_ output].
    rewrite stdout_lines_app, Hl, app_nil_r, Hw. auto. }
  destruct (is_nan t) eqn:Hnan.
  { cbn [fst snd]. split; [reflexivity|]. apply Hidle. destruct (debug cfg); reflexivity. }
  destruct H as [H|H]; [discriminate|]. unfold requested_speed in H. cbv zeta.
  destruct (checkHysteresis cfg (current_fan_speed_ s) t (determineTargetSpeed cfg t)).
  - rewrite H, FanSpeed_eqb_refl. cbn [negb fst snd].
    split; [reflexivity|]. apply Hidle. reflexivity.
  - cbn [fst snd]. split; [reflexivity|]. apply Hidle.
    destruct (debug cfg); reflexivity.
Qed.

Lemma X5_witness :
  let s := Sim.at_speed LOW (Sim.without Sim.cpu (Sim.machine "1" "50000")) in
  fst (run_body Sim.env Sim.config s) = Returned tt /\
  world (snd (run_body Sim.env Sim.config s)) =
    sleep Sim.env (world s) (interval_seconds Sim.config) /\
  current_fan_speed_ (snd (run_body Sim.env Sim.config s)) = current_fan_speed_ s /\
  running_ (snd (run_body Sim.env Sim.config s)) = running_ s /\
  stdout_lines (output (snd (run_body Sim.env Sim.config s))) = stdout_lines (output s).
Proof.
  intros s. apply (X5_idle_iteration Sim.env Sim.config s nan).
  - vm_compute. reflexivity.
  - left. reflexivity.
Defined.

(** X6: the body of the loop changes the speed held in memory only in two
    ways: to the target, after a write that was verified on the device, or
    to what [readFanSpeed] reads after a write that failed. *)
Theorem X6_speed_changes_only_on_evidence :
  forall (E : Env) (cfg : FanControllerConfig) (s : State E),
    current_fan_speed_ (snd (run_body E cfg s)) <> current_fan_speed_ s ->
    exists (t : float) (s1 : State E),
      getAverageTemperature E cfg s = (Returned t, s1) /\
      let target := determineTargetSpeed cfg t in
      (write_verified E cfg target s1 /\
       current_fan_speed_ (snd (run_body E cfg s)) = target) \/
      (fst (setFanSpeed E cfg target s1) = Returned false /\
       fst (readFanSpeed E cfg (snd (setFanSpeed E cfg target s1))) =
         Returned (current_fan_speed_ (snd (run_body E cfg s)))).
Proof.
  intros E cfg s. rewrite run_body_paths_eq.
  pose proof (getAverageTemperature_stderr E cfg s) as Hq.
  destruct (getAverageTemperature E cfg s) as [[t|what] s1]; cbn [fst snd] in *;
    apply stderr_only_frame in Hq as (Hc & _); [|intros Hne; contradiction].
  intros Hne. exists t, s1. split; [reflexivity|]. cbv zeta in *.
  destruct (is_nan t); [contradiction|].
  destruct (checkHysteresis cfg (current_fan_speed_ s1) t (determineTargetSpeed cfg t));
    [|contradiction].
  destruct (FanSpeed_eqb (determineTargetSpeed cfg t) (current_fan_speed_ s1)) eqn:Heq;
    cbn [negb] in *; [contradiction|].
  pose proof (setFanSpeed_result E cfg (determineTargetSpeed cfg t) s1) as [Hok _].
  pose proof (setFanSpeed_frame E cfg (determineTargetSpeed cfg t) s1) as (_ & _ & Hcur).
  cbv zeta in Hcur.
  destruct (setFanSpeed E cfg (determineTargetSpeed cfg t) s1) as [[[|]|what] s2];
    cbn [fst snd] in *.
  - left. split; [|exact Hcur].
    destruct (proj1 Hok eq_refl) as [Hsame|Hv]; [|exact Hv].
    rewrite Hsame in Heq. rewrite FanSpeed_eqb_refl in Heq. discriminate.
  - right. split; [reflexivity|].
    pose proof (readFanSpeed_stderr E cfg s2) as Hq3.
    destruct (readFanSpeed E cfg s2) as [[hw|what] s3]; cbn [fst snd] in *.
    + reflexivity.
    + apply stderr_only_frame in Hq3 as (H3 & _). congruence.
  - congruence.
Qed.

Lemma X6_witness :
  let s := Sim.at_speed LOW (Sim.with_held 3 (Sim.machine "1" "60000")) in
  exists (t : float) (s1 : State Sim.env),
    getAverageTemperature Sim.env Sim.config s = (Returned t, s1) /\
    let target := determineTargetSpeed Sim.config t in
    (write_verified Sim.env Sim.config target s1 /\
     current_fan_speed_ (snd (run_body Sim.env Sim.config s)) = target) \/
    (fst (setFanSpeed Sim.env Sim.config target s1) = Returned false /\
     fst (readFanSpeed Sim.env Sim.config
            (snd (setFanSpeed Sim.env Sim.config target s1))) =
       Returned (current_fan_speed_ (snd (run_body Sim.env Sim.config s)))).
Proof.
  intros s.
  apply (X6_speed_changes_only_on_evidence Sim.env Sim.config s).
  vm_compute. discriminate.
Defined.

(** X7: stdout carries the transitions and nothing else: the body of the
    loop adds one line to it, "T:<average> S:<old> -> <target>", exactly
    when it attempted a write and [setFanSpeed] returned true, and then the
    speed in memory is the target; a body that an exception leaves has
    added nothing to stdout. *)
Theorem X7_stdout_records_transitions :
  forall (E : Env) (cfg : FanControllerConfig) (s : State E),
    match getAverageTemperature E cfg s with
    | (Returned t, s1) =>
        let target := determineTargetSpeed cfg t in
        let attempted :=
          negb (is_nan t) && checkHysteresis cfg (current_fan_speed_ s) t target
          && negb (FanSpeed_eqb target (current_fan_speed_ s)) in
        let written :=
          attempted && returned_true (fst (setFanSpeed E cfg target s1)) in
        stdout_lines (output (snd (run_body E cfg s))) =
          stdout_lines (output s) ++
          (if written then [MsgTransition t (current_fan_speed_ s) target] else []) /\
        (written = true ->
         fst (run_body E cfg s) = Returned tt /\
         current_fan_speed_ (snd (run_body E cfg s)) = target)
    | (Raised _, _) =>
        stdout_lines (output (snd (run_body E cfg s))) = stdout_lines (output s)
    end.
Proof.
  intros E cfg s. rewrite run_body_paths_eq.
  pose proof (getAverageTemperature_stderr E cfg s) as Hq.
  destruct (getAverageTemperature E cfg s) as [[t|what] s1]; cbn [fst snd] in *;
    apply stderr_only_frame in Hq as (Hc & Hr & Hw & Ho); [|exact Ho].
  cbv zeta. rewrite Hc.
  assert (Hidle : forall l, stdout_lines l = [] ->
    stdout_lines (output (slept E cfg (emit l s1))) = stdout_lines (output s) ++ []).
  { intros l Hl. unfold slept, with_world, emit. cbn [output].
    rewrite stdout_lines_app, Hl, !app_nil_r. exact Ho. }
  destruct (is_nan t); cbn [negb andb snd].
  { split; [|discriminate]. apply Hidle. destruct (debug cfg); reflexivity. }
  destruct (checkHysteresis cfg (current_fan_speed_ s) t (determineTargetSpeed cfg t));
    cbn [andb snd].
  2:{ split; [|discriminate]. apply Hidle. destruct (debug cfg); reflexivity. }
  destruct (FanSpeed_eqb (determineTargetSpeed cfg t) (current_fan_speed_ s));
    cbn [negb andb snd].
  { split; [|discriminate]. apply Hidle. reflexivity. }
  pose proof (setFanSpeed_frame E cfg (determineTargetSpeed cfg t) s1) as (Hs & _ & Hcur).
  cbv zeta in Hs, Hcur.
  destruct (setFanSpeed E cfg (determineTargetSpeed cfg t) s1) as [[[|]|what] s2];
    cbn [fst snd returned_true] in *.
  - split; [|intros _; split; [reflexivity | exact Hcur]].
    unfold slept, with_world, emit. cbn [output].
    rewrite stdout_lines_app, Hs, Ho. reflexivity.
  - split; [|discriminate].
    pose proof (readFanSpeed_stderr E cfg s2) as H3.
    destruct (readFanSpeed E cfg s2) as [[hw|what] s3]; cbn [snd] in *;
      apply stderr_only_frame in H3 as (_ & _ & _ & H3);
      unfold slept, with_world, with_speed; cbn [output];
      rewrite ?H3, Hs, Ho, app_nil_r; reflexivity.
  - split; [|discriminate]. now rewrite Hs, Ho, app_nil_r.
Qed.

(* ===================================================================== *)
(** * NaN in comparisons and differences                                  *)
(* ===================================================================== *)

Module FloatNaN.

Lemma SFeqb_refl (x : spec_float) : SFeqb x x = negb (B64.is_nan_sf x).
Proof.
  unfold SFeqb. destruct x as [[]|[]| |[] m e]; try reflexivity; cbn [SFcompare];
    rewrite Z.compare_refl;
    change (Pos.compare_cont Eq m m) with (Pos.compare m m);
    rewrite Pos.compare_refl; reflexivity.
Qed.

Lemma is_nan_Prim2SF (x : float) : is_nan x = B64.is_nan_sf (Prim2SF x).
Proof.
  unfold is_nan. rewrite FloatAxioms.eqb_spec, SFeqb_refl. apply negb_involutive.
Qed.

Lemma leb_nan_l (x y : float) : is_nan x = true -> (x <=? y)%float = false.
Proof.
  rewrite is_nan_Prim2SF, leb_spec. destruct (Prim2SF x); try discriminate. reflexivity.
Qed.

Lemma leb_nan_r (x y : float) : is_nan y = true -> (x <=? y)%float = false.
Proof.
  rewrite is_nan_Prim2SF, leb_spec. destruct (Prim2SF y); try discriminate.
  intros _. destruct (Prim2SF x); reflexivity.
Qed.

Lemma ltb_nan_l (x y : float) : is_nan x = true -> (x <? y)%float = false.
Proof.
  rewrite is_nan_Prim2SF, ltb_spec. destruct (Prim2SF x); try discriminate. reflexivity.
Qed.

Lemma ltb_nan_r (x y : float) : is_nan y = true -> (x <? y)%float = false.
Proof.
  rewrite is_nan_Prim2SF, ltb_spec. destruct (Prim2SF y); try discriminate.
  intros _. destruct (Prim2SF x); reflexivity.
Qed.

Lemma sub_nan_r (x y : float) : is_nan y = true -> is_nan (x - y) = true.
Proof.
  rewrite !is_nan_Prim2SF, sub_spec. destruct (Prim2SF y); try discriminate.
  intros _. destruct (Prim2SF x); reflexivity.
Qed.

(** Two values that are not NaN are comparable. *)
Lemma leb_false_ltb (x y : float) :
  is_nan x = false -> is_nan y = false ->
  (y <=? x)%float = false -> (x <? y)%float = true.
Proof.
  intros Nx Ny H. rewrite is_nan_Prim2SF in Nx, Ny.
  rewrite leb_spec in H. rewrite ltb_spec. unfold SFleb, SFltb in *.
  rewrite (FloatOrder.SFcompare_antisym (Prim2SF x) (Prim2SF y)) in H.
  destruct (SFcompare (Prim2SF x) (Prim2SF y)) as [[]|] eqn:Hc;
    cbn in H; try congruence.
  destruct (Prim2SF x) as [[]|[]| |[] ? ?], (Prim2SF y) as [[]|[]| |[] ? ?];
    discriminate.
Qed.

Lemma ltb_false_leb (x y : float) :
  is_nan x = false -> is_nan y = false ->
  (y <? x)%float = false -> (x <=? y)%float = true.
Proof.
  intros Nx Ny H. rewrite is_nan_Prim2SF in Nx, Ny.
  rewrite ltb_spec in H. rewrite leb_spec. unfold SFleb, SFltb in *.
  rewrite (FloatOrder.SFcompare_antisym (Prim2SF x) (Prim2SF y)) in H.
  destruct (SFcompare (Prim2SF x) (Prim2SF y)) as [[]|] eqn:Hc;
    cbn in H; try congruence.
  destruct (Prim2SF x) as [[]|[]| |[] ? ?], (Prim2SF y) as [[]|[]| |[] ? ?];
    discriminate.
Qed.

Lemma ltb_not_nan (x y : float) :
  (x <? y)%float = true -> is_nan x = false /\ is_nan y = false.
Proof.
  intros H. split.
  - destruct (is_nan x) eqn:N; [|reflexivity]. rewrite (ltb_nan_l _ _ N) in H. discriminate.
  - destruct (is_nan y) eqn:N; [|reflexivity]. rewrite (ltb_nan_r _ _ N) in H. discriminate.
Qed.

End FloatNaN.

(* ===================================================================== *)
(** * Further properties of the speed policy                              *)
(* ===================================================================== *)

(** X8: with a strictly increasing table each level is the target on its
    own band and nowhere else: FULL from the full boundary up, HIGH from
    the high boundary up to below the full one, and so on down to OFF below
    the low boundary; a NaN temperature gives OFF. *)
Theorem X8_target_bands :
  forall (cfg : FanControllerConfig) (t : float),
    thresholds_ascending cfg ->
    (determineTargetSpeed cfg t = FULL <-> (full_threshold cfg <=? t)%float = true) /\
    (determineTargetSpeed cfg t = HIGH <->
     (high_threshold cfg <=? t)%float = true /\ (full_threshold cfg <=? t)%float = false) /\
    (determineTargetSpeed cfg t = MEDIUM <->
     (medium_threshold cfg <=? t)%float = true /\ (high_threshold cfg <=? t)%float = false) /\
    (determineTargetSpeed cfg t = LOW <->
     (low_threshold cfg <=? t)%float = true /\ (medium_threshold cfg <=? t)%float = false) /\
    (determineTargetSpeed cfg t = OFF <-> (low_threshold cfg <=? t)%float = false) /\
    (is_nan t = true -> determineTargetSpeed cfg t = OFF).
Proof.
  intros cfg t (H01 & H12 & H23 & H34).
  pose proof (FloatOrder.ltb_leb _ _ H12) as L12.
  pose proof (FloatOrder.ltb_leb _ _ H23) as L23.
  pose proof (FloatOrder.ltb_leb _ _ H34) as L34.
  assert (U34 : (full_threshold cfg <=? t)%float = true ->
                (high_threshold cfg <=? t)%float = true)
    by (intros H; exact (FloatOrder.leb_trans _ _ _ L34 H)).
  assert (U23 : (high_threshold cfg <=? t)%float = true ->
                (medium_threshold cfg <=? t)%float = true)
    by (intros H; exact (FloatOrder.leb_trans _ _ _ L23 H)).
  assert (U12 : (medium_threshold cfg <=? t)%float = true ->
                (low_threshold cfg <=? t)%float = true)
    by (intros H; exact (FloatOrder.leb_trans _ _ _ L12 H)).
  unfold determineTargetSpeed.
  split; [|split; [|split; [|split; [|split]]]].
  6:{ intros N. rewrite !(FloatNaN.leb_nan_r _ t N). reflexivity. }
  all: destruct (full_threshold cfg <=? t)%float eqn:C4;
    destruct (high_threshold cfg <=? t)%float eqn:C3;
    destruct (medium_threshold cfg <=? t)%float eqn:C2;
    destruct (low_threshold cfg <=? t)%float eqn:C1;
    try specialize (U34 eq_refl); try specialize (U23 eq_refl);
    try specialize (U12 eq_refl); try discriminate;
    split; try (intros [? ?]); try intros ?; try discriminate;
    try reflexivity; try (split; reflexivity).
Qed.

Lemma X8_witness :
  determineTargetSpeed default_config 61%float = MEDIUM <->
  (medium_threshold default_config <=? 61)%float = true /\
  (high_threshold default_config <=? 61)%float = false.
Proof.
  apply (X8_target_bands default_config 61%float). repeat split.
Defined.


(** X10: with a NaN hysteresis nothing is ever slowed down: a target below
    the current speed is refused at every temperature, every other target
    is admitted, and the speed asked for is never below the current one. *)
Theorem X10_nan_hysteresis_never_slows :
  forall (cfg : FanControllerConfig) (current target : FanSpeed) (t : float),
    is_nan (hysteresis cfg) = true ->
    checkHysteresis cfg current t target = negb (FanSpeed_ltb target current) /\
    (speed_value current <=? speed_value (requested_speed cfg current t)) = true.
Proof.
  intros cfg current target t N.
  assert (Hc : forall tg, checkHysteresis cfg current t tg =
                          negb (FanSpeed_ltb tg current)).
  { intros tg. unfold checkHysteresis. rewrite (FloatNaN.leb_nan_l _ 0%float N).
    rewrite (FloatNaN.leb_nan_r t _ (FloatNaN.sub_nan_r _ _ N)).
    unfold FanSpeed_ltb.
    destruct (speed_value current <? speed_value tg) eqn:C1;
      destruct (speed_value tg <? speed_value current) eqn:C2; try reflexivity; lia. }
  split; [apply Hc|]. unfold requested_speed. rewrite Hc.
  unfold FanSpeed_ltb.
  destruct (speed_value (determineTargetSpeed cfg t) <? speed_value current) eqn:C;
    cbn [negb]; lia.
Qed.

Lemma X10_witness :
  checkHysteresis (with_hysteresis nan default_config) FULL 20%float OFF =
    negb (FanSpeed_ltb OFF FULL) /\
  (speed_value FULL <=?
   speed_value (requested_speed (with_hysteresis nan default_config) FULL 20%float)) = true.
Proof.
  apply (X10_nan_hysteresis_never_slows (with_hysteresis nan default_config)).
  reflexivity.
Defined.

(* ===================================================================== *)
(** * Properties of [initialize]                                          *)
(* ===================================================================== *)

(** X11: [initialize] returns true exactly when the fan file exists, at
    least one sensor path is configured and none of the four [>=] tests on
    neighbouring thresholds holds; an exception leaves it exactly when the
    [fs::exists] at its head raises. It never touches [running_] or the
    environment. On success the speed in memory is what [readFanSpeed]
    read and one start-up line is added to stdout; otherwise stdout is
    unchanged. *)
Theorem X11_initialize_result :
  forall (E : Env) (cfg : FanControllerConfig) (s : State E),
    (fst (initialize E cfg s) = Returned true <->
     fs_exists E (world s) (fan_path cfg) = Returned true /\
     sensor_configured cfg = true /\
     ordering_rejected cfg = false) /\
    (forall what,
        fst (initialize E cfg s) = Raised what <->
        fs_exists E (world s) (fan_path cfg) = Raised what) /\
    running_ (snd (initialize E cfg s)) = running_ s /\
    world (snd (initialize E cfg s)) = world s /\
    stdout_lines (output (snd (initialize E cfg s))) =
      stdout_lines (output s) ++
      (if returned_true (fst (initialize E cfg s))
       then [MsgInitialized (current_fan_speed_ (snd (initialize E cfg s))) cfg]
       else []) /\
    (fst (initialize E cfg s) = Returned true ->
     fst (readFanSpeed E cfg s) =
       Returned (current_fan_speed_ (snd (initialize E cfg s)))).
Proof.
  intros E cfg s. rewrite initialize_paths_eq.
  destruct (fs_exists E (world s) (fan_path cfg)) as [[|]|what0] eqn:Hex.
  2:{ cbn [fst snd emit running_ world output returned_true].
      rewrite stdout_lines_app.
      split; [split; [discriminate | intros (H & _); discriminate]|].
      split; [intros what; split; discriminate|].
      repeat split; try reflexivity; try discriminate. }
  2:{ cbn [fst snd returned_true]. rewrite app_nil_r.
      split; [split; [discriminate | intros (H & _); discriminate]|].
      split; [intros what; split; intros [= ->]; reflexivity|].
      repeat split; try reflexivity; try discriminate. }
  destruct (sensor_configured cfg).
  2:{ cbn [fst snd emit running_ world output returned_true].
      rewrite stdout_lines_app.
      split; [split; [discriminate | intros (_ & H & _); discriminate]|].
      split; [intros what; split; discriminate|].
      repeat split; try reflexivity; try discriminate. }
  destruct (readFanSpeed_returns E cfg s true Hex) as (hw & l & Hread & Hl).
  rewrite Hread.
  destruct (ordering_rejected cfg);
    cbn [fst snd emit with_speed running_ world output current_fan_speed_
         returned_true];
    rewrite !stdout_lines_app, Hl.
  - split; [split; [discriminate | intros (_ & _ & H); discriminate]|].
    split; [intros what; split; discriminate|].
    repeat split; try reflexivity; try discriminate.
    unfold stdout_lines at 3. cbn [filter map fst snd]. now rewrite !app_nil_r.
  - split; [split; [intros _; repeat split | reflexivity]|].
    split; [intros what; split; discriminate|].
    repeat split; try reflexivity.
    unfold stdout_lines at 3. cbn [filter map fst snd]. now rewrite !app_nil_r.
Qed.

(** X12: for a table without NaN the ordering test of [initialize] passes
    exactly when the table is strictly increasing; a strictly increasing
    table always passes. *)
Theorem X12_ordering_test :
  forall cfg : FanControllerConfig,
    (thresholds_ascending cfg -> ordering_rejected cfg = false) /\
    (table_without_nan cfg ->
     ordering_rejected cfg = false -> thresholds_ascending cfg).
Proof.
  intros cfg. unfold ordering_rejected, thresholds_ascending, table_without_nan. split.
  - intros (H01 & H12 & H23 & H34).
    rewrite (FloatOrder.ltb_not_leb _ _ H01), (FloatOrder.ltb_not_leb _ _ H12),
      (FloatOrder.ltb_not_leb _ _ H23), (FloatOrder.ltb_not_leb _ _ H34).
    reflexivity.
  - intros (N0 & N1 & N2 & N3 & N4) H.
    apply orb_false_iff in H as [H H34]. apply orb_false_iff in H as [H H23].
    apply orb_false_iff in H as [H01 H12].
    repeat split; apply FloatNaN.leb_false_ltb; assumption.
Qed.

(** X13: the ordering test of [initialize] lets a NaN threshold through:
    with a NaN [low_threshold] it passes as soon as medium < high < full,
    and LOW is then never the target. *)
Theorem X13_nan_threshold_is_accepted :
  forall cfg : FanControllerConfig,
    is_nan (low_threshold cfg) = true ->
    (medium_threshold cfg <? high_threshold cfg)%float = true ->
    (high_threshold cfg <? full_threshold cfg)%float = true ->
    ordering_rejected cfg = false /\
    (forall (E : Env) (s : State E),
        fs_exists E (world s) (fan_path cfg) = Returned true ->
        sensor_configured cfg = true ->
        fst (initialize E cfg s) = Returned true) /\
    (forall t, FanSpeed_eqb (determineTargetSpeed cfg t) LOW = false).
Proof.
  intros cfg N H23 H34.
  assert (Hord : ordering_rejected cfg = false).
  { unfold ordering_rejected.
    rewrite (FloatNaN.leb_nan_l _ (off_threshold cfg) N),
      (FloatNaN.leb_nan_r (medium_threshold cfg) _ N),
      (FloatOrder.ltb_not_leb _ _ H23), (FloatOrder.ltb_not_leb _ _ H34).
    reflexivity. }
  split; [exact Hord|]. split.
  - intros E s Hex Hs. rewrite initialize_paths_eq, Hex, Hs, Hord.
    destruct (readFanSpeed_returns E cfg s true Hex) as (hw & l & -> & _).
    reflexivity.
  - intros t. unfold determineTargetSpeed. rewrite (FloatNaN.leb_nan_l _ t N).
    destruct (full_threshold cfg <=? t)%float, (high_threshold cfg <=? t)%float,
      (medium_threshold cfg <=? t)%float; reflexivity.
Qed.

Lemma X13_witness :
  ordering_rejected (with_low_threshold nan default_config) = false /\
  FanSpeed_eqb (determineTargetSpeed (with_low_threshold nan default_config) 56%float)
    LOW = false.
Proof.
  destruct (X13_nan_threshold_is_accepted (with_low_threshold nan default_config))
    as (H1 & _ & H3); [reflexivity..|].
  split; [exact H1 | apply H3].
Defined.

(* ===================================================================== *)
(** * The sign of a rounded quotient                                      *)
(* ===================================================================== *)

Module B64Sign.

Lemma shr_1_nonneg (mrs : shr_record) : 0 <= shr_m mrs -> 0 <= shr_m (shr_1 mrs).
Proof.
  destruct mrs as [m r s]. cbn [shr_m]. intros Hm.
  rewrite B64Facts.shr_1_spec by exact Hm. cbn [shr_m]. apply Z.div_pos; lia.
Qed.

Lemma shr_nonneg (mrs : shr_record) (e n : Z) :
  0 <= shr_m mrs -> 0 <= shr_m (fst (shr mrs e n)).
Proof.
  intros Hm. unfold shr. destruct n as [|p|p]; cbn [fst]; try exact Hm.
  rewrite B64Facts.iter_pos_nat.
  induction (Pos.to_nat p) as [|k IH]; [exact Hm|].
  rewrite Nat.iter_succ. apply shr_1_nonneg. exact IH.
Qed.

Lemma shr_record_of_loc_m (m : Z) (l : location) : shr_m (shr_record_of_loc m l) = m.
Proof. destruct l as [|[]]; reflexivity. Qed.

Lemma round_nearest_even_nonneg (m : Z) (l : location) :
  0 <= m -> 0 <= round_nearest_even m l.
Proof.
  intros Hm. destruct l as [|[]]; cbn [round_nearest_even]; try lia.
  destruct (Z.even m); lia.
Qed.

(** Rounding a mantissa that is not negative gives a value with the sign it
    was given, never NaN. *)
Lemma binary_round_aux_nonneg (mx ex : Z) (lx : location) :
  0 <= mx -> nonnegative_sf (binary_round_aux prec emax false mx ex lx) = true.
Proof.
  intros Hm. unfold binary_round_aux, shr_fexp.
  pose proof (shr_nonneg (shr_record_of_loc mx lx) ex
                (fexp prec emax (Zdigits2 mx + ex) - ex)) as H1.
  rewrite shr_record_of_loc_m in H1. specialize (H1 Hm).
  destruct (shr (shr_record_of_loc mx lx) ex _) as [mrs' e']. cbn [fst] in H1.
  set (m1 := round_nearest_even (shr_m mrs') (loc_of_shr_record mrs')).
  assert (Hm1 : 0 <= m1) by (apply round_nearest_even_nonneg; exact H1).
  pose proof (shr_nonneg (shr_record_of_loc m1 loc_Exact) e'
                (fexp prec emax (Zdigits2 m1 + e') - e')) as H2.
  rewrite shr_record_of_loc_m in H2. specialize (H2 Hm1).
  destruct (shr (shr_record_of_loc m1 loc_Exact) e' _) as [mrs'' e'']. cbn [fst] in H2.
  destruct (shr_m mrs'') as [|m|m]; try reflexivity; [|lia].
  destruct (e'' <=? emax - prec); reflexivity.
Qed.

Lemma of_uint63_nonneg (n : int) : nonnegative_sf (Prim2SF (of_uint63 n)) = true.
Proof.
  rewrite of_uint63_spec. pose proof (Uint63.to_Z_bounded n) as [Hn _].
  destruct (Uint63.to_Z n) as [|m|m] eqn:Em; try lia; cbn [binary_normalize].
  - reflexivity.
  - unfold binary_round. destruct (shl_align m 0 _) as [mz ez].
    apply binary_round_aux_nonneg. lia.
Qed.

Lemma SFdiv_nonneg (x : spec_float) (m : positive) (e : Z) :
  nonnegative_sf x = true ->
  nonnegative_sf (SF64div x (S754_finite false m e)) = true.
Proof.
  intros Hx. unfold SF64div.
  destruct x as [sx|[|]| |[|] mx ex]; try discriminate; cbn [SFdiv xorb].
  - reflexivity.
  - reflexivity.
  - unfold SFdiv_core_binary.
    set (m' := match _ with 0 => _ | Z.pos _ => _ | Z.neg _ => _ end).
    assert (Hm' : 0 <= m').
    { subst m'. destruct (ex - e - _) as [|p|p]; try lia.
      apply Z.shiftl_nonneg. lia. }
    pose proof (Z.div_pos m' (Zpos m) Hm' ltac:(lia)) as Hq.
    unfold Z.div in Hq. destruct (Z.div_eucl m' (Z.pos m)) as [q r]. cbn [fst] in Hq.
    apply binary_round_aux_nonneg. exact Hq.
Qed.

Lemma nonnegative_sf_spec (x : spec_float) :
  nonnegative_sf x = true ->
  B64.is_nan_sf x = false /\ SFleb (S754_zero false) x = true.
Proof. destruct x as [[]|[]| |[] m e]; try discriminate; split; reflexivity. Qed.

(** The Celsius value of a count of milli-Celsius that is not negative. *)
Lemma celsius_nonneg (z : Z) :
  0 <= z ->
  is_nan (int_to_double z / 1000)%float = false /\
  (0 <=? int_to_double z / 1000)%float = true.
Proof.
  intros Hz. rewrite FloatNaN.is_nan_Prim2SF, leb_spec, div_spec.
  change (Prim2SF 0) with (S754_zero false).
  change (Prim2SF 1000) with (S754_finite false 8796093022208000 (-43)).
  apply nonnegative_sf_spec, SFdiv_nonneg.
  unfold int_to_double. destruct (z <? 0) eqn:C; [apply Z.ltb_lt in C; lia|].
  apply of_uint63_nonneg.
Qed.

End B64Sign.

(* ===================================================================== *)
(** * Further properties of the sensors                                   *)
(* ===================================================================== *)

Lemma file_reading_value (E : Env) (w : World E) (path : string) (t : float) :
  file_reading E w path = inl t ->
  exists z, 0 <= z /\ t = (int_to_double z / 1000)%float /\ (150 <? t)%float = false.
Proof.
  unfold file_reading.
  destruct (ifstream_open E w path) as [content|]; [|discriminate].
  destruct (getline content) as [text|]; [|discriminate].
  destruct (stoi text) as [z| |]; try discriminate.
  destruct (z <? 0) eqn:Hz; [discriminate|]. apply Z.ltb_ge in Hz.
  destruct ((int_to_double z / 1000 <? -50) || (150 <? int_to_double z / 1000))%float
    eqn:Hr; [discriminate|].
  intros [= <-]. apply orb_false_iff in Hr as [_ Hr]. exists z. auto.
Qed.

Lemma sensor_reading_value (E : Env) (w : World E) (path : string) (t : float) :
  sensor_reading E w path = Returned (inl t) ->
  exists z, 0 <= z /\ t = (int_to_double z / 1000)%float /\ (150 <? t)%float = false.
Proof.
  unfold sensor_reading.
  destruct (fs_exists E w path) as [[|]|what]; try discriminate.
  intros [= H]. now apply file_reading_value in H.
Qed.

(** X14: an exception leaves [readTemperatureSensor] exactly when its
    [fs::exists] raises, and then nothing is printed; when it returns, it
    returns NaN exactly when the read failed, and a reading that is not
    NaN lies between 0 and 150 degrees and nothing is printed for it. *)
Theorem X14_sensor_nan_iff_failure :
  forall (E : Env) (cfg : FanControllerConfig) (path : string) (s : State E),
    (forall what,
        fst (readTemperatureSensor E cfg path s) = Raised what <->
        fs_exists E (world s) path = Raised what) /\
    (forall what,
        fst (readTemperatureSensor E cfg path s) = Raised what ->
        snd (readTemperatureSensor E cfg path s) = s) /\
    (forall t,
        fst (readTemperatureSensor E cfg path s) = Returned t ->
        (is_nan t = true <->
         exists f, sensor_reading E (world s) path = Returned (inr f)) /\
        (is_nan t = false ->
         (0 <=? t)%float = true /\ (t <=? 150)%float = true /\
         snd (readTemperatureSensor E cfg path s) = s)).
Proof.
  intros E cfg path s. rewrite readTemperatureSensor_spec.
  assert (Hraise : forall what,
             sensor_reading E (world s) path = Raised what <->
             fs_exists E (world s) path = Raised what).
  { intros what. unfold sensor_reading.
    destruct (fs_exists E (world s) path) as [[|]|what0];
      split; try discriminate; intros [= ->]; reflexivity. }
  destruct (sensor_reading E (world s) path) as [[t|f]|what0] eqn:Hr; cbn [fst snd].
  - split; [intros what; rewrite <- Hraise; split; discriminate|].
    split; [discriminate|]. intros t' [= <-].
    apply sensor_reading_value in Hr as (z & Hz & -> & H150).
    destruct (B64Sign.celsius_nonneg z Hz) as [Hn H0].
    split.
    + rewrite Hn. split; [discriminate | intros [f Hf]; discriminate].
    + intros _. split; [exact H0|]. split; [|reflexivity].
      apply FloatNaN.ltb_false_leb; [exact Hn | reflexivity | exact H150].
  - split; [intros what; rewrite <- Hraise; split; discriminate|].
    split; [discriminate|]. intros t' [= <-].
    split; [split; [intros _; eauto | reflexivity]|]. discriminate.
  - split; [intros what; rewrite <- Hraise; split; intros [= ->]; reflexivity|].
    split; [reflexivity|]. discriminate.
Qed.

(** X15: a total outage is reported at every call that returns: when the
    reads of the configured slots return and none gives a reading,
    [getAverageTemperature] ends by printing "All temperature sensors
    failed" on stderr, whatever the debug flag; when some but not all slots
    fail, the summary "Using n sensor(s), m failed" is printed only with
    the debug flag. When a read raises, the exception leaves
    [getAverageTemperature] and no such line is printed. The reads
    themselves print on stderr only. *)
Theorem X15_outage_is_reported :
  forall (E : Env) (cfg : FanControllerConfig) (s : State E),
    stdout_lines (slots_report E cfg s) = [] /\
    output (snd (collect_sensors E cfg s)) = output s ++ slots_report E cfg s /\
    match slot_values E cfg s with
    | Returned values =>
        output (snd (getAverageTemperature E cfg s)) =
          output s ++ slots_report E cfg s ++
          match valid_readings values, failed_slots values with
          | [], _ => [(Stderr, MsgAllSensorsFailed)]
          | _ :: _, [] => []
          | temps, failed =>
              if debug cfg
              then [(Stderr, MsgSensorsUsed (length temps) (length failed))] else []
          end
    | Raised what =>
        fst (getAverageTemperature E cfg s) = Raised what /\
        output (snd (getAverageTemperature E cfg s)) =
          output s ++ slots_report E cfg s
    end.
Proof.
  intros E cfg s. split; [apply slots_report_stderr|].
  rewrite collect_sensors_spec, getAverageTemperature_spec.
  split; [reflexivity|].
  destruct (slot_values E cfg s) as [values|what]; cbn [fst snd emit output].
  - reflexivity.
  - split; reflexivity.
Qed.

(* ===================================================================== *)
(** * Further properties of the loop                                      *)
(* ===================================================================== *)

Section LoopMore.
Variable E : Env.
Variable config_ : FanControllerConfig.

Lemma run_loop_no_signal (fuel : nat) :
  forall s : State E,
    running_ s = true ->
    (forall k, (k < fuel)%nat -> signal_before E config_ k s = None) ->
    match at_condition E config_ fuel s with
    | Some st => run_loop E config_ fuel s = (fuel, None, st) /\ running_ st = true
    | None =>
        exists (n : nat) (what : string) (st s' : State E),
          (n < fuel)%nat /\
          at_condition E config_ n s = Some st /\
          run_body E config_ (snd (deliver_signals E st)) = (Raised what, s') /\
          run_loop E config_ fuel s = (S n, Some (Raised what), s')
    end.
Proof.
  induction fuel as [|fuel IH]; intros s Hrun Hsig.
  - split; [reflexivity | exact Hrun].
  - cbn [run_loop at_condition].
    pose proof (deliver_signals_running E s) as Hd.
    pose proof (Hsig O ltac:(lia)) as H0. rewrite signal_before_0 in H0.
    rewrite H0 in Hd. rewrite Hd, Hrun.
    pose proof (run_body_running E config_ (snd (deliver_signals E s))) as Hb.
    destruct (run_body E config_ (snd (deliver_signals E s)))
      as [[u|what] s2] eqn:Hbody.
    + cbn [snd] in Hb.
      specialize (IH s2).
      assert (Hrun2 : running_ s2 = true) by (rewrite Hb, Hd; exact Hrun).
      assert (Hsig2 : forall k, (k < fuel)%nat -> signal_before E config_ k s2 = None).
      { intros k Hk. rewrite <- (signal_before_succ E config_ k s s2 u Hbody).
        apply Hsig. lia. }
      specialize (IH Hrun2 Hsig2).
      destruct (at_condition E config_ fuel s2) as [st|].
      * destruct IH as [Hl Hr]. rewrite Hl. split; [reflexivity | exact Hr].
      * destruct IH as (n & what & st & s' & Hn & Hat & Hraise & Hl).
        exists (S n), what, st, s'.
        split; [lia|]. split.
        { rewrite (at_condition_succ E config_ n s s2 u Hbody). exact Hat. }
        split; [exact Hraise|]. rewrite Hl. reflexivity.
    + exists O, what, s, s2.
      split; [lia|]. split; [reflexivity|]. split; [exact Hbody | reflexivity].
Qed.
End LoopMore.

(** X16: the loop is ended only by a handled signal or by an exception
    that leaves a body: as long as no signal is handled and every body
    returns, [run] goes through every iteration it is given fuel for and
    [running_] stays true, whatever the sensors and the fan file hold;
    when a body raises, [run] ends there with that exception. Without a
    signal [run] does not return. *)
Theorem X16_loop_runs_until_signalled :
  forall (E : Env) (cfg : FanControllerConfig) (fuel : nat) (s : State E),
    (forall k, (k < fuel)%nat -> signal_before E cfg k (entered E s) = None) ->
    match at_condition E cfg fuel (entered E s) with
    | Some st => run E cfg fuel s = (fuel, None, st) /\ running_ st = true
    | None =>
        exists (n : nat) (what : string) (st s' : State E),
          (n < fuel)%nat /\
          at_condition E cfg n (entered E s) = Some st /\
          run_body E cfg (snd (deliver_signals E st)) = (Raised what, s') /\
          run E cfg fuel s = (S n, Some (Raised what), s')
    end.
Proof.
  intros E cfg fuel s Hsig. unfold run.
  apply run_loop_no_signal; [reflexivity | exact Hsig].
Qed.

Lemma X16_witness :
  match at_condition Sim.env Sim.config 3
          (entered Sim.env
             (Sim.at_speed LOW
                (Sim.without Sim.fan (Sim.without Sim.cpu (Sim.machine "1" "0")))))
  with
  | Some st =>
      run Sim.env Sim.config 3
        (Sim.at_speed LOW (Sim.without Sim.fan (Sim.without Sim.cpu (Sim.machine "1" "0"))))
      = (3%nat, None, st) /\ running_ st = true
  | None =>
      exists (n : nat) (what : string) (st s' : State Sim.env),
        (n < 3)%nat /\
        at_condition Sim.env Sim.config n
          (entered Sim.env
             (Sim.at_speed LOW
                (Sim.without Sim.fan (Sim.without Sim.cpu (Sim.machine "1" "0")))))
          = Some st /\
        run_body Sim.env Sim.config (snd (deliver_signals Sim.env st)) = (Raised what, s') /\
        run Sim.env Sim.config 3
          (Sim.at_speed LOW (Sim.without Sim.fan (Sim.without Sim.cpu (Sim.machine "1" "0"))))
        = (S n, Some (Raised what), s')
  end.
Proof.
  apply (X16_loop_runs_until_signalled Sim.env Sim.config 3).
  intros [|[|[|k]]] Hk; [vm_compute; reflexivity .. | lia].
Defined.

(** The loop of a machine whose nvme path is too long for the file
    system: the first body raises and [run] ends with the exception. *)
Example run_raises :
  let '(n, ended, s') :=
    run Sim.env (with_temp_hwmon1_path long_path Sim.config) 3
      (Sim.at_speed LOW (Sim.machine "1" "0")) in
  n = 1%nat /\ ended = Some (Raised Sim.name_too_long) /\
  stdout_lines (output s') = [].
Proof. vm_compute. repeat split. Qed.

(* ===================================================================== *)
(** * The configuration parser                                            *)
(* ===================================================================== *)

Module StringFacts.

Lemma append_nil_l (s : string) : ("" ++ s)%string = s.
Proof. reflexivity. Qed.

Lemma append_cons (c : ascii) (a b : string) :
  (String c a ++ b)%string = String c (a ++ b).
Proof. reflexivity. Qed.

Ltac push_append := rewrite ?append_cons, ?append_nil_l in *.

Lemma append_nil_r (s : string) : (s ++ "")%string = s.
Proof. induction s as [|c s IH]; push_append; [reflexivity | now rewrite IH]. Qed.

Lemma append_assoc (a b c : string) :
  ((a ++ b) ++ c)%string = (a ++ (b ++ c))%string.
Proof. induction a as [|x a IH]; push_append; [reflexivity | now rewrite IH]. Qed.

Lemma length_append (a b : string) :
  String.length (a ++ b) = (String.length a + String.length b)%nat.
Proof.
  induction a as [|x a IH]; push_append; cbn [String.length Nat.add];
    [reflexivity | now rewrite IH].
Qed.

Lemma substring_0_all (s : string) : String.substring 0 (String.length s) s = s.
Proof. induction s as [|c s IH]; cbn; [reflexivity | now rewrite IH]. Qed.

Lemma substring_0_append (a b : string) :
  String.substring 0 (String.length a) (a ++ b) = a.
Proof.
  induction a as [|x a IH]; push_append; cbn [String.length String.substring].
  - destruct b; reflexivity.
  - now rewrite IH.
Qed.

Lemma substring_skip (a b : string) (n : nat) :
  String.substring (String.length a) n (a ++ b) = String.substring 0 n b.
Proof.
  induction a as [|x a IH]; push_append; cbn [String.length String.substring];
    [reflexivity | exact IH].
Qed.

Lemma substring_middle (a b c : string) :
  String.substring (String.length a) (String.length b) (a ++ b ++ c) = b.
Proof. rewrite substring_skip. apply substring_0_append. Qed.

Lemma all_blank_append (a b : string) :
  all_blank (a ++ b) = all_blank a && all_blank b.
Proof.
  induction a as [|x a IH]; push_append; cbn [all_blank]; [reflexivity|].
  rewrite IH. now rewrite andb_assoc.
Qed.

Lemma empty_append (a b : string) : empty (a ++ b) = empty a && empty b.
Proof. destruct a; reflexivity. Qed.

Lemma back_append (a b : string) :
  empty b = false -> back (a ++ b) = back b.
Proof.
  intros Hb. induction a as [|x a IH]; [reflexivity|].
  push_append. cbn [back]. rewrite IH.
  destruct (a ++ b)%string eqn:Hab; [|reflexivity].
  destruct a; destruct b; push_append; cbn in *; discriminate.
Qed.

Lemma back_some (c : ascii) (s : string) : exists b, back (String c s) = Some b.
Proof.
  revert c. induction s as [|d s IH]; intros c; [now exists c|].
  destruct (IH d) as [b Hb]. exists b. exact Hb.
Qed.

Lemma back_cons (c : ascii) (s : string) :
  empty s = false -> back (String c s) = back s.
Proof. destruct s; [discriminate | reflexivity]. Qed.

Lemma free_of_append (c : ascii) (a b : string) :
  free_of c (a ++ b) = free_of c a && free_of c b.
Proof.
  unfold free_of. induction a as [|x a IH]; push_append; cbn [find].
  - reflexivity.
  - destruct (Ascii.eqb x c); [reflexivity|].
    destruct (find (a ++ b) c), (find a c); cbn in *; try reflexivity;
      try discriminate; exact IH.
Qed.

Lemma find_append (c : ascii) (a b : string) :
  free_of c a = true ->
  find (a ++ String c b) c = Some (String.length a).
Proof.
  unfold free_of. induction a as [|x a IH]; push_append; cbn [find String.length].
  - now rewrite Ascii.eqb_refl.
  - destruct (Ascii.eqb x c); [discriminate|].
    destruct (find a c); [discriminate|]. intros _. now rewrite IH.
Qed.

Lemma find_split (c : ascii) (s : string) (n : nat) :
  find s c = Some n ->
  exists a b, s = (a ++ String c b)%string /\ String.length a = n /\
              free_of c a = true.
Proof.
  revert n. induction s as [|x s IH]; intros n H; [discriminate|].
  cbn [find] in H. destruct (Ascii.eqb x c) eqn:Hx.
  - apply Ascii.eqb_eq in Hx. subst x. inversion H; subst.
    exists ""%string, s. repeat split.
  - destruct (find s c) as [m|] eqn:Hm; [|discriminate]. inversion H; subst.
    destruct (IH m eq_refl) as (a & b & -> & Hlen & Hfree).
    exists (String x a), b. split; [reflexivity|]. split; [cbn; now rewrite Hlen|].
    unfold free_of in *. cbn [find]. rewrite Hx.
    destruct (find a c); [discriminate | reflexivity].
Qed.

End StringFacts.

Module TrimFacts.
Import StringFacts ConfigParser.

(** Where [find_first_not_of] and [find_last_not_of] point. *)
Lemma bounds (str : string) :
  match find_first_not_of str blanks, find_last_not_of str blanks with
  | None, None => all_blank str = true
  | Some i, Some j =>
      exists pre mid post,
        str = (pre ++ mid ++ post)%string /\
        String.length pre = i /\ String.length mid = (j - i + 1)%nat /\
        (i <= j)%nat /\
        all_blank pre = true /\ all_blank post = true /\
        empty mid = false /\ unpadded mid = true
  | _, _ => False
  end.
Proof.
  induction str as [|c rest IH]; [reflexivity|].
  cbn [find_first_not_of find_last_not_of all_blank].
  destruct (find_first_not_of rest blanks) as [i|],
           (find_last_not_of rest blanks) as [j|]; try contradiction.
  - destruct IH as (pre & mid & post & -> & Hi & Hm & Hij & Hpre & Hpost & Hne & Hun).
    destruct (char_in c blanks) eqn:Hc; cbn [option_map].
    + exists (String c pre), mid, post. push_append. cbn [String.length all_blank].
      rewrite Hc, Hpre, Hi. repeat split; auto; lia.
    + exists ""%string, (String c (pre ++ mid)), post.
      push_append. cbn [String.length all_blank].
      rewrite append_assoc, length_append, Hi, Hm.
      repeat split; auto; try lia.
      unfold unpadded. cbn [front].
      rewrite back_cons by (rewrite empty_append, Hne; apply andb_false_r).
      rewrite back_append by exact Hne.
      unfold unpadded in Hun. destruct mid as [|a mid]; [discriminate|].
      cbn [front] in Hun. destruct (back (String a mid)); [|reflexivity].
      rewrite Hc. apply andb_prop in Hun as [_ ->]. reflexivity.
  - destruct (char_in c blanks) eqn:Hc; cbn [option_map andb].
    + exact IH.
    + exists ""%string, (String c ""), rest.
      push_append. cbn [String.length all_blank].
      repeat split; auto. unfold unpadded. cbn [front back]. now rewrite Hc.
Qed.

(** [trim] takes the blanks off both ends and nothing else. *)
Lemma trim_split (str : string) :
  exists pre post,
    str = (pre ++ trim str ++ post)%string /\
    all_blank pre = true /\ all_blank post = true /\
    unpadded (trim str) = true /\
    empty (trim str) = all_blank str.
Proof.
  pose proof (bounds str) as H. unfold trim.
  destruct (find_first_not_of str blanks) as [i|],
           (find_last_not_of str blanks) as [j|]; try contradiction.
  - destruct H as (pre & mid & post & -> & Hi & Hm & Hij & Hpre & Hpost & Hne & Hun).
    assert (Hsub : substr (pre ++ mid ++ post) i (Some (j - i + 1)%nat) = mid).
    { unfold substr. rewrite !length_append, Hi, Hm.
      replace (Nat.min (j - i + 1) (i + (j - i + 1 + String.length post) - i))
        with (String.length mid) by lia.
      rewrite <- Hi. apply substring_middle. }
    rewrite Hsub. exists pre, post. repeat split; auto.
    rewrite !all_blank_append, Hne.
    destruct mid as [|a mid]; [discriminate|].
    unfold unpadded in Hun. cbn [front] in Hun.
    destruct (back_some a mid) as [b Hb]. rewrite Hb in Hun.
    apply andb_prop in Hun as [Ha _]. apply negb_true_iff in Ha.
    cbn [all_blank]. rewrite Ha. cbn. now rewrite andb_false_r.
  - exists str, ""%string. push_append. rewrite append_nil_r.
    repeat split; auto.
Qed.

Lemma find_last_unpadded (s : string) (b : ascii) :
  back s = Some b -> char_in b blanks = false ->
  find_last_not_of s blanks = Some (String.length s - 1)%nat.
Proof.
  induction s as [|c rest IH]; [discriminate|].
  intros Hb Hc. cbn [find_last_not_of String.length].
  destruct rest as [|d rest'].
  - cbn in Hb. inversion Hb; subst. cbn [find_last_not_of]. now rewrite Hc.
  - cbn [back] in Hb. rewrite (IH Hb Hc). cbn [String.length]. f_equal. lia.
Qed.

Lemma trim_unpadded (s : string) : unpadded s = true -> trim s = s.
Proof.
  intros H. destruct s as [|a s]; [reflexivity|].
  unfold unpadded in H. cbn [front] in H.
  destruct (back_some a s) as [b Hb]. rewrite Hb in H.
  apply andb_prop in H as [Ha Hbb].
  apply negb_true_iff in Ha. apply negb_true_iff in Hbb.
  unfold trim. cbn [find_first_not_of]. rewrite Ha.
  rewrite (find_last_unpadded _ _ Hb Hbb).
  unfold substr.
  replace (Nat.min _ _) with (String.length (String a s)) by (cbn [String.length]; lia).
  apply substring_0_all.
Qed.

Lemma trim_idempotent (str : string) : trim (trim str) = trim str.
Proof.
  destruct (trim_split str) as (pre & post & _ & _ & _ & Hun & _).
  now apply trim_unpadded.
Qed.

Lemma trim_free_of (c : ascii) (str : string) :
  free_of c str = true -> free_of c (trim str) = true.
Proof.
  intros H. destruct (trim_split str) as (pre & post & Heq & _).
  rewrite Heq in H. rewrite !free_of_append in H.
  apply andb_prop in H as [_ H]. apply andb_prop in H as [H _]. exact H.
Qed.

End TrimFacts.

(** X17: [trim] takes spaces and tabs off both ends and nothing else: the
    argument is the result between two runs of spaces and tabs, the result
    neither starts nor ends with one, it is empty exactly when the argument
    holds nothing else, and trimming twice is trimming once. *)
Theorem X17_trim_removes_outer_blanks :
  forall str : string,
    (exists pre post,
        str = (pre ++ ConfigParser.trim str ++ post)%string /\
        all_blank pre = true /\ all_blank post = true) /\
    unpadded (ConfigParser.trim str) = true /\
    empty (ConfigParser.trim str) = all_blank str /\
    ConfigParser.trim (ConfigParser.trim str) = ConfigParser.trim str.
Proof.
  intros str.
  destruct (TrimFacts.trim_split str) as (pre & post & Heq & Hpre & Hpost & Hun & Hemp).
  split; [exists pre, post; auto|].
  split; [exact Hun|]. split; [exact Hemp|].
  apply TrimFacts.trim_idempotent.
Qed.

Module LineFacts.
Import StringFacts ConfigParser.

(** [getlines] is [std::getline] called until it fails. *)
Lemma getlines_getline (content : string) :
  getlines content =
  match getline content with
  | None => []
  | Some line => line :: getlines (after_newline content)
  end.
Proof.
  induction content as [|c rest IH]; [reflexivity|].
  unfold getline. cbn [getlines upto_newline after_newline].
  destruct (Ascii.eqb c "010"); [reflexivity|].
  rewrite IH. unfold getline. destruct rest as [|d rest]; reflexivity.
Qed.

Lemma getlines_free (content line : string) :
  In line (getlines content) -> free_of "010" line = true.
Proof.
  revert line. induction content as [|c rest IH]; intros line H; [destruct H|].
  cbn [getlines] in H. destruct (Ascii.eqb c "010") eqn:Hc.
  - destruct H as [<-|H]; [reflexivity | now apply IH].
  - destruct (getlines rest) as [|l more].
    + destruct H as [<-|[]]. unfold free_of. cbn [find]. now rewrite Hc.
    + destruct H as [<-|H].
      * pose proof (IH l (or_introl eq_refl)) as Hl.
        unfold free_of in *. cbn [find]. rewrite Hc.
        destruct (find l "010"); [discriminate | reflexivity].
      * apply IH. now right.
Qed.

Lemma getlines_single (line : string) :
  empty line = false -> free_of "010" line = true -> getlines line = [line].
Proof.
  induction line as [|c rest IH]; [discriminate|].
  intros _ H. unfold free_of in H. cbn [find] in H. cbn [getlines].
  destruct (Ascii.eqb c "010"); [discriminate|].
  destruct rest as [|d rest]; [reflexivity|].
  rewrite IH; [reflexivity | reflexivity |].
  unfold free_of. destruct (find (String d rest) "010"); [discriminate | reflexivity].
Qed.

Lemma getlines_newline_end (a : string) :
  getlines (a ++ newline) = getlines a \/
  getlines (a ++ newline) = getlines a ++ [""%string].
Proof.
  induction a as [|c a IH]; push_append; [now right|].
  cbn [getlines]. destruct (Ascii.eqb c "010").
  - destruct IH as [-> | ->]; [now left | now right].
  - destruct IH as [-> | ->]; [now left|].
    destruct (getlines a); [now left | now right].
Qed.

Lemma getlines_append (a b : string) :
  getlines (a ++ newline ++ b) = getlines (a ++ newline) ++ getlines b.
Proof.
  induction a as [|c a IH]; push_append; [reflexivity|].
  cbn [getlines]. destruct (Ascii.eqb c "010").
  - now rewrite IH.
  - rewrite IH. destruct (getlines (a ++ newline)) as [|l more] eqn:Hl.
    + exfalso. destruct a; push_append; cbn [getlines newline] in Hl.
      * discriminate.
      * unfold newline in Hl. push_append. cbn [getlines] in Hl.
        destruct (Ascii.eqb a "010"); [discriminate|].
        destruct (getlines _); discriminate.
    + reflexivity.
Qed.

Lemma parse_content_newline (a : string) (m : gmap string string) :
  fold_left parse_line (getlines (a ++ newline)) m =
  fold_left parse_line (getlines a) m.
Proof.
  destruct (getlines_newline_end a) as [-> | ->]; [reflexivity|].
  now rewrite fold_left_app.
Qed.

Lemma parse_content_append (a b : string) :
  parse_content (a ++ newline ++ b) =
  fold_left parse_line (getlines b) (parse_content a).
Proof.
  unfold parse_content.
  now rewrite getlines_append, fold_left_app, parse_content_newline.
Qed.

Lemma substr_before (a b : string) (c : ascii) :
  substr (a ++ String c b) 0 (Some (String.length a)) = a.
Proof.
  unfold substr. rewrite length_append. cbn [String.length].
  replace (Nat.min _ _) with (String.length a) by lia.
  apply substring_0_append.
Qed.

Lemma substr_after (a b : string) (c : ascii) :
  substr (a ++ String c b) (String.length a + 1) None = b.
Proof.
  unfold substr. rewrite length_append. cbn [String.length].
  replace (String.length a + S (String.length b) - (String.length a + 1))%nat
    with (String.length b) by lia.
  change (String c b) with (String c "" ++ b)%string.
  rewrite <- append_assoc.
  replace (String.length a + 1)%nat with (String.length (a ++ String c "")).
  - rewrite substring_skip. apply substring_0_all.
  - rewrite length_append. reflexivity.
Qed.

(** What one line adds to the map. *)
Lemma parse_line_cases (m : gmap string string) (line : string) :
  parse_line m line = m \/
  exists before after,
    line = (before ++ String "=" after)%string /\
    free_of "=" before = true /\ not_comment line = true /\
    empty (trim before) = false /\ empty (trim after) = false /\
    parse_line m line = <[trim before := trim after]> m.
Proof.
  unfold parse_line, not_comment. destruct line as [|c rest]; [now left|].
  cbn [front]. destruct (Ascii.eqb c "#" || Ascii.eqb c ";"); [now left|].
  destruct (find (String c rest) "=") as [eq_pos|] eqn:Hfind; [|now left].
  destruct (find_split _ _ _ Hfind) as (a & b & Heq & Hlen & Hfree).
  rewrite Heq, <- Hlen, substr_before, substr_after.
  destruct (empty (trim a)) eqn:Ha; [now left|].
  destruct (empty (trim b)) eqn:Hb; [now left|].
  right. exists a, b. repeat split; auto.
Qed.

Lemma parse_line_assignment (m : gmap string string) (key value : string) :
  assignment key value = true ->
  parse_line m (key ++ String "=" value) = <[trim key := trim value]> m.
Proof.
  unfold assignment. intros H.
  repeat (apply andb_prop in H as [H ?]).
  destruct key as [|c key]; [discriminate|]. cbn [front] in H.
  unfold parse_line. push_append.
  apply negb_true_iff in H. rewrite H.
  rewrite <- append_cons, find_append by assumption.
  rewrite substr_before, substr_after.
  destruct (empty (trim (String c key))); [discriminate|].
  destruct (empty (trim value)); [discriminate|]. reflexivity.
Qed.

(** Every entry of the map comes from a line, or was there before. *)
Lemma fold_parse_line_entries (lines : list string) :
  forall (m : gmap string string) (k v : string),
    fold_left parse_line lines m !! k = Some v ->
    m !! k = Some v \/
    exists line before after,
      In line lines /\ line = (before ++ String "=" after)%string /\
      free_of "=" before = true /\ not_comment line = true /\
      k = trim before /\ v = trim after /\
      empty k = false /\ empty v = false.
Proof.
  induction lines as [|line lines IH]; intros m k v H; [now left|].
  cbn [fold_left] in H. apply IH in H as [H | (l & a & b & Hin & Hrest)].
  - destruct (parse_line_cases m line) as [Hsame | (a & b & Hl & Hf & Hc & Ha & Hb & Hins)].
    + rewrite Hsame in H. now left.
    + rewrite Hins in H. apply lookup_insert_Some in H as [[<- <-] | [_ H]].
      * right. exists line, a, b. repeat split; auto. now left.
      * now left.
  - right. exists l, a, b. split; [now right | exact Hrest].
Qed.

End LineFacts.

(** X18: every entry of the map that [parseKeyValueFile] returns comes from
    a line of the file that holds a [=] and does not start with [#] or [;]:
    the key is the trimmed text before the first [=], the value the
    trimmed text after it; neither is empty, neither starts or ends with a
    space or a tab, and the key holds no [=] and no newline. A file that
    cannot be opened gives the empty map. *)
Theorem X18_parseKeyValueFile_entries :
  forall (E : Env) (w : World E) (path k v : string),
    ConfigParser.parseKeyValueFile E w path !! k = Some v ->
    exists content line before after,
      ifstream_open E w path = Some content /\
      In line (getlines content) /\
      line = (before ++ String "=" after)%string /\
      free_of "=" before = true /\ not_comment line = true /\
      k = ConfigParser.trim before /\ v = ConfigParser.trim after /\
      empty k = false /\ empty v = false /\
      unpadded k = true /\ unpadded v = true /\
      free_of "=" k = true /\ free_of "010" k = true.
Proof.
  intros E w path k v H. unfold ConfigParser.parseKeyValueFile in H.
  destruct (ifstream_open E w path) as [content|]; [|rewrite lookup_empty in H; discriminate].
  unfold ConfigParser.parse_content in H.
  apply LineFacts.fold_parse_line_entries in H
    as [H | (line & a & b & Hin & Hl & Hf & Hc & Hk & Hv & Hke & Hve)];
    [rewrite lookup_empty in H; discriminate|].
  exists content, line, a, b.
  destruct (TrimFacts.trim_split a) as (_ & _ & _ & _ & _ & Hua & _).
  destruct (TrimFacts.trim_split b) as (_ & _ & _ & _ & _ & Hub & _).
  pose proof (LineFacts.getlines_free _ _ Hin) as Hnl.
  rewrite Hl, StringFacts.free_of_append in Hnl. apply andb_prop in Hnl as [Hnl _].
  subst k v. repeat split; auto using TrimFacts.trim_free_of.
Qed.

Lemma X18_witness :
  exists content line before after,
    ifstream_open Sim.env
      (with_file Main.config_path
         ("# settings" ++ newline ++ " FAN_PATH = /tmp/fan " ++ newline ++ "DEBUG")
         (Sim.machine "1" "40000")) Main.config_path = Some content /\
    In line (getlines content) /\
    line = (before ++ String "=" after)%string /\
    free_of "=" before = true /\ not_comment line = true /\
    "FAN_PATH"%string = ConfigParser.trim before /\
    "/tmp/fan"%string = ConfigParser.trim after /\
    empty "FAN_PATH" = false /\ empty "/tmp/fan" = false /\
    unpadded "FAN_PATH" = true /\ unpadded "/tmp/fan" = true /\
    free_of "=" "FAN_PATH" = true /\ free_of "010" "FAN_PATH" = true.
Proof.
  apply (X18_parseKeyValueFile_entries Sim.env).
  vm_compute. reflexivity.
Defined.

(** X19: the file is read line by line and a later line wins: parsing a
    text, a newline and a second text is going through the lines of the
    second with the map of the first; and when the last line is
    [key=value], with a key that holds no [=] and does not start with [#]
    or [;], neither side blank, the result is the map of the text before
    it with the trimmed key set to the trimmed value (which may itself
    hold a [=]). *)
Theorem X19_parseKeyValueFile_later_line_wins :
  forall (E : Env) (w : World E) (path content : string),
    (forall more,
        ifstream_open E w path = Some (content ++ newline ++ more)%string ->
        ConfigParser.parseKeyValueFile E w path =
        fold_left ConfigParser.parse_line (getlines more)
          (ConfigParser.parse_content content)) /\
    (forall key value,
        ifstream_open E w path =
          Some (content ++ newline ++ key ++ String "=" value)%string ->
        assignment key value = true ->
        ConfigParser.parseKeyValueFile E w path =
        <[ConfigParser.trim key := ConfigParser.trim value]>
          (ConfigParser.parse_content content)).
Proof.
  intros E w path content. split.
  - intros more Hopen. unfold ConfigParser.parseKeyValueFile. rewrite Hopen.
    apply LineFacts.parse_content_append.
  - intros key value Hopen Hassign. unfold ConfigParser.parseKeyValueFile.
    rewrite Hopen, LineFacts.parse_content_append.
    pose proof Hassign as H. unfold assignment in H.
    repeat (apply andb_prop in H as [H ?]).
    rewrite LineFacts.getlines_single.
    + cbn [fold_left]. now apply LineFacts.parse_line_assignment.
    + destruct key; [discriminate | reflexivity].
    + rewrite StringFacts.free_of_append.
      apply andb_true_intro. split; [assumption|].
      unfold free_of in *. cbn [find]. cbn [Ascii.eqb Bool.eqb].
      destruct (find value "010"); [discriminate | reflexivity].
Qed.

Lemma X19_witness :
  ConfigParser.parseKeyValueFile Sim.env
    (with_file Main.config_path ("DEBUG=false" ++ newline ++ " #DEBUG = a=b ")
       (Sim.machine "1" "40000")) Main.config_path =
  <[ConfigParser.trim " #DEBUG " := ConfigParser.trim " a=b "]>
    (ConfigParser.parse_content "DEBUG=false").
Proof.
  apply (proj2 (X19_parseKeyValueFile_later_line_wins Sim.env
                  (with_file Main.config_path ("DEBUG=false" ++ newline ++ " #DEBUG = a=b ")
                     (Sim.machine "1" "40000")) Main.config_path "DEBUG=false")
           " #DEBUG " " a=b ");
    vm_compute; reflexivity.
Defined.

(* ===================================================================== *)
(** * The discovery of the sensors and the two parsers                    *)
(* ===================================================================== *)

Section Discovery.
Import ConfigParser.
Variable E : Env.
Variable directory_iterator : World E -> string -> listing.

Lemma examine_Some (w : World E) (device_name : string)
    (entry : directory_entry) (found : string) :
  examine E w device_name entry = Returned (Some found) ->
  is_directory entry = Returned true /\
  String.prefix "hwmon" (filename entry) = true /\
  found = path_append (path_append hwmon_base_path (filename entry)) "temp1_input" /\
  fs_exists E w found = Returned true /\
  exists content name,
    ifstream_open E w
      (path_append (path_append hwmon_base_path (filename entry)) "name")
      = Some content /\
    getline content = Some name /\ trim name = device_name.
Proof.
  unfold examine. intros H. cbv zeta in H.
  set (name_file := path_append (path_append hwmon_base_path (filename entry)) "name") in *.
  set (temp_input := path_append (path_append hwmon_base_path (filename entry))
                       "temp1_input") in *.
  destruct (is_directory entry) as [[|]|what]; try discriminate.
  destruct (String.prefix "hwmon" (filename entry)); cbn [negb] in H; [|discriminate].
  destruct (fs_exists E w name_file) as [[|]|what]; try discriminate.
  destruct (ifstream_open E w name_file) as [content|]; [|discriminate].
  destruct (getline content) as [name|] eqn:Hline; [|discriminate].
  destruct (String.eqb (trim name) device_name) eqn:Hname; [|discriminate].
  destruct (fs_exists E w temp_input) as [[|]|what] eqn:Hex; try discriminate.
  inversion H; subst found. apply String.eqb_eq in Hname.
  split; [reflexivity|]. split; [reflexivity|]. split; [reflexivity|].
  split; [exact Hex|]. exists content, name. auto.
Qed.

Lemma prefix_append (a b : string) : String.prefix a (a ++ b) = true.
Proof.
  induction a as [|c a IH]; [rewrite StringFacts.append_nil_l; now destruct b|].
  rewrite StringFacts.append_cons. cbn [String.prefix].
  destruct (ascii_dec c c); [exact IH | congruence].
Qed.

(** What raises in the body of the loop: [is_directory], or one of the
    two [fs::exists]. *)
Lemma examine_Raised (w : World E) (device_name : string)
    (entry : directory_entry) (what : string) :
  examine E w device_name entry = Raised what ->
  is_directory entry = Raised what \/
  is_directory entry = Returned true /\
  String.prefix "hwmon" (filename entry) = true /\
  exists path,
    String.prefix (path_append hwmon_base_path (filename entry)) path = true /\
    fs_exists E w path = Raised what.
Proof.
  unfold examine. intros H. cbv zeta in H.
  set (dir := path_append hwmon_base_path (filename entry)) in *.
  assert (Hpre : forall leaf, String.prefix dir (path_append dir leaf) = true)
    by (intros leaf; apply prefix_append).
  destruct (is_directory entry) as [[|]|what0]; try discriminate;
    [|left; congruence].
  right. split; [reflexivity|].
  destruct (String.prefix "hwmon" (filename entry)); cbn [negb] in H; [|discriminate].
  split; [reflexivity|].
  destruct (fs_exists E w (path_append dir "name")) as [[|]|what0] eqn:Hname;
    try discriminate.
  2:{ exists (path_append dir "name"). split; [apply Hpre | congruence]. }
  destruct (ifstream_open E w (path_append dir "name")) as [content|]; [|discriminate].
  destruct (getline content) as [name|]; [|discriminate].
  destruct (String.eqb (trim name) device_name); [|discriminate].
  destruct (fs_exists E w (path_append dir "temp1_input")) as [[|]|what0] eqn:Hex;
    try discriminate.
  exists (path_append dir "temp1_input"). split; [apply Hpre | congruence].
Qed.

Lemma first_found_cases (w : World E) (device_name : string)
    (remaining : list directory_entry) (failure : option string) :
  match first_found E w device_name remaining failure with
  | Returned found =>
      (found = EmptyString /\ failure = None /\
       forall entry, In entry remaining ->
                     examine E w device_name entry = Returned None) \/
      exists entry,
        In entry remaining /\ examine E w device_name entry = Returned (Some found)
  | Raised what =>
      (exists entry, In entry remaining /\ examine E w device_name entry = Raised what) \/
      (failure = Some what /\
       forall entry, In entry remaining ->
                     examine E w device_name entry = Returned None)
  end.
Proof.
  induction remaining as [|entry rest IH].
  - cbn [first_found]. destruct failure as [what|].
    + right. split; [reflexivity | intros ? []].
    + left. split; [reflexivity|]. split; [reflexivity | intros ? []].
  - cbn [first_found].
    destruct (examine E w device_name entry) as [[found|]|what] eqn:Hex.
    + right. exists entry. split; [now left | exact Hex].
    + destruct (first_found E w device_name rest failure) as [found|what].
      * destruct IH as [(Hnone & Hf & Hall) | (e & Hin & He)].
        -- left. split; [exact Hnone|]. split; [exact Hf|].
           intros e [<-|Hin]; auto.
        -- right. exists e. split; [now right | exact He].
      * destruct IH as [(e & Hin & He) | (Hf & Hall)].
        -- left. exists e. split; [now right | exact He].
        -- right. split; [exact Hf|]. intros e [<-|Hin]; auto.
    + left. exists entry. split; [now left | exact Hex].
Qed.
End Discovery.

(** X20: when [findHwmonDeviceByName] returns, it returns either the
    empty string or the path [/sys/class/hwmon/<entry>/temp1_input] of a
    file that exists, for a directory entry whose name starts with [hwmon]
    and whose [name] file has [device_name] as its trimmed first line; a
    device name that starts or ends with a space or a tab is never found.
    An exception leaves it when the [fs::exists] on [/sys/class/hwmon]
    raises, when the iteration over that directory raises, or when it is
    raised for an entry of it ([is_directory], or [fs::exists] on a path
    under the entry). *)
Theorem X20_findHwmonDeviceByName_result :
  forall (E : Env) (directory_iterator : World E -> string -> listing)
         (w : World E) (device_name : string),
    (forall found,
        ConfigParser.findHwmonDeviceByName E directory_iterator w device_name
          = Returned found ->
        (empty found = true \/
         exists entry content name,
           In entry (entries (directory_iterator w ConfigParser.hwmon_base_path)) /\
           is_directory entry = Returned true /\
           String.prefix "hwmon" (filename entry) = true /\
           found = path_append (path_append ConfigParser.hwmon_base_path (filename entry))
                     "temp1_input" /\
           fs_exists E w found = Returned true /\
           ifstream_open E w
             (path_append (path_append ConfigParser.hwmon_base_path (filename entry)) "name")
             = Some content /\
           getline content = Some name /\
           ConfigParser.trim name = device_name) /\
        (unpadded device_name = false -> empty found = true)) /\
    (forall what,
        ConfigParser.findHwmonDeviceByName E directory_iterator w device_name
          = Raised what ->
        fs_exists E w ConfigParser.hwmon_base_path = Raised what \/
        fs_exists E w ConfigParser.hwmon_base_path = Returned true /\
        (failure (directory_iterator w ConfigParser.hwmon_base_path) = Some what \/
         exists entry,
           In entry (entries (directory_iterator w ConfigParser.hwmon_base_path)) /\
           (is_directory entry = Raised what \/
            exists path,
              String.prefix
                (path_append ConfigParser.hwmon_base_path (filename entry)) path = true /\
              fs_exists E w path = Raised what))).
Proof.
  intros E dir w device_name. split.
  - intros found Hfound.
    assert (H : empty found = true \/
       exists entry content name,
         In entry (entries (dir w ConfigParser.hwmon_base_path)) /\
         is_directory entry = Returned true /\
         String.prefix "hwmon" (filename entry) = true /\
         found = path_append (path_append ConfigParser.hwmon_base_path (filename entry))
                   "temp1_input" /\
         fs_exists E w found = Returned true /\
         ifstream_open E w
           (path_append (path_append ConfigParser.hwmon_base_path (filename entry)) "name")
           = Some content /\
         getline content = Some name /\
         ConfigParser.trim name = device_name).
    { unfold ConfigParser.findHwmonDeviceByName in Hfound.
      destruct (fs_exists E w ConfigParser.hwmon_base_path) as [[|]|what];
        [| left; now inversion Hfound | discriminate].
      cbv zeta in Hfound.
      pose proof (first_found_cases E w device_name
                    (entries (dir w ConfigParser.hwmon_base_path))
                    (failure (dir w ConfigParser.hwmon_base_path))) as Hcases.
      rewrite Hfound in Hcases.
      destruct Hcases as [(-> & _) | (entry & Hin & Hex)]; [now left|].
      apply examine_Some in Hex
        as (Hd & Hp & Hf & Hexists & content & name & Ho & Hg & Ht).
      right. exists entry, content, name. repeat split; auto. }
    split; [exact H|].
    intros Hpad. destruct H as [H | (entry & content & name & H)]; [exact H|].
    destruct H as (_ & _ & _ & _ & _ & _ & _ & Ht).
    destruct (TrimFacts.trim_split name) as (_ & _ & _ & _ & _ & Hun & _).
    rewrite Ht, Hpad in Hun. discriminate.
  - intros what Hraise. unfold ConfigParser.findHwmonDeviceByName in Hraise.
    destruct (fs_exists E w ConfigParser.hwmon_base_path) as [[|]|what0];
      [| discriminate | left; congruence].
    right. split; [reflexivity|]. cbv zeta in Hraise.
    pose proof (first_found_cases E w device_name
                  (entries (dir w ConfigParser.hwmon_base_path))
                  (failure (dir w ConfigParser.hwmon_base_path))) as Hcases.
    rewrite Hraise in Hcases.
    destruct Hcases as [(entry & Hin & Hex) | (Hf & _)]; [|now left].
    right. exists entry. split; [exact Hin|].
    apply examine_Raised in Hex as [Hd | (_ & _ & path & Hpre & Hpath)];
      [now left | right; eauto].
Qed.

Section ParserFacts.
Import ConfigParser.

Lemma assign_keeps {A B : Type} (f : FanControllerConfig -> B)
    (set : A -> FanControllerConfig -> FanControllerConfig)
    (found : option A) (c : FanControllerConfig) :
  (forall v c', f (set v c') = f c') -> f (assign found set c) = f c.
Proof. intros H. destruct found; [apply H | reflexivity]. Qed.

Variable E : Env.
Variable directory_iterator : World E -> string -> listing.

(** What [find_devices] leaves in the two sensor paths. *)
Lemma find_devices_paths (w : World E) (c c' : FanControllerConfig) :
  find_devices E directory_iterator w c = Some c' ->
  hwmon0_name c' = hwmon0_name c /\
  hwmon1_name c' = hwmon1_name c /\
  (if empty (temp_hwmon0_path c)
   then findHwmonDeviceByName E directory_iterator w (hwmon0_name c)
        = Returned (temp_hwmon0_path c')
   else temp_hwmon0_path c' = temp_hwmon0_path c) /\
  (if empty (temp_hwmon1_path c)
   then findHwmonDeviceByName E directory_iterator w (hwmon1_name c)
        = Returned (temp_hwmon1_path c')
   else temp_hwmon1_path c' = temp_hwmon1_path c).
Proof.
  unfold find_devices, find_device.
  destruct (empty (temp_hwmon0_path c)) eqn:H0.
  - destruct (findHwmonDeviceByName E directory_iterator w (hwmon0_name c))
      as [found0|what]; [|discriminate].
    cbn [with_temp_hwmon0_path temp_hwmon1_path hwmon1_name].
    destruct (empty (temp_hwmon1_path c)) eqn:H1.
    + destruct (findHwmonDeviceByName E directory_iterator w (hwmon1_name c))
        as [found1|what]; [|discriminate].
      intros [= <-]. repeat split; reflexivity.
    + intros [= <-]. repeat split; reflexivity.
  - destruct (empty (temp_hwmon1_path c)) eqn:H1.
    + destruct (findHwmonDeviceByName E directory_iterator w (hwmon1_name c))
        as [found1|what]; [|discriminate].
      intros [= <-]. repeat split; reflexivity.
    + intros [= <-]. repeat split; reflexivity.
Qed.

(** [find_devices] ends by an exception exactly when a look-up that it
    makes does. *)
Lemma find_devices_raises (w : World E) (c : FanControllerConfig) :
  find_devices E directory_iterator w c = None <->
  (empty (temp_hwmon0_path c) = true /\
   exists what,
     findHwmonDeviceByName E directory_iterator w (hwmon0_name c) = Raised what) \/
  (empty (temp_hwmon1_path c) = true /\
   exists what,
     findHwmonDeviceByName E directory_iterator w (hwmon1_name c) = Raised what).
Proof.
  unfold find_devices, find_device.
  destruct (empty (temp_hwmon0_path c)) eqn:H0.
  - destruct (findHwmonDeviceByName E directory_iterator w (hwmon0_name c))
      as [found0|what0].
    + cbn [with_temp_hwmon0_path temp_hwmon1_path hwmon1_name].
      destruct (empty (temp_hwmon1_path c)) eqn:H1.
      * destruct (findHwmonDeviceByName E directory_iterator w (hwmon1_name c))
          as [found1|what1].
        -- split; [discriminate|].
           intros [(_ & what & H) | (_ & what & H)]; discriminate.
        -- split; [intros _; right; eauto | reflexivity].
      * split; [discriminate|].
        intros [(_ & what & H) | (H & _)]; discriminate.
    + split; [intros _; left; eauto | reflexivity].
  - destruct (empty (temp_hwmon1_path c)) eqn:H1.
    + destruct (findHwmonDeviceByName E directory_iterator w (hwmon1_name c))
        as [found1|what1].
      * split; [discriminate|].
        intros [(H & _) | (_ & what & H)]; discriminate.
      * split; [intros _; right; eauto | reflexivity].
    + split; [discriminate|]. intros [(H & _) | (H & _)]; discriminate.
Qed.
End ParserFacts.

(** X21: the two parsers resolve the sensors alike. [parseConfigFile] is
    [parseEnvironment] on an environment that holds exactly the entries of
    the file's map; and in the configuration that [parseEnvironment]
    returns, each device name is the one that was set, or the default,
    and each sensor path is the one that was set when that is not empty,
    and otherwise what [findHwmonDeviceByName] returns for that device
    name. *)
Theorem X21_parsers_resolve_sensor_paths :
  forall (E : Env) (directory_iterator : World E -> string -> listing)
         (stod : string -> option float) (w : World E),
    (forall config_path,
        ConfigParser.parseConfigFile E directory_iterator stod w config_path =
        ConfigParser.parseEnvironment E directory_iterator stod
          (fun name => ConfigParser.parseKeyValueFile E w config_path !! name) w) /\
    (forall (getenv : string -> option string) (config : FanControllerConfig),
        ConfigParser.parseEnvironment E directory_iterator stod getenv w = Some config ->
        let name0 := match getenv "HWMON0_NAME"%string with
                     | Some name => name | None => "cpu_thermal"%string end in
        let name1 := match getenv "HWMON1_NAME"%string with
                     | Some name => name | None => "rp1_adc"%string end in
        let found0 := ConfigParser.findHwmonDeviceByName E directory_iterator w name0 in
        let found1 := ConfigParser.findHwmonDeviceByName E directory_iterator w name1 in
        hwmon0_name config = name0 /\ hwmon1_name config = name1 /\
        match getenv "TEMP_HWMON0_PATH"%string with
        | Some path =>
            if empty path then found0 = Returned (temp_hwmon0_path config)
            else temp_hwmon0_path config = path
        | None => found0 = Returned (temp_hwmon0_path config)
        end /\
        match getenv "TEMP_HWMON1_PATH"%string with
        | Some path =>
            if empty path then found1 = Returned (temp_hwmon1_path config)
            else temp_hwmon1_path config = path
        | None => found1 = Returned (temp_hwmon1_path config)
        end).
Proof.
  intros E dir stod w. split; [reflexivity|].
  intros getenv config H name0 name1 found0 found1.
  unfold ConfigParser.parseEnvironment in H.
  repeat match type of H with
         | match traverse ?f ?x with _ => _ end = _ =>
             destruct (traverse f x); [|discriminate]
         end.
  match type of H with
  | ConfigParser.find_devices E dir w ?c = Some _ =>
      apply find_devices_paths in H as (Hname0 & Hname1 & Hpath0 & Hpath1);
      assert (Hn0 : hwmon0_name c = name0);
      [|assert (Hn1 : hwmon1_name c = name1);
        [|assert (Hp0 : temp_hwmon0_path c =
                        match getenv "TEMP_HWMON0_PATH"%string with
                        | Some path => path | None => ""%string end);
          [|assert (Hp1 : temp_hwmon1_path c =
                          match getenv "TEMP_HWMON1_PATH"%string with
                          | Some path => path | None => ""%string end)]]]
  end.
  - rewrite !(assign_keeps hwmon0_name) by (intros; reflexivity).
    destruct (getenv "HWMON0_NAME"%string); cbn [ConfigParser.assign with_hwmon0_name hwmon0_name].
    + reflexivity.
    + now rewrite !(assign_keeps hwmon0_name) by (intros; reflexivity).
  - rewrite !(assign_keeps hwmon1_name) by (intros; reflexivity).
    destruct (getenv "HWMON1_NAME"%string); cbn [ConfigParser.assign with_hwmon1_name hwmon1_name].
    + reflexivity.
    + now rewrite !(assign_keeps hwmon1_name) by (intros; reflexivity).
  - rewrite !(assign_keeps temp_hwmon0_path) by (intros; reflexivity).
    destruct (getenv "TEMP_HWMON0_PATH"%string);
      cbn [ConfigParser.assign with_temp_hwmon0_path temp_hwmon0_path].
    + reflexivity.
    + now rewrite !(assign_keeps temp_hwmon0_path) by (intros; reflexivity).
  - rewrite !(assign_keeps temp_hwmon1_path) by (intros; reflexivity).
    destruct (getenv "TEMP_HWMON1_PATH"%string);
      cbn [ConfigParser.assign with_temp_hwmon1_path temp_hwmon1_path].
    + reflexivity.
    + now rewrite !(assign_keeps temp_hwmon1_path) by (intros; reflexivity).
  - rewrite Hn0, Hp0 in Hpath0. rewrite Hn1, Hp1 in Hpath1.
    rewrite Hname0, Hname1, Hn0, Hn1. subst found0 found1.
    split; [reflexivity|]. split; [reflexivity|].
    split.
    + destruct (getenv "TEMP_HWMON0_PATH"%string); exact Hpath0.
    + destruct (getenv "TEMP_HWMON1_PATH"%string); exact Hpath1.
Qed.

Lemma X21_witness :
  let config := with_temp_hwmon0_path Sim.cpu default_config in
  let w := Sim.machine "1" "40000" in
  hwmon0_name config = "cpu_thermal"%string /\
  hwmon1_name config = "rp1_adc"%string /\
  temp_hwmon0_path config = Sim.cpu /\
  ConfigParser.findHwmonDeviceByName Sim.env sim_hwmon w "rp1_adc"
    = Returned (temp_hwmon1_path config).
Proof.
  intros config w.
  apply (proj2 (X21_parsers_resolve_sensor_paths Sim.env sim_hwmon sim_stod w)
           sim_getenv config).
  vm_compute. reflexivity.
Defined.

(** X22: a configuration file that cannot be opened is not an error of
    its own: [parseConfigFile] then goes on with the defaults and looks
    both sensor paths up by the default device names. It returns that
    configuration when both look-ups return; when one of them raises, the
    exception leaves [parseConfigFile]. *)
Theorem X22_unreadable_file_gives_defaults :
  forall (E : Env) (directory_iterator : World E -> string -> listing)
         (stod : string -> option float) (w : World E) (config_path : string),
    ifstream_open E w config_path = None ->
    ConfigParser.parseConfigFile E directory_iterator stod w config_path =
    match ConfigParser.findHwmonDeviceByName E directory_iterator w "cpu_thermal" with
    | Returned found0 =>
        match ConfigParser.findHwmonDeviceByName E directory_iterator w "rp1_adc" with
        | Returned found1 =>
            Some (with_temp_hwmon1_path found1
                    (with_temp_hwmon0_path found0 default_config))
        | Raised _ => None
        end
    | Raised _ => None
    end.
Proof.
  intros E dir stod w path Hopen.
  unfold ConfigParser.parseConfigFile, ConfigParser.parseKeyValueFile.
  rewrite Hopen.
  change (ConfigParser.find_devices E dir w default_config = 
          match ConfigParser.findHwmonDeviceByName E dir w "cpu_thermal" with
          | Returned found0 =>
              match ConfigParser.findHwmonDeviceByName E dir w "rp1_adc" with
              | Returned found1 =>
                  Some (with_temp_hwmon1_path found1
                          (with_temp_hwmon0_path found0 default_config))
              | Raised _ => None
              end
          | Raised _ => None
          end).
  unfold ConfigParser.find_devices, ConfigParser.find_device.
  cbn [default_config temp_hwmon0_path temp_hwmon1_path hwmon0_name hwmon1_name empty].
  destruct (ConfigParser.findHwmonDeviceByName E dir w "cpu_thermal")
    as [found0|what0]; [|reflexivity].
  cbn [with_temp_hwmon0_path default_config temp_hwmon0_path temp_hwmon1_path
       hwmon0_name hwmon1_name empty].
  destruct (ConfigParser.findHwmonDeviceByName E dir w "rp1_adc")
    as [found1|what1]; reflexivity.
Qed.

Lemma X22_witness :
  ConfigParser.parseConfigFile Sim.env sim_hwmon sim_stod
    (Sim.machine "1" "40000") "/nowhere" =
  match ConfigParser.findHwmonDeviceByName Sim.env sim_hwmon
          (Sim.machine "1" "40000") "cpu_thermal" with
  | Returned found0 =>
      match ConfigParser.findHwmonDeviceByName Sim.env sim_hwmon
              (Sim.machine "1" "40000") "rp1_adc" with
      | Returned found1 =>
          Some (with_temp_hwmon1_path found1
                  (with_temp_hwmon0_path found0 default_config))
      | Raised _ => None
      end
  | Raised _ => None
  end.
Proof.
  apply (X22_unreadable_file_gives_defaults Sim.env sim_hwmon sim_stod).
  vm_compute. reflexivity.
Defined.

(** Two machines without a configuration file: on the first the CPU
    sensor is found and the defaults are returned with its path; on the
    second the iteration over [/sys/class/hwmon] raises and so does
    [parseConfigFile]. *)
Example parseConfigFile_paths :
  let w := with_file "/sys/class/hwmon" ""
             (with_file "/sys/class/hwmon/hwmon0/name" "cpu_thermal"
                (Sim.machine "1" "40000")) in
  ConfigParser.parseConfigFile Sim.env sim_hwmon sim_stod w "/nowhere"
  = Some (with_temp_hwmon0_path "/sys/class/hwmon/hwmon0/temp1_input"
            default_config) /\
  ConfigParser.findHwmonDeviceByName Sim.env sim_no_hwmon w "cpu_thermal"
  = Raised not_a_directory /\
  ConfigParser.parseConfigFile Sim.env sim_no_hwmon sim_stod w "/nowhere" = None.
Proof. vm_compute. repeat split. Qed.

(* ===================================================================== *)
(** * The text of a temperature                                           *)
(* ===================================================================== *)

Module FormatFacts.
Import StringFacts.

Lemma zeros_snoc (n : nat) : zeros (S n) = (zeros n ++ "0")%string.
Proof.
  induction n as [|n IH]; [reflexivity|].
  change (zeros (S (S n))) with (String "0" (zeros (S n))).
  rewrite IH at 1. change (zeros (S n)) with (String "0" (zeros n)).
  now rewrite append_cons.
Qed.

Lemma length_zeros (n : nat) : String.length (zeros n) = n.
Proof. induction n as [|n IH]; cbn; [reflexivity | now rewrite IH]. Qed.

Lemma pop_back_snoc (s : string) (c : ascii) :
  pop_back (s ++ String c "") = s.
Proof.
  unfold pop_back. rewrite length_append. cbn [String.length].
  replace (String.length s + 1 - 1)%nat with (String.length s) by lia.
  apply substring_0_append.
Qed.

Lemma back_snoc (s : string) (c : ascii) : back (s ++ String c "") = Some c.
Proof. now rewrite back_append. Qed.

(** The loop stops at the last character that is not a zero, or at the
    dot. *)
Lemma remove_trailing_zeros_spec (head : string) (n : nat) :
  forall fuel dot_pos,
    (n <= fuel)%nat ->
    (dot_pos + 1 <= String.length head)%nat ->
    ((dot_pos + 1)%nat = String.length head \/
     match back head with Some c => Ascii.eqb c "0" | None => false end = false) ->
    remove_trailing_zeros fuel dot_pos (head ++ zeros n) = head.
Proof.
  induction n as [|n IH]; intros fuel dot_pos Hfuel Hlen Hstop.
  - cbn [zeros]. rewrite append_nil_r. destruct fuel as [|fuel]; [reflexivity|].
    cbn [remove_trailing_zeros].
    destruct Hstop as [Heq | Hback].
    + replace (dot_pos + 1 <? String.length head)%nat with false
        by (symmetry; apply Nat.ltb_ge; lia).
      reflexivity.
    + rewrite Hback, andb_false_r. reflexivity.
  - destruct fuel as [|fuel]; [lia|].
    rewrite zeros_snoc, <- append_assoc. cbn [remove_trailing_zeros].
    rewrite back_snoc, pop_back_snoc, length_append, length_append, length_zeros.
    cbn [String.length].
    replace (dot_pos + 1 <? String.length head + n + 1)%nat with true
      by (symmetry; apply Nat.ltb_lt; lia).
    cbn [andb Ascii.eqb Bool.eqb]. apply IH; [lia | assumption | assumption].
Qed.

End FormatFacts.

(** X23: [formatTemperature] drops the trailing zeros of the fraction, and
    the dot with them when nothing else follows it: when the text written
    with one decimal is [whole.fraction] followed by [n] zeros, the
    fraction not ending in a zero, the result is [whole] for an empty
    fraction and [whole.fraction] otherwise. A text without a dot is
    returned as it is. *)
Theorem X23_formatTemperature_drops_zeros :
  forall (fixed1 : float -> string) (temp : float),
    (forall whole fraction n,
        fixed1 temp = (whole ++ String "." (fraction ++ zeros n))%string ->
        free_of "." whole = true ->
        match back fraction with Some c => Ascii.eqb c "0" | None => false end = false ->
        formatTemperature fixed1 temp =
        if empty fraction then whole else (whole ++ String "." fraction)%string) /\
    (free_of "." (fixed1 temp) = true ->
     formatTemperature fixed1 temp = fixed1 temp).
Proof.
  intros fixed1 temp. split.
  - intros whole fraction n Htext Hwhole Hback. unfold formatTemperature.
    rewrite Htext, StringFacts.find_append by exact Hwhole.
    change (String "." (fraction ++ zeros n))
      with (String "." "" ++ (fraction ++ zeros n))%string.
    rewrite <- !StringFacts.append_assoc.
    rewrite FormatFacts.remove_trailing_zeros_spec.
    + rewrite !StringFacts.length_append. cbn [String.length].
      destruct fraction as [|c fraction].
      * cbn [empty String.length]. rewrite StringFacts.append_nil_r.
        replace (String.length whole + 1 + 0 =? String.length whole + 1)%nat
          with true by (symmetry; apply Nat.eqb_eq; lia).
        apply FormatFacts.pop_back_snoc.
      * cbn [empty String.length].
        replace (String.length whole + 1 + S (String.length fraction)
                 =? String.length whole + 1)%nat
          with false by (symmetry; apply Nat.eqb_neq; lia).
        rewrite StringFacts.append_assoc. reflexivity.
    + rewrite !StringFacts.length_append, FormatFacts.length_zeros. lia.
    + rewrite !StringFacts.length_append. cbn [String.length]. lia.
    + destruct fraction as [|c fraction].
      * left. rewrite StringFacts.append_nil_r, StringFacts.length_append.
        reflexivity.
      * right. rewrite StringFacts.back_append by reflexivity. exact Hback.
  - intros Hfree. unfold formatTemperature. unfold free_of in Hfree.
    destruct (find (fixed1 temp) "."); [discriminate | reflexivity].
Qed.

Lemma X23_witness :
  formatTemperature (fun _ => "57.0"%string) 57%float =
  if empty "" then "57"%string else ("57" ++ String "." "")%string.
Proof.
  apply (proj1 (X23_formatTemperature_drops_zeros (fun _ => "57.0"%string) 57%float)
           "57"%string ""%string 1%nat); reflexivity.
Defined.

(* ===================================================================== *)
(** * The program                                                         *)
(* ===================================================================== *)

Section ProcessFacts.
Variable E : Env.
Variable config_ : FanControllerConfig.

(** [run] is left with [running_] true unless it returns. *)
Lemma run_loop_unfinished (fuel : nat) :
  forall (s : State E) (n : nat) (ended : option (result unit)) (s' : State E),
    running_ s = true ->
    run_loop E config_ fuel s = (n, ended, s') ->
    (forall u, ended <> Some (Returned u)) ->
    running_ s' = true.
Proof.
  induction fuel as [|fuel IH]; intros s n ended s' Hrun H Hended.
  - cbn [run_loop] in H. inversion H; subst. exact Hrun.
  - cbn [run_loop] in H.
    destruct (running_ (snd (deliver_signals E s))) eqn:Hd.
    2:{ inversion H; subst. now destruct (Hended tt). }
    pose proof (run_body_running E config_ (snd (deliver_signals E s))) as Hb.
    destruct (run_body E config_ (snd (deliver_signals E s))) as [[u|what] s2].
    + destruct (run_loop E config_ fuel s2) as [[m e] s''] eqn:Hrec.
      inversion H; subst. eapply IH; [|exact Hrec|exact Hended].
      cbn [snd] in Hb. rewrite Hb. exact Hd.
    + inversion H; subst. cbn [snd] in Hb. rewrite Hb. exact Hd.
Qed.

Lemma initialize_accepts (s : State E) :
  fst (initialize E config_ s) = Returned true ->
  fs_exists E (world s) (fan_path config_) = Returned true /\
  sensor_configured config_ = true /\
  ordering_rejected config_ = false.
Proof.
  rewrite initialize_paths_eq.
  destruct (fs_exists E (world s) (fan_path config_)) as [[|]|what] eqn:Hex;
    try discriminate.
  destruct (sensor_configured config_); [|discriminate].
  destruct (readFanSpeed_returns E config_ s true Hex) as (hw & l & -> & _).
  destruct (ordering_rejected config_); [discriminate|]. auto.
Qed.

Lemma initialize_world (s : State E) :
  world (snd (initialize E config_ s)) = world s /\
  (fst (initialize E config_ s) <> Returned true ->
   stdout_lines (output (snd (initialize E config_ s))) = stdout_lines (output s)) /\
  (forall what,
      fst (initialize E config_ s) = Raised what ->
      fs_exists E (world s) (fan_path config_) = Raised what /\
      snd (initialize E config_ s) = s).
Proof.
  rewrite initialize_paths_eq.
  destruct (fs_exists E (world s) (fan_path config_)) as [[|]|what0] eqn:Hex.
  2:{ cbn [fst snd emit world output]. rewrite stdout_lines_app, app_nil_r.
      repeat split; discriminate. }
  2:{ cbn [fst snd]. split; [reflexivity|]. split; [reflexivity|].
      intros what [= ->]. split; reflexivity. }
  destruct (sensor_configured config_).
  2:{ cbn [fst snd emit world output]. rewrite stdout_lines_app, app_nil_r.
      repeat split; discriminate. }
  destruct (readFanSpeed_returns E config_ s true Hex) as (hw & l & -> & Hl).
  destruct (ordering_rejected config_);
    cbn [fst snd emit with_speed world output]; rewrite !stdout_lines_app, Hl.
  - unfold stdout_lines at 2. cbn [filter map fst snd]. rewrite !app_nil_r.
    repeat split; discriminate.
  - split; [reflexivity|]. split; [intros H; now destruct H | discriminate].
Qed.

Lemma ordering_accepted (c : FanControllerConfig) :
  table_without_nan c -> ordering_rejected c = false -> thresholds_ascending c.
Proof.
  unfold ordering_rejected, thresholds_ascending, table_without_nan.
  intros (N0 & N1 & N2 & N3 & N4) H.
  apply orb_false_iff in H as [H H34]. apply orb_false_iff in H as [H H23].
  apply orb_false_iff in H as [H01 H12].
  repeat split; apply FloatNaN.leb_false_ltb; assumption.
Qed.
End ProcessFacts.

(** X24: how [main] ends. When the parser raises, the process is
    terminated before a controller exists; when the usage text is asked
    for, [main] returns 0, again without a controller. Otherwise
    [initialize] decides. When its [fs::exists] raises, the process is
    terminated with the controller as it was made. When it returns false,
    [main] returns 1 and the machine is as it was found (no write to the
    fan, no sleep, nothing on stdout). When it returns true the loop is
    entered with a fan file that exists, a sensor path and a threshold
    table that passed the ordering test (a strictly increasing one, if it
    holds no NaN); then [main] returns 0 only with [running_] false, and
    the process is terminated when an exception leaves a body of the
    loop, with [running_] still true. *)
Theorem X24_main_outcome :
  forall (E : Env) (directory_iterator : World E -> string -> listing)
         (stod : string -> option float) (getenv : string -> option string)
         (access_R_OK : World E -> string -> bool)
         (fuel : nat) (w : World E) (argv : list string),
    let p := Main.main E directory_iterator stod getenv access_R_OK fuel w argv in
    match Main.select_config E directory_iterator stod getenv access_R_OK w argv with
    | Main.Uncaught => Main.end_ p = Main.Terminated /\ Main.controller p = None
    | Main.Help =>
        Main.end_ p = Main.Exit 0 /\ Main.controller p = None /\
        Main.said p = [(Stdout, Main.MsgUsage (hd EmptyString argv))]
    | Main.Selected config =>
        exists s,
          Main.controller p = Some s /\
          match initialize E config (construct E w) with
          | (Returned true, s0) =>
              fs_exists E w (fan_path config) = Returned true /\
              sensor_configured config = true /\
              ordering_rejected config = false /\
              (table_without_nan config -> thresholds_ascending config) /\
              Main.said p = [] /\
              ((Main.end_ p = Main.InLoop /\ running_ s = true /\
                exists n, run E config fuel s0 = (n, None, s)) \/
               (Main.end_ p = Main.Exit 0 /\ running_ s = false /\
                exists n, run E config fuel s0 = (n, Some (Returned tt), s)) \/
               (Main.end_ p = Main.Terminated /\ running_ s = true /\
                exists n what, run E config fuel s0 = (n, Some (Raised what), s)))
          | (Returned false, s0) =>
              Main.end_ p = Main.Exit 1 /\
              Main.said p = [(Stderr, Main.MsgFailedToInitialize)] /\
              s = s0 /\ world s = w /\ stdout_lines (output s) = []
          | (Raised what, s0) =>
              Main.end_ p = Main.Terminated /\ Main.said p = [] /\
              s = construct E w /\
              fs_exists E w (fan_path config) = Raised what
          end
    end.
Proof.
  intros E dir stod getenv access fuel w argv p. subst p. unfold Main.main.
  destruct (Main.select_config E dir stod getenv access w argv) as [|config|];
    [repeat split | | repeat split].
  pose proof (initialize_accepts E config (construct E w)) as Hacc.
  pose proof (initialize_world E config (construct E w)) as (Hworld & Hout & Hraise).
  destruct (initialize E config (construct E w)) as [[[|]|what] s];
    cbn [fst snd] in *.
  - destruct (Hacc eq_refl) as (Hfan & Hsensor & Horder).
    destruct (run E config fuel s) as [[n ended] s'] eqn:Hrun.
    exists s'. split; [reflexivity|].
    split; [exact Hfan|]. split; [exact Hsensor|]. split; [exact Horder|].
    split; [intros Hnan; now apply ordering_accepted|].
    split; [reflexivity|].
    unfold run in Hrun. destruct ended as [[[]|what]|]; cbn [Main.end_].
    + right; left. split; [reflexivity|]. split; [|eauto].
      apply run_loop_exit in Hrun as (_ & _ & H); [exact H | reflexivity].
    + right; right. split; [reflexivity|]. split; [|eauto].
      apply run_loop_unfinished in Hrun; [exact Hrun | reflexivity | discriminate].
    + left. split; [reflexivity|]. split; [|eauto].
      apply run_loop_unfinished in Hrun; [exact Hrun | reflexivity | discriminate].
  - exists s. split; [reflexivity|]. cbn [Main.end_ Main.said].
    split; [reflexivity|]. split; [reflexivity|]. split; [reflexivity|].
    split; [exact Hworld | now apply Hout].
  - exists s. split; [reflexivity|]. cbn [Main.end_ Main.said].
    destruct (Hraise what eq_refl) as [Hex Hs].
    split; [reflexivity|]. split; [reflexivity|]. split; [exact Hs | exact Hex].
Qed.

(** Three runs of the program on machines without a configuration file:
    the fan path is too long and [initialize] raises; a sensor path is too
    long and the first body of the loop raises; and a machine on which
    three bodies run and the loop goes on. *)
Example main_paths :
  let long_fan name := if String.eqb name "FAN_PATH" then Some long_path else None in
  let long_sensor name :=
    if String.eqb name "TEMP_HWMON0_PATH" then Some long_path else None in
  let w := Sim.machine "1" "40000" in
  Main.end_ (Main.main Sim.env sim_hwmon sim_stod long_fan sim_access 3 w
               ["pi5-fan-controller"]%string) = Main.Terminated /\
  Main.end_ (Main.main Sim.env sim_hwmon sim_stod long_sensor sim_access 3 w
               ["pi5-fan-controller"]%string) = Main.Terminated /\
  Main.end_ (Main.main Sim.env sim_hwmon sim_stod sim_getenv sim_access 3 w
               ["pi5-fan-controller"]%string) = Main.InLoop.
Proof. vm_compute. repeat split. Qed.

(** X25: a value of [INTERVAL_SECONDS] that [std::stoi] rejects in the
    configuration file that [main] reads first ends the program by the
    exception, whatever the arguments are: no usage text is printed and no
    controller is made. *)
Theorem X25_bad_interval_terminates :
  forall (E : Env) (directory_iterator : World E -> string -> listing)
         (stod : string -> option float) (getenv : string -> option string)
         (access_R_OK : World E -> string -> bool)
         (fuel : nat) (w : World E) (argv : list string) (text : string),
    access_R_OK w Main.config_path = true ->
    ConfigParser.parseKeyValueFile E w Main.config_path !! "INTERVAL_SECONDS"
      = Some text ->
    stoi_value text = None ->
    Main.main E directory_iterator stod getenv access_R_OK fuel w argv =
    {| Main.end_ := Main.Terminated; Main.said := []; Main.controller := None |}.
Proof.
  intros E dir stod getenv access fuel w argv text Hacc Hkey Hstoi.
  unfold Main.main, Main.select_config. rewrite Hacc.
  assert (Hparse : ConfigParser.parseConfigFile E dir stod w Main.config_path = None).
  { unfold ConfigParser.parseConfigFile. rewrite Hkey.
    repeat match goal with
           | |- context [traverse stod ?x] => destruct (traverse stod x); [|reflexivity]
           end.
    unfold traverse at 1. rewrite Hstoi. reflexivity. }
  rewrite Hparse. reflexivity.
Qed.

Lemma X25_witness :
  Main.main Sim.env sim_hwmon sim_stod (fun _ => None) sim_access 3
    (with_file Main.config_path ("HYSTERESIS=2.0" ++ newline ++ "INTERVAL_SECONDS=x15")
       (Sim.machine "1" "40000"))
    ["pi5-fan-controller"; "--help"]%string =
  {| Main.end_ := Main.Terminated; Main.said := []; Main.controller := None |}.
Proof.
  apply (X25_bad_interval_terminates Sim.env sim_hwmon sim_stod (fun _ => None)
           sim_access 3 _ _ "x15"%string);
    vm_compute; reflexivity.
Defined.

(** X26: the arguments that [main] does not know are passed over without
    a word, and a [--config] replaces the configuration as a whole: after
    any run of unknown arguments, what follows [--config path] is
    processed with the configuration of that file alone, whatever was
    chosen before. *)
Theorem X26_config_argument_replaces :
  forall (E : Env) (directory_iterator : World E -> string -> listing)
         (stod : string -> option float) (w : World E)
         (skipped rest : list string) (config config' : FanControllerConfig)
         (path : string),
    forallb unknown_argument skipped = true ->
    Main.arguments E directory_iterator stod w skipped config = Main.Selected config /\
    Main.arguments E directory_iterator stod w
      (skipped ++ "--config"%string :: path :: rest) config =
    Main.arguments E directory_iterator stod w
      ("--config"%string :: path :: rest) config'.
Proof.
  intros E dir stod w skipped rest config config' path.
  induction skipped as [|arg skipped IH]; intros H.
  - split; reflexivity.
  - cbn [forallb] in H. apply andb_prop in H as [Harg H].
    destruct (IH H) as [IH1 IH2].
    unfold unknown_argument in Harg. apply negb_true_iff in Harg.
    apply orb_false_iff in Harg as [Harg Hh]. apply orb_false_iff in Harg as [Hc Hhelp].
    split.
    + cbn [Main.arguments]. rewrite Hc, Hhelp, Hh. exact IH1.
    + rewrite <- app_comm_cons. cbn [Main.arguments] in *.
      rewrite Hc, Hhelp, Hh. cbn [orb]. exact IH2.
Qed.

Lemma X26_witness :
  Main.arguments Sim.env sim_hwmon sim_stod (Sim.machine "1" "40000")
    ["--verbose"; "-d"]%string Sim.config = Main.Selected Sim.config /\
  Main.arguments Sim.env sim_hwmon sim_stod (Sim.machine "1" "40000")
    (["--verbose"; "-d"]%string ++ ["--config"; "/nowhere"; "-h"]%string)%list
    Sim.config =
  Main.arguments Sim.env sim_hwmon sim_stod (Sim.machine "1" "40000")
    ["--config"; "/nowhere"; "-h"]%string default_config.
Proof.
  apply (X26_config_argument_replaces Sim.env sim_hwmon sim_stod).
  reflexivity.
Defined.
